(** * Hesha Premium API: the order workflow, its persistence gateway and its
    notification sender (src/main.py), embedded in Rocq.

    Layout of the development:
    - [Text]       Python [str] values as sequences of code points;
    - [Clock]      [datetime] values, [strftime] and [isoformat];
    - [Numbers]    decimal digits, [int] and [float] literals;
    - [Json]       [json.dumps] and [json.loads];
    - [Store]      the relational store declared by [init_db];
    - [Runtime]    exceptions, the state of the process, the driver calls;
    - [Notifier]   [send_order_notification];
    - [Api]        the request handlers;
    - [Catalogue]  [get_products];
    - [Startup]    [DB_CONFIG] and [init_db];
    - the properties of the handlers, of the sender and of the start-up. *)

From Stdlib Require Import Ascii String.
From Stdlib Require Import List NArith ZArith Bool Lia.
From Stdlib Require Import Permutation.
Import ListNotations.

Set Implicit Arguments.

(* ------------------------------------------------------------------ *)
(** ** Text *)

Module Text.

(** A Python [str] is a sequence of Unicode code points. *)
Definition pystr := list N.

(** The code points of an ASCII literal. *)
Definition py (s : string) : pystr := map N_of_ascii (list_ascii_of_string s).
Arguments py s%_string.

(** [a == b] on [str]. *)
Fixpoint str_eqb (a b : pystr) : bool :=
  match a, b with
  | [], [] => true
  | x :: a', y :: b' => (x =? y)%N && str_eqb a' b'
  | _, _ => false
  end.

(** Truthiness of a [str]: the empty string is falsy. *)
Definition str_truthy (s : pystr) : bool :=
  match s with [] => false | _ :: _ => true end.

Definition is_digit (c : N) : bool := ((48 <=? c) && (c <=? 57))%N.

(** A code point that UTF-8 can carry: not a surrogate half, at most
    U+10FFFF. *)
Definition scalar (c : N) : bool :=
  ((c <? 55296) || ((57344 <=? c) && (c <? 1114112)))%N.

Definition valid_text (s : pystr) : bool := forallb scalar s.

End Text.
Import Text.

(* ------------------------------------------------------------------ *)
(** ** Clock *)

Module Clock.

(** The fields of a [datetime] that the program formats (microseconds are
    never printed by the formats it uses). *)
Record datetime := mkDatetime {
  year : N; month : N; day : N; hour : N; minute : N; second : N
}.

(** The readings [datetime.now()] can produce on which every platform's
    [%Y] prints four digits. *)
Definition valid_datetime (d : datetime) : bool :=
  ((1000 <=? year d) && (year d <=? 9999) &&
   (1 <=? month d) && (month d <=? 12) &&
   (1 <=? day d) && (day d <=? 31) &&
   (hour d <=? 23) && (minute d <=? 59) && (second d <=? 59))%N.

Definition digit_char (d : N) : N := (48 + d)%N.

(** [%02d] on a value below 100. *)
Definition pad2 (n : N) : pystr :=
  [digit_char (n / 10 mod 10); digit_char (n mod 10)]%N.

(** [%04d] on a value below 10000. *)
Definition pad4 (n : N) : pystr :=
  [digit_char (n / 1000 mod 10); digit_char (n / 100 mod 10);
   digit_char (n / 10 mod 10); digit_char (n mod 10)]%N.

(** [d.strftime('%Y%m%d%H%M%S')] *)
Definition strftime_compact (d : datetime) : pystr :=
  pad4 (year d) ++ pad2 (month d) ++ pad2 (day d) ++
  pad2 (hour d) ++ pad2 (minute d) ++ pad2 (second d).

(** [d.isoformat()] for a value without microseconds. *)
Definition isoformat (d : datetime) : pystr :=
  pad4 (year d) ++ py "-" ++ pad2 (month d) ++ py "-" ++ pad2 (day d) ++
  py "T" ++ pad2 (hour d) ++ py ":" ++ pad2 (minute d) ++ py ":" ++
  pad2 (second d).

(** The number written [YYYYMMDDHHMMSS]. *)
Definition compact_number (d : datetime) : N :=
  (((((year d * 100 + month d) * 100 + day d) * 100 + hour d) * 100
    + minute d) * 100 + second d)%N.

(** The key [ORDER BY created_at] compares. *)
Definition sort_key (d : datetime) : N := compact_number d.

End Clock.
Import Clock.

(* ------------------------------------------------------------------ *)
(** ** Numbers *)

Module Numbers.

(** Decimal digits of a natural number, most significant first; [fuel]
    bounds the number of digits still to produce. *)
Fixpoint digits_fuel (fuel : nat) (n : N) (acc : list N) : list N :=
  match fuel with
  | O => n :: acc
  | S f => if (n <? 10)%N then n :: acc
           else digits_fuel f (n / 10)%N ((n mod 10)%N :: acc)
  end.

Definition digits_of_N (n : N) : list N :=
  digits_fuel (N.to_nat (N.size n)) n [].

(** The value of a digit string, read left to right. *)
Definition N_of_digits (l : list N) : N :=
  fold_left (fun acc d => (10 * acc + d)%N) l 0%N.

Definition chars (l : list N) : pystr := map digit_char l.

Definition zeros (k : nat) : list N := repeat 0%N k.

(** [str(z)] for a Python [int]. *)
Definition str_of_int (z : Z) : pystr :=
  (if (z <? 0)%Z then [45%N] else []) ++ chars (digits_of_N (Z.abs_N z)).

Fixpoint strip_leading_zeros (l : list N) : list N :=
  match l with
  | d :: r => if (d =? 0)%N then strip_leading_zeros r else l
  | [] => []
  end.

Definition strip_trailing_zeros (l : list N) : list N :=
  rev (strip_leading_zeros (rev l)).

(** A finite Python [float], identified with what the shortest-digits
    conversion behind [repr] yields for it: sign, significant digits and
    position of the decimal point ([0.d1 d2 ... dn * 10 ^ decpt]).  The
    conversion is injective on floats and [float(repr(x)) == x], so a float
    is determined by this triple.  Not-a-number and the infinities are not
    part of the model. *)
Record pyfloat := mkFloat {
  f_neg : bool;
  f_digits : list N;
  f_decpt : Z
}.

(** The triples the conversion produces: digits below ten, no leading and
    no trailing zero, and zero written as the single digit 0 at position 1. *)
Definition canonical_float (f : pyfloat) : bool :=
  forallb (fun d => (d <? 10)%N) (f_digits f) &&
  match f_digits f with
  | [] => false
  | d :: r =>
      if (d =? 0)%N then
        match r with [] => (f_decpt f =? 1)%Z | _ => false end
      else negb (last (d :: r) 0 =? 0)%N
  end.

(** Positional notation for the digits [ds] with the decimal point after
    [p] of them: zeros are added on the left or on the right as needed, and
    a value without fraction ends in [.0]. *)
Definition positional (ds : list N) (p : Z) : pystr :=
  let n := Z.of_nat (length ds) in
  if (p <=? 0)%Z then
    py "0." ++ chars (zeros (Z.to_nat (- p)) ++ ds)
  else if (n <=? p)%Z then
    chars (ds ++ zeros (Z.to_nat (p - n))) ++ py ".0"
  else
    chars (firstn (Z.to_nat p) ds) ++ [46%N] ++ chars (skipn (Z.to_nat p) ds).

(** The exponent of the scientific notation: a sign and at least two
    digits. *)
Definition exponent_text (e : Z) : pystr :=
  [101%N] ++ (if (e <? 0)%Z then [45%N] else [43%N]) ++
  chars ((if (Z.abs_N e <? 10)%N then [0%N] else []) ++ digits_of_N (Z.abs_N e)).

(** Scientific notation: one digit, the others after the point if there
    are any, and the exponent. *)
Definition scientific (ds : list N) (p : Z) : pystr :=
  chars (firstn 1 ds) ++
  match skipn 1 ds with [] => [] | r => 46%N :: chars r end ++
  exponent_text (p - 1).

(** [repr(x)] for a finite float: positional notation when
    [-4 < decpt <= 16], scientific notation otherwise. *)
Definition float_repr (f : pyfloat) : pystr :=
  (if f_neg f then [45%N] else []) ++
  if ((-4 <? f_decpt f) && (f_decpt f <=? 16))%Z
  then positional (f_digits f) (f_decpt f)
  else scientific (f_digits f) (f_decpt f).

(** [float(text)] for a literal with integer digits [ip], fraction digits
    [fp] and exponent [e]: the digits are kept exactly and brought to the
    canonical form.  This is what Python returns on every text [repr]
    produces; a literal with more digits than a float holds is rounded by
    Python and kept as it is here. *)
Definition float_of_literal (neg : bool) (ip fp : list N) (e : Z) : pyfloat :=
  let all := ip ++ fp in
  let h := strip_leading_zeros all in
  match strip_trailing_zeros h with
  | [] => mkFloat neg [0%N] 1
  | ds => mkFloat neg ds
            (Z.of_nat (length ip) + e - Z.of_nat (length all - length h))
  end.

(** The column type [DECIMAL(10, 2)]: the value in hundredths, rounded half
    away from zero; [None] when it does not fit ten digits (the store then
    rejects the statement). *)
Definition decimal_10_2 (f : pyfloat) : option Z :=
  let n := Z.of_nat (length (f_digits f)) in
  let m := Z.of_N (N_of_digits (f_digits f)) in
  let k := (f_decpt f + 2 - n)%Z in
  let h := if (0 <=? k)%Z then (m * 10 ^ k)%Z
           else ((2 * m + 10 ^ (- k)) / (2 * 10 ^ (- k)))%Z in
  if (h <=? 9999999999)%Z
  then Some (if f_neg f then (- h)%Z else h)
  else None.

(** [float(d)] for a [Decimal] read from a [DECIMAL(10, 2)] column holding
    [h] hundredths. *)
Definition float_of_hundredths (h : Z) : pyfloat :=
  let ds := digits_of_N (Z.abs_N h) in
  match strip_trailing_zeros ds with
  | [] => mkFloat false [0%N] 1
  | sig => mkFloat (h <? 0)%Z sig (Z.of_nat (length ds) - 2)
  end.

End Numbers.
Import Numbers.

(* ------------------------------------------------------------------ *)
(** ** Json *)

Module Json.

(** The values [json.dumps] receives and [json.loads] returns.  A [dict]
    keeps its keys in insertion order. *)
#[local] Unset Elimination Schemes.
Inductive json :=
| JNull
| JBool (b : bool)
| JInt (z : Z)
| JFloat (f : pyfloat)
| JStr (s : pystr)
| JList (l : list json)
| JDict (l : list (pystr * json)).
#[local] Set Elimination Schemes.

(** *** Encoder ([json.dumps] with its defaults: [ensure_ascii=True],
    separators [", "] and [": "]) *)

Definition hex_char (d : N) : N := (if d <? 10 then 48 + d else 87 + d)%N.

Definition hex4 (c : N) : pystr :=
  [hex_char (c / 4096 mod 16); hex_char (c / 256 mod 16);
   hex_char (c / 16 mod 16); hex_char (c mod 16)]%N.

Definition u_escape (c : N) : pystr := 92%N :: 117%N :: hex4 c.

(** The two halves of the surrogate pair for the offset [n] of a code point
    above U+FFFF. *)
Definition high_half (n : N) : N := N.lor 55296 (N.land (N.shiftr n 10) 1023).
Definition low_half (n : N) : N := N.lor 56320 (N.land n 1023).

(** The replacement of one code point: the two-character escapes, printable
    ASCII as it is, [\uXXXX] below U+10000, a surrogate pair above. *)
Definition escape_char (c : N) : pystr :=
  (if c =? 34 then [92; 34]
   else if c =? 92 then [92; 92]
   else if c =? 10 then [92; 110]
   else if c =? 13 then [92; 114]
   else if c =? 9 then [92; 116]
   else if c =? 8 then [92; 98]
   else if c =? 12 then [92; 102]
   else if (32 <=? c) && (c <=? 126) then [c]
   else if c <? 65536 then u_escape c
   else u_escape (high_half (c - 65536)) ++ u_escape (low_half (c - 65536)))%N.

Definition encode_basestring_ascii (s : pystr) : pystr :=
  34%N :: flat_map escape_char s ++ [34%N].

(** The items of a container, separated by [", "]. *)
Fixpoint joined (A : Type) (f : A -> pystr) (l : list A) : pystr :=
  match l with
  | [] => []
  | x :: r => f x ++ match r with [] => [] | _ :: _ => py ", " ++ joined f r end
  end.

Fixpoint dumps (v : json) : pystr :=
  match v with
  | JNull => py "null"
  | JBool true => py "true"
  | JBool false => py "false"
  | JInt z => str_of_int z
  | JFloat f => float_repr f
  | JStr s => encode_basestring_ascii s
  | JList l => 91%N :: joined dumps l ++ [93%N]
  | JDict l =>
      123%N ::
      joined (fun kv => encode_basestring_ascii (fst kv) ++ py ": "
                        ++ dumps (snd kv)) l
      ++ [125%N]
  end.

(** *** Decoder ([json.loads]) *)

Definition is_ws (c : N) : bool :=
  ((c =? 32) || (c =? 9) || (c =? 10) || (c =? 13))%N.

Fixpoint skip_ws (s : pystr) : pystr :=
  match s with
  | c :: r => if is_ws c then skip_ws r else s
  | [] => []
  end.

Definition hex_value (c : N) : option N :=
  (if is_digit c then Some (c - 48)
   else if (97 <=? c) && (c <=? 102) then Some (c - 87)
   else if (65 <=? c) && (c <=? 70) then Some (c - 55)
   else None)%N.

Definition decode_hex4 (a b c d : N) : option N :=
  match hex_value a, hex_value b, hex_value c, hex_value d with
  | Some x, Some y, Some z, Some w => Some (((x * 16 + y) * 16 + z) * 16 + w)%N
  | _, _, _, _ => None
  end.

Definition prepend (c : N) (res : option (pystr * pystr))
  : option (pystr * pystr) :=
  match res with
  | Some (s, rest) => Some (c :: s, rest)
  | None => None
  end.

Definition simple_escape (e : N) : option N :=
  (if e =? 34 then Some 34
   else if e =? 92 then Some 92
   else if e =? 47 then Some 47
   else if e =? 98 then Some 8
   else if e =? 102 then Some 12
   else if e =? 110 then Some 10
   else if e =? 114 then Some 13
   else if e =? 116 then Some 9
   else None)%N.

Definition is_high_surrogate (u : N) : bool := ((55296 <=? u) && (u <=? 56319))%N.
Definition is_low_surrogate (u : N) : bool := ((56320 <=? u) && (u <=? 57343))%N.

Definition join_surrogates (u1 u2 : N) : N :=
  (65536 + N.lor (N.shiftl (u1 - 55296) 10) (u2 - 56320))%N.

(** [scanstring] in strict mode, from the character after the opening
    quote: the decoded text and what follows the closing quote. *)
Fixpoint scanstring (s : pystr) : option (pystr * pystr) :=
  match s with
  | [] => None
  | c :: r =>
      if (c =? 34)%N then Some ([], r)
      else if (c =? 92)%N then
        match r with
        | [] => None
        | e :: r1 =>
            if (e =? 117)%N then
              match r1 with
              | a :: b :: c2 :: d :: r2 =>
                  match decode_hex4 a b c2 d with
                  | None => None
                  | Some u =>
                      if is_high_surrogate u then
                        match r2 with
                        | b1 :: b2 :: a' :: b' :: c' :: d' :: r3 =>
                            if ((b1 =? 92) && (b2 =? 117))%N then
                              match decode_hex4 a' b' c' d' with
                              | Some u2 =>
                                  if is_low_surrogate u2
                                  then prepend (join_surrogates u u2)
                                               (scanstring r3)
                                  else prepend u (scanstring r2)
                              | None => prepend u (scanstring r2)
                              end
                            else prepend u (scanstring r2)
                        | _ => prepend u (scanstring r2)
                        end
                      else prepend u (scanstring r2)
                  end
              | _ => None
              end
            else
              match simple_escape e with
              | Some x => prepend x (scanstring r1)
              | None => None
              end
        end
      else if (c <? 32)%N then None
      else prepend c (scanstring r)
  end.

Fixpoint scan_digits (s : pystr) : list N * pystr :=
  match s with
  | c :: r =>
      if is_digit c
      then let (ds, rest) := scan_digits r in ((c - 48)%N :: ds, rest)
      else ([], s)
  | [] => ([], [])
  end.

(** The optional group [[eE][-+]?\d+]; when it does not match, nothing is
    consumed. *)
Definition scan_exponent (s : pystr) : option Z * pystr :=
  match s with
  | c :: r =>
      if ((c =? 101) || (c =? 69))%N then
        let (eneg, r1) :=
          match r with
          | g :: r' => if (g =? 45)%N then (true, r')
                       else if (g =? 43)%N then (false, r') else (false, r)
          | [] => (false, r)
          end in
        match r1 with
        | d :: _ =>
            if is_digit d then
              let (ed, rest) := scan_digits r1 in
              let m := Z.of_N (N_of_digits ed) in
              (Some (if eneg then (- m)%Z else m), rest)
            else (None, s)
        | [] => (None, s)
        end
      else (None, s)
  | [] => (None, s)
  end.

(** The optional group [\.\d+]. *)
Definition scan_fraction (s : pystr) : option (list N) * pystr :=
  match s with
  | d :: r =>
      match r with
      | c :: _ =>
          if (d =? 46)%N && is_digit c
          then let (fd, rest) := scan_digits r in (Some fd, rest)
          else (None, s)
      | [] => (None, s)
      end
  | [] => (None, s)
  end.

(** The integer part of a number: the single digit 0, or a run of digits
    that starts with a non-zero digit. *)
Definition scan_integer_part (s : pystr) : option (list N * pystr) :=
  match s with
  | c :: r =>
      if is_digit c
      then Some (if (c =? 48)%N then ([0%N], r) else scan_digits s)
      else None
  | [] => None
  end.

(** A number is an [int] when it has neither fraction nor exponent, a
    [float] otherwise. *)
Definition number_value (neg : bool) (ip : list N) (fp : option (list N))
           (ex : option Z) : json :=
  match fp, ex with
  | None, None =>
      let m := Z.of_N (N_of_digits ip) in
      JInt (if neg then (- m)%Z else m)
  | _, _ =>
      JFloat (float_of_literal neg ip
                (match fp with Some l => l | None => [] end)
                (match ex with Some e => e | None => 0%Z end))
  end.

Definition scan_unsigned (neg : bool) (s : pystr) : option (json * pystr) :=
  match scan_integer_part s with
  | Some (ip, s2) =>
      let (fp, s3) := scan_fraction s2 in
      let (ex, s4) := scan_exponent s3 in
      Some (number_value neg ip fp ex, s4)
  | None => None
  end.

(** A number: an optional minus sign, the integer part, an optional
    fraction and an optional exponent. *)
Definition scan_number (s : pystr) : option (json * pystr) :=
  match s with
  | c :: r => if (c =? 45)%N then scan_unsigned true r else scan_unsigned false s
  | [] => None
  end.

Fixpoint strip_prefix (p s : pystr) : option pystr :=
  match p with
  | [] => Some s
  | x :: p' =>
      match s with
      | y :: s' => if (x =? y)%N then strip_prefix p' s' else None
      | [] => None
      end
  end.

(** [d[k] = v] on a [dict]: an existing key keeps its position. *)
Fixpoint dict_set (k : pystr) (v : json) (d : list (pystr * json))
  : list (pystr * json) :=
  match d with
  | [] => [(k, v)]
  | (k', v') :: r =>
      if str_eqb k' k then (k', v) :: r else (k', v') :: dict_set k v r
  end.

(** [dict(pairs)] *)
Definition dict_of_pairs (l : list (pystr * json)) : list (pystr * json) :=
  fold_left (fun d kv => dict_set (fst kv) (snd kv) d) l [].

Section Containers.

(** The scanner for one value, used for the items of a container. *)
Variable scan : pystr -> option (json * pystr).

(** After an item of an array: [']'] ends it, [','] announces one more. *)
Fixpoint scan_array_rest (n : nat) (s : pystr)
  : option (list json * pystr) :=
  match n with
  | O => None
  | S n' =>
      match skip_ws s with
      | c :: r =>
          if (c =? 93)%N then Some ([], r)
          else if (c =? 44)%N then
            match scan (skip_ws r) with
            | Some (v, s') =>
                match scan_array_rest n' s' with
                | Some (vs, rest) => Some (v :: vs, rest)
                | None => None
                end
            | None => None
            end
          else None
      | [] => None
      end
  end.

(** [JSONArray], from the character after ['[']. *)
Definition scan_array (s : pystr) : option (json * pystr) :=
  match skip_ws s with
  | c :: r =>
      if (c =? 93)%N then Some (JList [], r)
      else
        match scan (c :: r) with
        | Some (v, s') =>
            match scan_array_rest (length s') s' with
            | Some (vs, rest) => Some (JList (v :: vs), rest)
            | None => None
            end
        | None => None
        end
  | [] => None
  end.

(** One [key: value] member, from the opening quote of the key. *)
Definition scan_member (s : pystr) : option ((pystr * json) * pystr) :=
  match s with
  | q :: r =>
      if (q =? 34)%N then
        match scanstring r with
        | Some (k, s1) =>
            match skip_ws s1 with
            | c :: s2 =>
                if (c =? 58)%N then
                  match scan (skip_ws s2) with
                  | Some (v, s3) => Some ((k, v), s3)
                  | None => None
                  end
                else None
            | [] => None
            end
        | None => None
        end
      else None
  | [] => None
  end.

Fixpoint scan_object_rest (n : nat) (s : pystr)
  : option (list (pystr * json) * pystr) :=
  match n with
  | O => None
  | S n' =>
      match skip_ws s with
      | c :: r =>
          if (c =? 125)%N then Some ([], r)
          else if (c =? 44)%N then
            match scan_member (skip_ws r) with
            | Some (kv, s') =>
                match scan_object_rest n' s' with
                | Some (kvs, rest) => Some (kv :: kvs, rest)
                | None => None
                end
            | None => None
            end
          else None
      | [] => None
      end
  end.

(** [JSONObject], from the character after ['{']. *)
Definition scan_object (s : pystr) : option (json * pystr) :=
  match skip_ws s with
  | c :: r =>
      if (c =? 125)%N then Some (JDict [], r)
      else
        match scan_member (c :: r) with
        | Some (kv, s') =>
            match scan_object_rest (length s') s' with
            | Some (kvs, rest) => Some (JDict (dict_of_pairs (kv :: kvs)), rest)
            | None => None
            end
        | None => None
        end
  | [] => None
  end.

End Containers.

(** [scan_once]: one value at the head of [s]; [fuel] bounds the nesting.
    The constants [NaN], [Infinity] and [-Infinity], which Python reads as
    floats that are not finite, are not read. *)
Fixpoint scan_once (fuel : nat) (s : pystr) : option (json * pystr) :=
  match fuel with
  | O => None
  | S f =>
      match s with
      | [] => None
      | c :: r =>
          if (c =? 34)%N then
            match scanstring r with
            | Some (t, rest) => Some (JStr t, rest)
            | None => None
            end
          else if (c =? 123)%N then scan_object (scan_once f) r
          else if (c =? 91)%N then scan_array (scan_once f) r
          else
            match strip_prefix (py "null") s with
            | Some rest => Some (JNull, rest)
            | None =>
            match strip_prefix (py "true") s with
            | Some rest => Some (JBool true, rest)
            | None =>
            match strip_prefix (py "false") s with
            | Some rest => Some (JBool false, rest)
            | None => scan_number s
            end end end
      end
  end.

(** [json.loads(s)]; [None] stands for [JSONDecodeError]. *)
Definition loads (s : pystr) : option json :=
  match scan_once (S (length s)) (skip_ws s) with
  | Some (v, rest) =>
      match skip_ws rest with
      | [] => Some v
      | _ :: _ => None
      end
  | None => None
  end.

(** The values on which decoding undoes encoding: text made of scalar
    values, canonical floats, and dicts whose keys are pairwise distinct (as
    the keys of a Python [dict] are). *)
Fixpoint distinct_keys (l : list pystr) : bool :=
  match l with
  | [] => true
  | k :: r => negb (existsb (str_eqb k) r) && distinct_keys r
  end.

Fixpoint wf_json (v : json) : bool :=
  match v with
  | JNull | JBool _ | JInt _ => true
  | JFloat f => canonical_float f
  | JStr s => valid_text s
  | JList l => forallb wf_json l
  | JDict l =>
      forallb (fun kv => valid_text (fst kv) && wf_json (snd kv)) l
      && distinct_keys (map fst l)
  end.

End Json.
Import Json.

(* ------------------------------------------------------------------ *)
(** ** Store: the tables [init_db] declares and the five statements the
    handlers send

    The server is taken in its default configuration: a transactional
    engine, and the strict SQL mode, in which a value that is too long or
    out of range is refused instead of being cut. *)

Module Store.

(** A row of [users].  [address] is [LONGTEXT] and may be [NULL]. *)
Record UserRow := mkUser {
  u_id : Z;
  u_name : pystr;
  u_email : pystr;
  u_password : pystr;
  u_address : option pystr;
  u_created_at : datetime
}.

(** A row of [orders].  [user_id] may be [NULL]; [total] is
    [DECIMAL(10, 2)], kept in hundredths.  The other columns are written by
    one statement only, which always supplies a value. *)
Record OrderRow := mkOrder {
  o_id : pystr;
  o_user_id : option Z;
  o_total : Z;
  o_status : pystr;
  o_items : pystr;
  o_address : pystr;
  o_created_at : datetime
}.

Record Tables := mkTables {
  users : list UserRow;
  orders : list OrderRow
}.

(** A [mysql.connector.Error]: its number, and the text [str(err)] gives. *)
Record mysql_error := mkError { errno : Z; msg : pystr }.

(** [errorcode.ER_DUP_ENTRY] and the other server errors of the model. *)
Definition ER_DUP_ENTRY : Z := 1062.
Definition ER_NO_REFERENCED_ROW_2 : Z := 1452.
Definition ER_WARN_DATA_OUT_OF_RANGE : Z := 1264.
Definition ER_DATA_TOO_LONG : Z := 1406.

Inductive statement :=
| InsertUser (name email password : pystr)
| SelectUserByEmail (email : pystr)
| InsertOrder (id : pystr) (user_id : option Z) (total : pyfloat)
              (status items address : pystr)
| UpdateUserAddress (address : pystr) (id : Z)
| SelectOrdersByUser (user_id : Z).

(** What a cursor holds after [execute]. *)
Inductive rows :=
| NoRows
| UserRows (l : list UserRow)
| OrderRows (l : list OrderRow).

Section Engine.

(** The collation of the text columns, as the key it compares: two texts
    are equal for the store when their keys are. *)
Variable collation : pystr -> pystr.

(** [CURRENT_TIMESTAMP] *)
Variable current_timestamp : datetime.

Definition same_text (a b : pystr) : bool :=
  str_eqb (collation a) (collation b).

Definition fits (n : nat) (s : pystr) : bool := Nat.leb (length s) n.

Definition has_user (id : Z) (t : Tables) : bool :=
  existsb (fun u => (u_id u =? id)%Z) (users t).

Definition references_user (user_id : option Z) (t : Tables) : bool :=
  match user_id with
  | None => true
  | Some id => has_user id t
  end.

(** [INSERT INTO users (name, email, password)]: [email] is [UNIQUE], the
    three columns are [VARCHAR(255)]. *)
Definition insert_user (next_id : Z) (name email password : pystr)
           (t : Tables) : mysql_error + Tables :=
  if negb (fits 255 name && fits 255 email && fits 255 password)
  then inl (mkError ER_DATA_TOO_LONG (py "Data too long for column"))
  else if existsb (fun u => same_text (u_email u) email) (users t)
  then inl (mkError ER_DUP_ENTRY (py "Duplicate entry for key 'email'"))
  else inr (mkTables
              (users t ++ [mkUser next_id name email password None
                                  current_timestamp])
              (orders t)).

(** [INSERT INTO orders (id, user_id, total, status, items, address)]:
    [id] is the primary key, [user_id] references [users(id)]. *)
Definition insert_order (id : pystr) (user_id : option Z) (total : pyfloat)
           (status items address : pystr) (t : Tables)
  : mysql_error + Tables :=
  if negb (fits 50 id && fits 50 status)
  then inl (mkError ER_DATA_TOO_LONG (py "Data too long for column"))
  else
    match decimal_10_2 total with
    | None =>
        inl (mkError ER_WARN_DATA_OUT_OF_RANGE
                     (py "Out of range value for column 'total'"))
    | Some cents =>
        if existsb (fun o => same_text (o_id o) id) (orders t)
        then inl (mkError ER_DUP_ENTRY (py "Duplicate entry for key 'PRIMARY'"))
        else if negb (references_user user_id t)
        then inl (mkError ER_NO_REFERENCED_ROW_2
                          (py "Cannot add or update a child row"))
        else inr (mkTables
                    (users t)
                    (orders t ++ [mkOrder id user_id cents status items
                                          address current_timestamp]))
    end.

Definition set_address (address : pystr) (id : Z) (u : UserRow) : UserRow :=
  if (u_id u =? id)%Z
  then mkUser (u_id u) (u_name u) (u_email u) (u_password u) (Some address)
              (u_created_at u)
  else u.

(** [UPDATE users SET address = %s WHERE id = %s] *)
Definition update_address (address : pystr) (id : Z) (t : Tables) : Tables :=
  mkTables (map (set_address address id) (users t)) (orders t).

Fixpoint insert_desc (r : OrderRow) (l : list OrderRow) : list OrderRow :=
  match l with
  | [] => [r]
  | x :: l' =>
      if (sort_key (o_created_at x) <=? sort_key (o_created_at r))%N
      then r :: l
      else x :: insert_desc r l'
  end.

(** [ORDER BY created_at DESC] *)
Definition order_by_created_at_desc (l : list OrderRow) : list OrderRow :=
  fold_right insert_desc [] l.

Definition owned_by (user_id : Z) (o : OrderRow) : bool :=
  match o_user_id o with
  | Some id => (id =? user_id)%Z
  | None => false
  end.

(** The effect of one statement on the rows a connection sees: an error,
    or the new rows and the result set. *)
Definition run_statement (next_id : Z) (st : statement) (t : Tables)
  : mysql_error + (Tables * rows) :=
  match st with
  | InsertUser name email password =>
      match insert_user next_id name email password t with
      | inl e => inl e
      | inr t' => inr (t', NoRows)
      end
  | SelectUserByEmail email =>
      inr (t, UserRows (filter (fun u => same_text (u_email u) email)
                               (users t)))
  | InsertOrder id user_id total status items address =>
      match insert_order id user_id total status items address t with
      | inl e => inl e
      | inr t' => inr (t', NoRows)
      end
  | UpdateUserAddress address id =>
      inr (update_address address id t, NoRows)
  | SelectOrdersByUser user_id =>
      inr (t, OrderRows (order_by_created_at_desc
                           (filter (owned_by user_id) (orders t))))
  end.

End Engine.

Definition is_insert_user (st : statement) : bool :=
  match st with InsertUser _ _ _ => true | _ => false end.

Definition is_update_address (st : statement) : bool :=
  match st with UpdateUserAddress _ _ => true | _ => false end.

End Store.
Import Store.

(* ------------------------------------------------------------------ *)
(** ** Runtime: exceptions, the state around a request, the driver *)

Module Runtime.

(** The exceptions the handlers can meet.  [SMTPException] stands for
    whatever [smtplib] raises. *)
Inductive exn :=
| MySQLError (e : mysql_error)
| HTTPException (status_code : Z) (detail : pystr)
| JSONDecodeError
| OverflowError
| SMTPException.

Inductive result (A : Type) :=
| Return (a : A)
| Raise (e : exn).
Arguments Return {A} a.
Arguments Raise {A} e.

(** What is fixed while one request is handled: the collation of the
    store, the environment variables and the two clocks. *)
Record Config := mkConfig {
  collation : pystr -> pystr;
  environ : list (pystr * pystr);
  wall_clock : datetime;
  server_clock : datetime
}.

(** The store and the driver.  [tables] are the committed rows;
    [auto_increment] is the next [users.id] (it is not transactional);
    [statement_log] lists the statements passed to [execute], oldest first;
    [db_faults] are the answers of the driver to the coming calls of
    [connect], [execute] and [commit], in order: [Some e] makes the call
    raise [e], and past the end of the list no call fails. *)
Record Database := mkDatabase {
  tables : Tables;
  auto_increment : Z;
  open_connections : nat;
  statement_log : list statement;
  db_faults : list (option mysql_error)
}.

Record message := mkMessage {
  m_from : pystr;
  m_to : pystr;
  m_subject : pystr
}.

(** The lines [print] writes. *)
Inductive log_line :=
| LogSkipped (order_id : pystr)
| LogSent (order_id : pystr)
| LogFailed.

(** The mail relay seen from the process: [smtp_faults] tells for each
    coming call into [smtplib] whether it raises; [outbox] holds the
    messages the relay accepted. *)
Record Mailer := mkMailer {
  smtp_faults : list bool;
  outbox : list message;
  stdout : list log_line
}.

Record World := mkWorld {
  db : Database;
  mailer : Mailer
}.

(** A computation that may raise and that acts on the world. *)
Definition M (A : Type) : Type := World -> result A * World.

Definition ret (A : Type) (a : A) : M A := fun w => (Return a, w).

Definition raise (A : Type) (e : exn) : M A := fun w => (Raise e, w).
Arguments raise {A} e.

Definition bind (A B : Type) (m : M A) (k : A -> M B) : M B :=
  fun w =>
    match m w with
    | (Return a, w') => k a w'
    | (Raise e, w') => (Raise e, w')
    end.

(** [try: body / except mysql.connector.Error as err: handler] *)
Definition try_except_mysql (A : Type) (body : M A)
           (handler : mysql_error -> M A) : M A :=
  fun w =>
    match body w with
    | (Raise (MySQLError err), w') => handler err w'
    | other => other
    end.

(** [try: body / except Exception as e: handler] *)
Definition try_except (A : Type) (body : M A) (handler : exn -> M A) : M A :=
  fun w =>
    match body w with
    | (Raise e, w') => handler e w'
    | other => other
    end.

(** [try: body / finally: cleanup] *)
Definition try_finally (A : Type) (body : M A) (cleanup : M unit) : M A :=
  fun w =>
    match body w with
    | (r, w') =>
        match cleanup w' with
        | (Return _, w'') => (r, w'')
        | (Raise e, w'') => (Raise e, w'')
        end
    end.

(** What a connection holds: the rows its open transaction sees, and the
    state of its cursor. *)
Record Conn := mkConn {
  pending : Tables;
  cursor_rows : rows;
  lastrowid : Z
}.

Definition next_fault (A : Type) (fs : list (option A)) : option A * list (option A) :=
  match fs with
  | [] => (None, [])
  | f :: r => (f, r)
  end.

Definition with_db (f : Database -> Database) (w : World) : World :=
  mkWorld (f (db w)) (mailer w).

Definition with_mailer (f : Mailer -> Mailer) (w : World) : World :=
  mkWorld (db w) (f (mailer w)).

Definition set_faults (fs : list (option mysql_error)) (d : Database) : Database :=
  mkDatabase (tables d) (auto_increment d) (open_connections d)
             (statement_log d) fs.

Definition set_tables (t : Tables) (d : Database) : Database :=
  mkDatabase t (auto_increment d) (open_connections d) (statement_log d)
             (db_faults d).

Definition set_auto_increment (n : Z) (d : Database) : Database :=
  mkDatabase (tables d) n (open_connections d) (statement_log d) (db_faults d).

Definition set_open_connections (n : nat) (d : Database) : Database :=
  mkDatabase (tables d) (auto_increment d) n (statement_log d) (db_faults d).

Definition log_statement (st : statement) (d : Database) : Database :=
  mkDatabase (tables d) (auto_increment d) (open_connections d)
             (statement_log d ++ [st]) (db_faults d).

(** [mysql.connector.connect] with [DB_CONFIG]: the transaction of the new
    connection starts from the committed rows (the driver leaves autocommit
    off).  [conn.cursor()] only builds the cursor object; the state of the
    cursor is kept with the connection. *)
Definition get_db_connection : M Conn :=
  fun w =>
    match next_fault (db_faults (db w)) with
    | (Some e, fs) => (Raise (MySQLError e), with_db (set_faults fs) w)
    | (None, fs) =>
        (Return (mkConn (tables (db w)) NoRows 0),
         with_db (fun d => set_open_connections (S (open_connections d))
                             (set_faults fs d)) w)
    end.

(** An [INSERT INTO users] takes the next id when it stores a row and when
    it meets a duplicate key. *)
Definition takes_id (st : statement) (failure : option mysql_error) : bool :=
  is_insert_user st &&
  match failure with
  | None => true
  | Some e => (errno e =? ER_DUP_ENTRY)%Z
  end.

(** [cursor.execute(st)] on a cursor of connection [c].  The statement acts
    on the rows of the transaction only. *)
Definition cursor_execute (cfg : Config) (c : Conn) (st : statement) : M Conn :=
  fun w =>
    let w1 := with_db (log_statement st) w in
    match next_fault (db_faults (db w1)) with
    | (Some e, fs) => (Raise (MySQLError e), with_db (set_faults fs) w1)
    | (None, fs) =>
        let w2 := with_db (set_faults fs) w1 in
        let id := auto_increment (db w2) in
        match run_statement (collation cfg) (server_clock cfg) id st
                            (pending c) with
        | inl e =>
            (Raise (MySQLError e),
             if takes_id st (Some e)
             then with_db (set_auto_increment (id + 1)) w2 else w2)
        | inr (t, rs) =>
            (Return (mkConn t rs (if is_insert_user st then id else lastrowid c)),
             if takes_id st None
             then with_db (set_auto_increment (id + 1)) w2 else w2)
        end
    end.

(** [conn.commit()]: the rows of the transaction become the committed
    rows. *)
Definition conn_commit (c : Conn) : M unit :=
  fun w =>
    match next_fault (db_faults (db w)) with
    | (Some e, fs) => (Raise (MySQLError e), with_db (set_faults fs) w)
    | (None, fs) =>
        (Return tt, with_db (fun d => set_tables (pending c) (set_faults fs d)) w)
    end.

(** [conn.close()]: what was not committed is dropped with the
    connection. *)
Definition conn_close (c : Conn) : M unit :=
  fun w =>
    (Return tt,
     with_db (fun d => set_open_connections (Nat.pred (open_connections d)) d) w).

(** [cursor.fetchone()] and [cursor.fetchall()] of a [dictionary=True]
    cursor. *)
Definition fetchone_user (c : Conn) : option UserRow :=
  match cursor_rows c with
  | UserRows (r :: _) => Some r
  | _ => None
  end.

Definition fetchall_orders (c : Conn) : list OrderRow :=
  match cursor_rows c with
  | OrderRows l => l
  | _ => []
  end.

(** [os.getenv(name, default)] *)
Fixpoint lookup_env (name : pystr) (env : list (pystr * pystr)) : option pystr :=
  match env with
  | [] => None
  | (k, v) :: r => if str_eqb k name then Some v else lookup_env name r
  end.

Definition getenv (cfg : Config) (name default : pystr) : pystr :=
  match lookup_env name (environ cfg) with
  | Some v => v
  | None => default
  end.

(** [json.loads] as a computation: a decoding error is raised. *)
Definition json_loads (s : pystr) : M json :=
  match loads s with
  | Some v => ret v
  | None => raise JSONDecodeError
  end.

(** The status the client receives: the code of an [HTTPException], and
    500 for any other exception that leaves a handler. *)
Definition status_of (A : Type) (r : result A) : Z :=
  match r with
  | Return _ => 200
  | Raise (HTTPException code _) => code
  | Raise _ => 500
  end.

End Runtime.
Import Runtime.

Declare Scope py_scope.
Delimit Scope py_scope with py.
Notation "x <- m ;; k" := (bind m (fun x => k))
  (at level 61, m at next level, right associativity) : py_scope.
Notation "m ;; k" := (bind m (fun _ => k))
  (at level 61, right associativity) : py_scope.
Open Scope py_scope.

(* ------------------------------------------------------------------ *)
(** ** The request models *)

Module UserSignup.
Record t := mk { name : pystr; email : pystr; password : pystr }.
End UserSignup.

Module UserLogin.
Record t := mk { email : pystr; password : pystr }.
End UserLogin.

Module AddressUpdate.
Record t := mk { user_id : Z; addresses : list json }.
End AddressUpdate.

Module Address.
Record t := mk {
  fullname : pystr; street : pystr; city : pystr; zip : pystr; phone : pystr
}.

(** [address.dict()] *)
Definition dict (a : t) : json :=
  JDict [(py "fullname", JStr (fullname a)); (py "street", JStr (street a));
         (py "city", JStr (city a)); (py "zip", JStr (zip a));
         (py "phone", JStr (phone a))].

Definition valid (a : t) : bool :=
  valid_text (fullname a) && valid_text (street a) && valid_text (city a)
  && valid_text (zip a) && valid_text (phone a).
End Address.

Module OrderItem.
Record t := mk { title : pystr; price : pyfloat; img : pystr; quantity : Z }.

(** [item.dict()] *)
Definition dict (i : t) : json :=
  JDict [(py "title", JStr (title i)); (py "price", JFloat (price i));
         (py "img", JStr (img i)); (py "quantity", JInt (quantity i))].

Definition valid (i : t) : bool :=
  valid_text (title i) && canonical_float (price i) && valid_text (img i).
End OrderItem.

Module OrderCreate.
Record t := mk {
  user_id : option Z;
  items : list OrderItem.t;
  total : pyfloat;
  address : Address.t
}.

(** The requests whose texts are Unicode text and whose prices are
    finite floats. *)
Definition valid (o : t) : bool :=
  forallb OrderItem.valid (items o) && Address.valid (address o).
End OrderCreate.

(* ------------------------------------------------------------------ *)
(** ** Notifier *)

Module Notifier.

(** One call into [smtplib]. *)
Definition smtp_call : M unit :=
  fun w =>
    match smtp_faults (mailer w) with
    | [] => (Return tt, w)
    | f :: r =>
        (if f then Raise SMTPException else Return tt,
         with_mailer (fun m => mkMailer r (outbox m) (stdout m)) w)
    end.

(** [server.send_message(msg)]: the relay takes the message unless the
    call raises. *)
Definition send_message (msg : message) : M unit :=
  smtp_call ;;
  fun w =>
    (Return tt,
     with_mailer (fun m => mkMailer (smtp_faults m) (outbox m ++ [msg])
                                    (stdout m)) w).

Definition print (l : log_line) : M unit :=
  fun w =>
    (Return tt,
     with_mailer (fun m => mkMailer (smtp_faults m) (outbox m)
                                    (stdout m ++ [l])) w).

(** [float(n)] raises [OverflowError] when the nearest float is not
    finite. *)
Definition int_fits_float (n : Z) : bool :=
  (Z.abs n <? 2 ^ 1024 - 2 ^ 970)%Z.

(** The loop that builds [items_list].  Its text is part of the body of the
    message, which the model does not keep; what the model keeps is that
    [item['price'] * item['quantity']] converts the quantity to a float. *)
Fixpoint format_items (items : list OrderItem.t) : M unit :=
  match items with
  | [] => ret tt
  | i :: r =>
      if int_fits_float (OrderItem.quantity i) then format_items r
      else raise OverflowError
  end.

Definition send_order_notification (cfg : Config) (order_id : pystr)
           (total : pyfloat) (items : list OrderItem.t) (address : Address.t)
  : M unit :=
  let sender_email :=
    getenv cfg (py "SENDER_EMAIL") (py "jayakumarkathiraven@gmail.com") in
  let sender_password := getenv cfg (py "SENDER_PASSWORD") [] in
  let receiver_email :=
    getenv cfg (py "RECEIVER_EMAIL") (py "jayakumarkathiraven@gmail.com") in
  if negb (str_truthy sender_password) then
    print (LogSkipped order_id)
  else
    let subject := py "NEW ORDER CONFIRMED - #" ++ order_id in
    format_items items ;;
    try_except
      (smtp_call ;;                                   (* smtplib.SMTP(...) *)
       smtp_call ;;                                   (* server.starttls() *)
       smtp_call ;;                                   (* server.login(...) *)
       send_message (mkMessage sender_email receiver_email subject) ;;
       smtp_call ;;                                   (* server.quit() *)
       print (LogSent order_id))
      (fun _ => print LogFailed).

End Notifier.
Import Notifier.

(* ------------------------------------------------------------------ *)
(** ** Api: the request handlers *)

Module Api.

(** [POST /api/signup] *)
Definition signup (cfg : Config) (user : UserSignup.t) : M json :=
  conn <- get_db_connection ;;
  try_finally
    (try_except_mysql
       (c <- cursor_execute cfg conn
               (InsertUser (UserSignup.name user) (UserSignup.email user)
                           (UserSignup.password user)) ;;
        conn_commit c ;;
        let user_id := lastrowid c in
        ret (JDict [(py "id", JInt user_id);
                    (py "name", JStr (UserSignup.name user));
                    (py "email", JStr (UserSignup.email user));
                    (py "message", JStr (py "User created successfully"))]))
       (fun err =>
          if (errno err =? ER_DUP_ENTRY)%Z
          then raise (HTTPException 400 (py "Email already registered"))
          else raise (HTTPException 500 (msg err))))
    (conn_close conn).

(** [POST /api/login] *)
Definition login (cfg : Config) (user : UserLogin.t) : M json :=
  conn <- get_db_connection ;;
  c <- cursor_execute cfg conn (SelectUserByEmail (UserLogin.email user)) ;;
  let row := fetchone_user c in
  conn_close conn ;;
  match row with
  | Some r =>
      if str_eqb (u_password r) (UserLogin.password user) then
        address_data <-
          match u_address r with
          | Some a => if str_truthy a then json_loads a else ret JNull
          | None => ret JNull
          end ;;
        ret (JDict [(py "id", JInt (u_id r));
                    (py "name", JStr (u_name r));
                    (py "email", JStr (u_email r));
                    (py "address", address_data);
                    (py "isLoggedIn", JBool true)])
      else raise (HTTPException 401 (py "Invalid credentials"))
  | None => raise (HTTPException 401 (py "Invalid credentials"))
  end.

(** The order id: the literal [ORD] and the clock formatted with
    [%Y%m%d%H%M%S]. *)
Definition new_order_id (cfg : Config) : pystr :=
  py "ORD" ++ strftime_compact (wall_clock cfg).

(** Truthiness of an [int], and of an [Optional[int]]: [None] and 0 are
    falsy. *)
Definition int_truthy (n : Z) : bool := negb (n =? 0)%Z.

Definition truthy_id (user_id : option Z) : bool :=
  match user_id with
  | Some id => int_truthy id
  | None => false
  end.

(** [POST /api/orders] *)
Definition create_order (cfg : Config) (order : OrderCreate.t) : M json :=
  let order_id := new_order_id cfg in
  conn <- get_db_connection ;;
  try_finally
    (try_except_mysql
       (let items_json :=
          dumps (JList (map OrderItem.dict (OrderCreate.items order))) in
        let address_json := dumps (Address.dict (OrderCreate.address order)) in
        c1 <- cursor_execute cfg conn
                (InsertOrder order_id (OrderCreate.user_id order)
                             (OrderCreate.total order) (py "Delivered")
                             items_json address_json) ;;
        c2 <- match OrderCreate.user_id order with
              | Some id =>
                  if int_truthy id
                  then cursor_execute cfg c1 (UpdateUserAddress address_json id)
                  else ret c1
              | None => ret c1
              end ;;
        conn_commit c2 ;;
        send_order_notification cfg order_id (OrderCreate.total order)
                                (OrderCreate.items order)
                                (OrderCreate.address order) ;;
        ret (JDict [(py "id", JStr order_id);
                    (py "message", JStr (py "Order placed successfully"))]))
       (fun err => raise (HTTPException 500 (msg err))))
    (conn_close conn).

(** One entry of the listing. *)
Definition order_entry (row : OrderRow) : M json :=
  items <- json_loads (o_items row) ;;
  address <- json_loads (o_address row) ;;
  ret (JDict [(py "id", JStr (o_id row));
              (py "total", JFloat (float_of_hundredths (o_total row)));
              (py "status", JStr (o_status row));
              (py "items", items);
              (py "address", address);
              (py "date", JStr (isoformat (o_created_at row)))]).

Fixpoint order_entries (l : list OrderRow) : M (list json) :=
  match l with
  | [] => ret []
  | row :: r =>
      e <- order_entry row ;;
      es <- order_entries r ;;
      ret (e :: es)
  end.

(** [GET /api/orders/{user_id}] *)
Definition get_user_orders (cfg : Config) (user_id : Z) : M json :=
  conn <- get_db_connection ;;
  c <- cursor_execute cfg conn (SelectOrdersByUser user_id) ;;
  let rows := fetchall_orders c in
  conn_close conn ;;
  orders <- order_entries rows ;;
  ret (JList orders).

(** [POST /api/user/address] *)
Definition update_user_address (cfg : Config) (data : AddressUpdate.t) : M json :=
  conn <- get_db_connection ;;
  try_finally
    (try_except_mysql
       (let address_json := dumps (JList (AddressUpdate.addresses data)) in
        c <- cursor_execute cfg conn
               (UpdateUserAddress address_json (AddressUpdate.user_id data)) ;;
        conn_commit c ;;
        ret (JDict [(py "message", JStr (py "Addresses updated successfully"))]))
       (fun err => raise (HTTPException 500 (msg err))))
    (conn_close conn).

End Api.
Import Api.

(* ------------------------------------------------------------------ *)
(** ** The vocabulary of the statements *)

Definition digit_list (l : list N) : Prop := Forall (fun d => (d < 10)%N) l.

(** What follows a value inside an encoded document: nothing, a comma or a
    closing bracket. *)
Definition delimited (rest : pystr) : bool :=
  match rest with
  | [] => true
  | c :: _ => ((c =? 44) || (c =? 93) || (c =? 125))%N
  end.

Definition no_digit (rest : pystr) : bool :=
  match rest with
  | [] => true
  | c :: _ => negb (is_digit c)
  end.

(** The digit strings an integer part can be: the digit 0 alone, or digits
    with a non-zero head. *)
Definition integer_digits (l : list N) : Prop :=
  digit_list l /\
  match l with
  | [] => False
  | d :: r => d <> 0%N \/ r = []
  end.

(** The digits of a canonical float other than zero. *)
Definition significant (ds : list N) : Prop :=
  digit_list ds /\ exists d r, ds = d :: r /\ d <> 0%N /\ last ds 0%N <> 0%N.

(** The first character of an encoded value is neither white space nor a
    closing bracket. *)
Definition starts_value (text : pystr) : Prop :=
  exists c t, text = c :: t /\ is_ws c = false /\ (c =? 93)%N = false.

(** The first character of an encoded number. *)
Definition number_head (c : N) : Prop := c = 45%N \/ is_digit c = true.

(** The text that follows the first item of a container. *)
Definition tail_text (A : Type) (f : A -> pystr) (l : list A) : pystr :=
  match l with
  | [] => []
  | _ :: _ => py ", " ++ joined f l
  end.

(** The values [scan] reads back, whatever delimiter follows them. *)
Definition reads (scan : pystr -> option (json * pystr)) (v : json) : Prop :=
  (forall rest, starts_value (dumps v ++ rest)) /\
  (forall rest, delimited rest = true ->
                scan (dumps v ++ rest) = Some (v, rest)).

(** The text of one member of an encoded [dict]. *)
Definition member_text (kv : pystr * json) : pystr :=
  encode_basestring_ascii (fst kv) ++ py ": " ++ dumps (snd kv).

Definition reads_member (scan : pystr -> option (json * pystr))
           (kv : pystr * json) : Prop :=
  valid_text (fst kv) = true /\ reads scan (snd kv).

(** The next [n] calls of the driver do not fail. *)
Fixpoint quiet (n : nat) (fs : list (option mysql_error)) : bool :=
  match n, fs with
  | O, _ => true
  | S _, [] => true
  | S n', None :: r => quiet n' r
  | S _, Some _ :: _ => false
  end.

(** The quantities of an order all convert to a float. *)
Definition quantities_fit (items : list OrderItem.t) : bool :=
  forallb (fun i => int_fits_float (OrderItem.quantity i)) items.

(** No credential is configured for the sending mailbox. *)
Definition no_credential (cfg : Config) : bool :=
  negb (str_truthy (getenv cfg (py "SENDER_PASSWORD") [])).

(** The row of [orders] that the statement stores when the total is
    [cents] hundredths. *)
Definition order_row (cfg : Config) (order : OrderCreate.t) (cents : Z) : OrderRow :=
  mkOrder (new_order_id cfg) (OrderCreate.user_id order) cents (py "Delivered")
          (dumps (JList (map OrderItem.dict (OrderCreate.items order))))
          (dumps (Address.dict (OrderCreate.address order)))
          (server_clock cfg).

(** The store takes the order row: the id is new, the total fits the
    column and the owning user, if any, exists. *)
Definition store_accepts (cfg : Config) (order : OrderCreate.t) (t : Tables) : bool :=
  match insert_order (collation cfg) (server_clock cfg) (new_order_id cfg)
          (OrderCreate.user_id order) (OrderCreate.total order)
          (py "Delivered")
          (dumps (JList (map OrderItem.dict (OrderCreate.items order))))
          (dumps (Address.dict (OrderCreate.address order))) t with
  | inr _ => true
  | inl _ => false
  end.

(** What a successful placement answers. *)
Definition order_placed (cfg : Config) : json :=
  JDict [(py "id", JStr (new_order_id cfg));
         (py "message", JStr (py "Order placed successfully"))].

(** The row [signup] stores. *)
Definition user_row (cfg : Config) (id : Z) (user : UserSignup.t) : UserRow :=
  mkUser id (UserSignup.name user) (UserSignup.email user)
         (UserSignup.password user) None (server_clock cfg).

(** The stored users whose email the store takes for [email]. *)
Definition users_with_email (cfg : Config) (email : pystr) (t : Tables)
  : list UserRow :=
  filter (fun u => same_text (collation cfg) (u_email u) email) (users t).

(** The driver itself reported a duplicate key, or the email is stored. *)
Definition duplicate_reported (cfg : Config) (email : pystr) (w : World) : Prop :=
  users_with_email cfg email (tables (db w)) <> [] \/
  exists e, In (Some e) (db_faults (db w)) /\ errno e = ER_DUP_ENTRY.

(** The entry of the listing for a row whose texts decode to [items] and
    [address]. *)
Definition listed (row : OrderRow) (items address : json) : json :=
  JDict [(py "id", JStr (o_id row));
         (py "total", JFloat (float_of_hundredths (o_total row)));
         (py "status", JStr (o_status row));
         (py "items", items);
         (py "address", address);
         (py "date", JStr (isoformat (o_created_at row)))].

(** The rows whose two encoded columns decode. *)
Definition decodable (row : OrderRow) : bool :=
  match loads (o_items row), loads (o_address row) with
  | Some _, Some _ => true
  | _, _ => false
  end.

(** The number a string of decimal digits writes. *)
Definition digits_value (s : pystr) : N :=
  N_of_digits (map (fun c => (c - 48)%N) s).

(** The floats a [DECIMAL(10, 2)] column gives back as they were: at most
    two digits after the decimal point, and not the negative zero. *)
Definition two_decimals (f : pyfloat) : bool :=
  canonical_float f
  && (Z.of_nat (length (f_digits f)) - f_decpt f <=? 2)%Z
  && negb (f_neg f && (N_of_digits (f_digits f) =? 0)%N).

(* ------------------------------------------------------------------ *)
(** ** Concrete requests and stores for the examples *)

Module Demo.

Definition clock : datetime := mkDatetime 2024 3 9 14 5 7.

(** A binary collation, no environment variable set. *)
Definition cfg : Config :=
  mkConfig (fun s => s) [] clock (mkDatetime 2024 3 9 14 5 8).

(** The same with a credential for the sending mailbox. *)
Definition cfg_mail : Config :=
  mkConfig (fun s => s) [(py "SENDER_PASSWORD", py "app-password")] clock
           (mkDatetime 2024 3 9 14 5 8).

Definition alice : UserRow :=
  mkUser 1 (py "A") (py "a@x.io") (py "pw") None clock.

(** A store that holds one user, with the answers [fs] of the driver and
    [smtp] of the mail relay to come. *)
Definition world (fs : list (option mysql_error)) (smtp : list bool) : World :=
  mkWorld (mkDatabase (mkTables [alice] []) 2 0 [] fs) (mkMailer smtp [] []).

Definition lost_connection : mysql_error :=
  mkError 2013 (py "Lost connection to MySQL server during query").

Definition dosa : OrderItem.t :=
  OrderItem.mk (py "Dosa") (mkFloat false [1; 5]%N 3) (py "dosa.png") 2.

Definition address : Address.t :=
  Address.mk (py "A") (py "S") (py "C") (py "000001") (py "9999999999").

(** 300.0 and 0.125 *)
Definition three_hundred : pyfloat := mkFloat false [3%N] 3.
Definition one_eighth : pyfloat := mkFloat false [1; 2; 5]%N 0.

Definition order (user_id : option Z) (total : pyfloat) : OrderCreate.t :=
  OrderCreate.mk user_id [dosa] total address.

Definition newcomer : UserSignup.t :=
  UserSignup.mk (py "B") (py "b@x.io") (py "secret").

(** The order of the user 1, for 300.0 and for 0.125. *)
Definition alice_order : OrderCreate.t := order (Some 1%Z) three_hundred.
Definition eighth_order : OrderCreate.t := order (Some 1%Z) one_eighth.

(** The driver fails at the second call, and at the third. *)
Definition second_call_fails : World := world [None; Some lost_connection] [].
Definition third_call_fails : World :=
  world [None; None; Some lost_connection] [].

(** A store whose only user has the id 0, and an order for that id. *)
Definition zero : UserRow :=
  mkUser 0 (py "Z") (py "z@x.io") (py "pw") None clock.
Definition world_zero : World :=
  mkWorld (mkDatabase (mkTables [zero] []) 1 0 [] []) (mkMailer [] [] []).
Definition zero_order : OrderCreate.t := order (Some 0%Z) three_hundred.

End Demo.

(* ------------------------------------------------------------------ *)
(** ** The catalogue *)

Module Catalogue.

Definition product (id : Z) (title : pystr) (price : pyfloat)
           (img category : pystr) : json :=
  JDict [(py "id", JInt id); (py "title", JStr title);
         (py "price", JFloat price); (py "img", JStr img);
         (py "category", JStr category)].

(** [GET /api/products]: the three products are written in the handler;
    the prices are the floats 120.0, 150.0 and 80.0. *)
Definition get_products : M json :=
  ret (JList
         [product 1 (py "Idli & Dosa Batter") (mkFloat false [1; 2]%N 3)
                  (py "JPG/Front.jpeg") (py "Batter");
          product 2 (py "Crispy Golden Dosa") (mkFloat false [1; 5]%N 3)
                  (py "dosa.png") (py "Breakfast");
          product 3 (py "Lacy Appam") (mkFloat false [8]%N 2)
                  (py "rava_idli.png") (py "Specialties")]).

End Catalogue.

(* ------------------------------------------------------------------ *)
(** ** Start-up: [DB_CONFIG] and [init_db]

    [init_db] runs once, when the module is loaded.  What the server does
    with a statement is left to the answers of the driver: every call may
    be refused, whatever the reason (no such database, no permission, a
    name the server does not parse), and the handler of [init_db] sees the
    refusal only. *)

Module Startup.

(** The entries of [DB_CONFIG] that [init_db] reads itself.  The user, the
    password and the port go to the driver as they are; [DB_CONFIG] is
    built before [init_db] is called. *)
Record db_config := mkDbConfig { host : pystr; database : pystr }.

Definition DB_CONFIG (cfg : Config) : db_config :=
  mkDbConfig (getenv cfg (py "DB_HOST") (py "127.0.0.1"))
             (getenv cfg (py "DB_NAME") (py "hesha_food_db")).

(** The statements of [init_db].  [CreateDatabase name] is the text
    [CREATE DATABASE IF NOT EXISTS] followed by the configured name; the
    three others are the [CREATE TABLE IF NOT EXISTS] statements for
    [users], [orders] and [products]. *)
Inductive ddl :=
| CreateDatabase (name : pystr)
| CreateUsers
| CreateOrders
| CreateProducts.

(** The calls into the driver; [Connect None] connects to the server
    without choosing a database. *)
Inductive driver_call :=
| Connect (database : option pystr)
| Execute (st : ddl)
| Commit
| Close.

(** The two lines [init_db] can print. *)
Inductive boot_line :=
| Initialized (host : pystr)
| InitFailed (err : mysql_error).

(** The process while the module is loaded: the answers of the driver to
    come (as [db_faults]), the connections that are open, the calls made so
    far, oldest first, and what was printed. *)
Record Boot := mkBoot {
  boot_faults : list (option mysql_error);
  boot_connections : nat;
  boot_calls : list driver_call;
  boot_stdout : list boot_line
}.

Definition B : Type := Boot -> result unit * Boot.

Definition skip : B := fun s => (Return tt, s).

Definition seq (m k : B) : B :=
  fun s =>
    match m s with
    | (Return _, s') => k s'
    | (Raise e, s') => (Raise e, s')
    end.

(** [try: body / except mysql.connector.Error as err: handler] *)
Definition except_mysql (body : B) (handler : mysql_error -> B) : B :=
  fun s =>
    match body s with
    | (Raise (MySQLError err), s') => handler err s'
    | other => other
    end.

(** A call the server answers: it raises the error the driver reports, or
    it is done. *)
Definition answered (c : driver_call) (done : nat -> nat) : B :=
  fun s =>
    match next_fault (boot_faults s) with
    | (Some e, fs) =>
        (Raise (MySQLError e),
         mkBoot fs (boot_connections s) (boot_calls s ++ [c]) (boot_stdout s))
    | (None, fs) =>
        (Return tt,
         mkBoot fs (done (boot_connections s)) (boot_calls s ++ [c])
                (boot_stdout s))
    end.

(** [mysql.connector.connect(...)] *)
Definition connect (database : option pystr) : B :=
  answered (Connect database) S.

(** [cursor.execute(...)] *)
Definition execute (st : ddl) : B := answered (Execute st) (fun n => n).

(** [conn.commit()] *)
Definition commit : B := answered Commit (fun n => n).

(** [conn.close()] *)
Definition close : B :=
  fun s =>
    (Return tt,
     mkBoot (boot_faults s) (Nat.pred (boot_connections s))
            (boot_calls s ++ [Close]) (boot_stdout s)).

Definition print (l : boot_line) : B :=
  fun s =>
    (Return tt,
     mkBoot (boot_faults s) (boot_connections s) (boot_calls s)
            (boot_stdout s ++ [l])).

(** [host == '127.0.0.1' or host == 'localhost'] *)
Definition is_local (h : pystr) : bool :=
  str_eqb h (py "127.0.0.1") || str_eqb h (py "localhost").

Definition init_db (cfg : Config) : B :=
  let config := DB_CONFIG cfg in
  except_mysql
    (seq (if is_local (host config)
          then seq (connect None)
              (seq (execute (CreateDatabase (database config)))
                   close)
          else skip)
    (seq (connect (Some (database config)))
    (seq (execute CreateUsers)
    (seq (execute CreateOrders)
    (seq (execute CreateProducts)
    (seq commit
    (seq close
         (print (Initialized (host config))))))))))
    (fun err => print (InitFailed err)).

End Startup.

(* ------------------------------------------------------------------ *)
(** ** More vocabulary: what the handlers answer and what the store keeps *)

(** What a sign-up answers for the new id. *)
Definition account (id : Z) (user : UserSignup.t) : json :=
  JDict [(py "id", JInt id);
         (py "name", JStr (UserSignup.name user));
         (py "email", JStr (UserSignup.email user));
         (py "message", JStr (py "User created successfully"))].

(** What a login answers for the stored row [r] and the decoded address. *)
Definition profile (r : UserRow) (address : json) : json :=
  JDict [(py "id", JInt (u_id r));
         (py "name", JStr (u_name r));
         (py "email", JStr (u_email r));
         (py "address", address);
         (py "isLoggedIn", JBool true)].

(** The columns of a user that only the sign-up writes. *)
Definition fixed_columns (u : UserRow) : Z * pystr * pystr * pystr * datetime :=
  (u_id u, u_name u, u_email u, u_password u, u_created_at u).

(** No two of the users have the same email for the store. *)
Fixpoint distinct_emails (cfg : Config) (l : list UserRow) : bool :=
  match l with
  | [] => true
  | u :: r =>
      negb (existsb (fun v => same_text (collation cfg) (u_email v) (u_email u)) r)
      && distinct_emails cfg r
  end.

(** Every order belongs to a stored user or to none. *)
Definition orders_reference_users (t : Tables) : bool :=
  forallb (fun o => references_user (o_user_id o) t) (orders t).

(** Rows in the order [ORDER BY created_at DESC] asks for. *)
Fixpoint newest_first (l : list OrderRow) : bool :=
  match l with
  | [] => true
  | x :: r =>
      forallb (fun y => (sort_key (o_created_at y) <=? sort_key (o_created_at x))%N) r
      && newest_first r
  end.

(** The entry [e] of a listing shows the row [row]: its id, total, status
    and date, with some decoded items and address. *)
Definition shown_as (row : OrderRow) (e : json) : Prop :=
  exists items address, e = listed row items address.



(** Text made of ASCII characters only. *)
Definition ascii_text (s : pystr) : bool := forallb (fun c => (c <? 128)%N) s.

(** The amounts of at least a hundred million: the first digit is not zero
    and the decimal point comes after nine digits or more. *)
Definition hundred_million_or_more (f : pyfloat) : bool :=
  canonical_float f &&
  match f_digits f with
  | d :: _ => negb (d =? 0)%N && (9 <=? f_decpt f)%Z
  | [] => false
  end.


(** The statements that only read. *)
Definition is_select (st : statement) : bool :=
  match st with
  | SelectUserByEmail _ | SelectOrdersByUser _ => true
  | _ => false
  end.

(** What one request can do to the committed rows: nothing, add a user
    whose email is new, write the address of the users with one id, add an
    order of a stored user or of none, or do the last two at once. *)
Inductive written (cfg : Config) (t : Tables) : Tables -> Prop :=
| Unchanged : written cfg t t
| UserAdded (u : UserRow) :
    existsb (fun v => same_text (collation cfg) (u_email v) (u_email u)) (users t)
    = false ->
    written cfg t (mkTables (users t ++ [u]) (orders t))
| AddressSet (a : pystr) (id : Z) :
    written cfg t (update_address a id t)
| OrderAdded (o : OrderRow) :
    references_user (o_user_id o) t = true ->
    written cfg t (mkTables (users t) (orders t ++ [o]))
| OrderAddedAddressSet (o : OrderRow) (a : pystr) (id : Z) :
    references_user (o_user_id o) t = true ->
    written cfg t (mkTables (map (set_address a id) (users t)) (orders t ++ [o])).

(** The first error among the next [n] answers of the driver, if there is
    one. *)
Fixpoint first_fault (n : nat) (fs : list (option mysql_error))
  : option mysql_error :=
  match n, fs with
  | O, _ => None
  | S _, [] => None
  | S n', None :: r => first_fault n' r
  | S _, Some e :: _ => Some e
  end.

(** The number of calls of [init_db] that the server answers: two more on
    a local host. *)
Definition init_calls (cfg : Config) : nat :=
  if Startup.is_local (Startup.host (Startup.DB_CONFIG cfg)) then 7 else 5.

(** The calls of [init_db] when none is refused. *)
Definition init_script (cfg : Config) : list Startup.driver_call :=
  let config := Startup.DB_CONFIG cfg in
  (if Startup.is_local (Startup.host config)
   then [Startup.Connect None;
         Startup.Execute (Startup.CreateDatabase (Startup.database config));
         Startup.Close]
   else [])
  ++ [Startup.Connect (Some (Startup.database config));
      Startup.Execute Startup.CreateUsers;
      Startup.Execute Startup.CreateOrders;
      Startup.Execute Startup.CreateProducts;
      Startup.Commit;
      Startup.Close].

(** The routes of the application, each with what its handler receives. *)
Inductive request :=
| PostSignup (user : UserSignup.t)
| PostLogin (user : UserLogin.t)
| GetProducts
| PostOrders (order : OrderCreate.t)
| GetOrders (user_id : Z)
| PostUserAddress (data : AddressUpdate.t).

Definition handle (cfg : Config) (r : request) : M json :=
  match r with
  | PostSignup user => signup cfg user
  | PostLogin user => login cfg user
  | GetProducts => Catalogue.get_products
  | PostOrders order => create_order cfg order
  | GetOrders user_id => get_user_orders cfg user_id
  | PostUserAddress data => update_user_address cfg data
  end.

(** The state after [connect] was refused: the driver has given one answer,
    and nothing else has changed. *)
Definition refused (w : World) (fs : list (option mysql_error)) : World :=
  mkWorld (mkDatabase (tables (db w)) (auto_increment (db w))
                      (open_connections (db w)) (statement_log (db w)) fs)
          (mailer w).


(* ------------------------------------------------------------------ *)
(** ** More concrete requests and stores *)

Module Sample.

(** The same configuration a minute after [Demo.clock]. *)
Definition later : Config :=
  mkConfig (fun s => s) [] (mkDatetime 2024 3 9 14 6 7)
           (mkDatetime 2024 3 9 14 6 8).

(** The store after the user 1 has placed two orders, a minute apart. *)
Definition two_orders : World :=
  snd (create_order later Demo.alice_order
         (snd (create_order Demo.cfg Demo.alice_order (Demo.world [] [])))).

Definition listing : json :=
  match fst (get_user_orders later 1 two_orders) with
  | Return v => v
  | Raise _ => JNull
  end.


(** The amount 1000000000.0 *)
Definition billion : pyfloat := mkFloat false [1%N] 10.

(** A quantity no float holds. *)
Definition huge : Z := 2 ^ 1024.

Definition huge_order : OrderCreate.t :=
  OrderCreate.mk None
    [OrderItem.mk (py "Dosa") (mkFloat false [1; 5]%N 3) (py "dosa.png") huge]
    Demo.three_hundred Demo.address.

(** A remote host for the database. *)
Definition cloud : Config :=
  mkConfig (fun s => s) [(py "DB_HOST", py "db.example.com")] Demo.clock
           Demo.clock.

(** The process before [init_db], with the answers [fs] of the driver to
    come. *)
Definition start (fs : list (option mysql_error)) : Startup.Boot :=
  Startup.mkBoot fs 0 [] [].

(** The driver accepts the connection and the first table, and loses the
    connection at the second table. *)
Definition second_table_fails : Startup.Boot :=
  start [None; None; Some Demo.lost_connection].

(** An order whose texts are not ASCII: the title ends in U+00E9, the name
    of the customer is U+1F600. *)
Definition accented_order : OrderCreate.t :=
  OrderCreate.mk None
    [OrderItem.mk [68; 111; 115; 233]%N (mkFloat false [1; 5]%N 3)
                  (py "dosa.png") 2]
    Demo.three_hundred
    (Address.mk [128512%N] (py "S") (py "C") (py "000001") (py "9999999999")).

End Sample.

(* ================================================================== *)
(** * Proofs *)

(* ------------------------------------------------------------------ *)
(** ** Facts about text *)

Lemma str_eqb_refl (a : pystr) : str_eqb a a = true.
Proof.
  induction a as [|x a IH]; simpl; [reflexivity|].
  now rewrite N.eqb_refl.
Qed.

Lemma str_eqb_eq (a b : pystr) : str_eqb a b = true <-> a = b.
Proof.
  split; [|intros ->; apply str_eqb_refl].
  revert b; induction a as [|x a IH]; intros [|y b]; simpl; try discriminate; auto.
  intros H; apply andb_true_iff in H as [Hx Hr].
  apply N.eqb_eq in Hx; subst; f_equal; auto.
Qed.

Lemma str_eqb_neq (a b : pystr) : str_eqb a b = false <-> a <> b.
Proof.
  destruct (str_eqb a b) eqn:E.
  - apply str_eqb_eq in E; split; [discriminate | congruence].
  - split; [|reflexivity]. intros _ H. apply str_eqb_eq in H. congruence.
Qed.

(* ------------------------------------------------------------------ *)
(** ** Facts about decimal digits *)

Lemma N_of_digits_app (l : list N) (d : N) :
  N_of_digits (l ++ [d]) = (10 * N_of_digits l + d)%N.
Proof. unfold N_of_digits. now rewrite fold_left_app. Qed.

Lemma digits_fuel_app (fuel : nat) (n : N) (acc : list N) :
  digits_fuel fuel n acc = digits_fuel fuel n [] ++ acc.
Proof.
  revert n acc; induction fuel as [|f IH]; intros n acc; simpl; [reflexivity|].
  destruct (n <? 10)%N; [reflexivity|].
  rewrite IH, (IH _ [_]), <- app_assoc. reflexivity.
Qed.

Lemma digits_fuel_value (fuel : nat) (n : N) :
  N_of_digits (digits_fuel fuel n []) = n.
Proof.
  revert n; induction fuel as [|f IH]; intros n; simpl.
  - unfold N_of_digits; simpl; lia.
  - destruct (n <? 10)%N.
    + unfold N_of_digits; simpl; lia.
    + rewrite digits_fuel_app, N_of_digits_app, IH.
      rewrite (N.div_mod n 10) at 3 by lia. reflexivity.
Qed.

Lemma digits_fuel_digits (fuel : nat) (n : N) :
  (n < 2 ^ N.of_nat fuel)%N -> digit_list (digits_fuel fuel n []).
Proof.
  revert n; induction fuel as [|f IH]; intros n Hn.
  - simpl in *. constructor; [lia | constructor].
  - cbn [digits_fuel]. destruct (N.ltb_spec n 10).
    + constructor; [assumption | constructor].
    + rewrite digits_fuel_app. apply Forall_app; split.
      * apply IH. rewrite Nat2N.inj_succ, N.pow_succ_r' in Hn.
        apply N.Div0.div_lt_upper_bound.
        remember (2 ^ N.of_nat f)%N as X. clear HeqX. lia.
      * constructor; [|constructor]. apply N.mod_lt. lia.
Qed.

Lemma digits_fuel_head (fuel : nat) (n : N) :
  exists d r, digits_fuel fuel n [] = d :: r /\ (n <> 0%N -> d <> 0%N) /\ (n = 0%N -> r = []).
Proof.
  revert n; induction fuel as [|f IH]; intros n.
  - exists n, []. simpl. auto.
  - cbn [digits_fuel]. destruct (N.ltb_spec n 10).
    + exists n, []. auto.
    + rewrite digits_fuel_app.
      destruct (IH (n / 10)%N) as (d & r & E & Hd & _).
      exists d, (r ++ [(n mod 10)%N]). rewrite E. split; [reflexivity|]. split.
      * intros _. apply Hd. intros Hz.
        apply N.div_small_iff in Hz; lia.
      * lia.
Qed.

Lemma digits_of_N_value (n : N) : N_of_digits (digits_of_N n) = n.
Proof. apply digits_fuel_value. Qed.

Lemma digits_of_N_digits (n : N) : digit_list (digits_of_N n).
Proof.
  apply digits_fuel_digits. rewrite N2Nat.id. apply N.size_gt.
Qed.

Lemma digits_of_N_head (n : N) :
  exists d r, digits_of_N n = d :: r /\ (n <> 0%N -> d <> 0%N) /\ (n = 0%N -> r = []).
Proof. apply digits_fuel_head. Qed.

Lemma digits_of_N_zero : digits_of_N 0 = [0%N].
Proof. reflexivity. Qed.

(* ------------------------------------------------------------------ *)
(** ** Decoding undoes encoding: text *)

Ltac dlia := zify; Z.to_euclidean_division_equations; lia.

Lemma hex_value_char (d : N) : (d < 16)%N -> hex_value (hex_char d) = Some d.
Proof.
  intros H.
  assert (d = 0 \/ d = 1 \/ d = 2 \/ d = 3 \/ d = 4 \/ d = 5 \/ d = 6 \/ d = 7 \/
          d = 8 \/ d = 9 \/ d = 10 \/ d = 11 \/ d = 12 \/ d = 13 \/ d = 14 \/
          d = 15)%N as C by lia.
  repeat (destruct C as [-> | C]; [reflexivity|]). subst; reflexivity.
Qed.

Lemma decode_hex4_hex4 (c : N) :
  (c < 65536)%N ->
  decode_hex4 (hex_char (c / 4096 mod 16)) (hex_char (c / 256 mod 16))
              (hex_char (c / 16 mod 16)) (hex_char (c mod 16)) = Some c.
Proof.
  intros H. unfold decode_hex4.
  rewrite !hex_value_char by (apply N.mod_lt; discriminate).
  f_equal. dlia.
Qed.

Lemma lor_shifted (a b k : N) :
  (b < 2 ^ k)%N -> N.lor (N.shiftl a k) b = (a * 2 ^ k + b)%N.
Proof.
  intros Hb.
  assert (D : N.land (N.shiftl a k) b = 0%N).
  { apply N.bits_inj_0. intros i. rewrite N.land_spec.
    destruct (N.ltb_spec i k).
    - rewrite N.shiftl_spec_low by assumption. reflexivity.
    - rewrite <- (N.mod_small b (2 ^ k)) by assumption.
      rewrite N.mod_pow2_bits_high by assumption. apply andb_false_r. }
  rewrite <- N.shiftl_mul_pow2.
  rewrite N.add_nocarry_lxor by assumption.
  symmetry. apply N.lxor_lor. assumption.
Qed.

Lemma high_half_eq (n : N) :
  (n < 1048576)%N -> high_half n = (55296 + n / 1024)%N.
Proof.
  intros H. unfold high_half.
  change 1023%N with (N.ones 10). rewrite N.land_ones, N.shiftr_div_pow2.
  change (2 ^ 10)%N with 1024%N.
  rewrite (N.mod_small (n / 1024) 1024) by dlia.
  change 55296%N with (N.shiftl 54 10).
  rewrite lor_shifted by (change (2 ^ 10)%N with 1024%N; dlia).
  reflexivity.
Qed.

Lemma low_half_eq (n : N) : low_half n = (56320 + n mod 1024)%N.
Proof.
  unfold low_half.
  change 1023%N with (N.ones 10). rewrite N.land_ones.
  change (2 ^ 10)%N with 1024%N.
  change 56320%N with (N.shiftl 55 10).
  rewrite lor_shifted by (change (2 ^ 10)%N with 1024%N; dlia).
  reflexivity.
Qed.

Lemma join_surrogates_halves (n : N) :
  (n < 1048576)%N -> join_surrogates (high_half n) (low_half n) = (65536 + n)%N.
Proof.
  intros H. unfold join_surrogates.
  rewrite high_half_eq, low_half_eq by assumption.
  replace (55296 + n / 1024 - 55296)%N with (n / 1024)%N by dlia.
  replace (56320 + n mod 1024 - 56320)%N with (n mod 1024)%N by dlia.
  rewrite lor_shifted by (change (2 ^ 10)%N with 1024%N; dlia).
  change (2 ^ 10)%N with 1024%N. dlia.
Qed.

Lemma scanstring_plain (c : N) (r : pystr) :
  c <> 34%N -> c <> 92%N -> (32 <= c)%N ->
  scanstring (c :: r) = prepend c (scanstring r).
Proof.
  intros H1 H2 H3. cbn [scanstring].
  apply N.eqb_neq in H1, H2. apply N.ltb_ge in H3.
  now rewrite H1, H2, H3.
Qed.

Lemma scanstring_u (a b c d u : N) (r : pystr) :
  decode_hex4 a b c d = Some u -> is_high_surrogate u = false ->
  scanstring (92%N :: 117%N :: a :: b :: c :: d :: r) = prepend u (scanstring r).
Proof.
  intros H1 H2. cbn [scanstring].
  change (92 =? 34)%N with false. change (92 =? 92)%N with true.
  change (117 =? 117)%N with true. cbv iota.
  now rewrite H1, H2.
Qed.

Lemma scanstring_pair (a b c d a' b' c' d' u u2 : N) (r : pystr) :
  decode_hex4 a b c d = Some u -> is_high_surrogate u = true ->
  decode_hex4 a' b' c' d' = Some u2 -> is_low_surrogate u2 = true ->
  scanstring (92%N :: 117%N :: a :: b :: c :: d ::
              92%N :: 117%N :: a' :: b' :: c' :: d' :: r)
  = prepend (join_surrogates u u2) (scanstring r).
Proof.
  intros H1 H2 H3 H4. cbn [scanstring].
  change (92 =? 34)%N with false. change (92 =? 92)%N with true.
  change (117 =? 117)%N with true. cbv iota.
  rewrite H1, H2. cbn [andb]. cbv iota. now rewrite H3, H4.
Qed.

Lemma scanstring_escape (c : N) (tail : pystr) :
  scalar c = true ->
  scanstring (escape_char c ++ tail) = prepend c (scanstring tail).
Proof.
  intros Hc. unfold escape_char.
  destruct (N.eqb_spec c 34); [subst; reflexivity|].
  destruct (N.eqb_spec c 92); [subst; reflexivity|].
  destruct (N.eqb_spec c 10); [subst; reflexivity|].
  destruct (N.eqb_spec c 13); [subst; reflexivity|].
  destruct (N.eqb_spec c 9); [subst; reflexivity|].
  destruct (N.eqb_spec c 8); [subst; reflexivity|].
  destruct (N.eqb_spec c 12); [subst; reflexivity|].
  destruct (N.leb_spec 32 c); cbn [andb].
  - destruct (N.leb_spec c 126).
    + apply scanstring_plain; assumption.
    + unfold scalar in Hc.
      destruct (N.ltb_spec c 65536).
      * unfold u_escape, hex4. cbn [app].
        apply scanstring_u; [apply decode_hex4_hex4; assumption|].
        unfold is_high_surrogate.
        destruct (N.ltb_spec c 55296); [|destruct (N.leb_spec 57344 c); [|discriminate]].
        -- apply andb_false_iff. left. apply N.leb_gt. assumption.
        -- apply andb_false_iff. right. apply N.leb_gt. lia.
      * assert (c - 65536 < 1048576)%N as Hn.
        { destruct (N.ltb_spec c 55296); [lia|]. cbn [orb] in Hc.
          apply andb_true_iff in Hc as [_ Hc]. apply N.ltb_lt in Hc. lia. }
        unfold u_escape, hex4. cbn [app].
        rewrite scanstring_pair
          with (u := high_half (c - 65536)) (u2 := low_half (c - 65536)).
        -- rewrite join_surrogates_halves by assumption.
           replace (65536 + (c - 65536))%N with c by lia. reflexivity.
        -- apply decode_hex4_hex4. rewrite high_half_eq by assumption. dlia.
        -- rewrite high_half_eq by assumption. unfold is_high_surrogate.
           apply andb_true_iff; split; apply N.leb_le; dlia.
        -- apply decode_hex4_hex4. rewrite low_half_eq. dlia.
        -- rewrite low_half_eq. unfold is_low_surrogate.
           apply andb_true_iff; split; apply N.leb_le; dlia.
  - unfold u_escape, hex4.
    destruct (N.ltb_spec c 65536); [|lia]. cbn [app].
    apply scanstring_u; [apply decode_hex4_hex4; assumption|].
    unfold is_high_surrogate. apply andb_false_iff. left. apply N.leb_gt. lia.
Qed.

Lemma scanstring_encoded (s rest : pystr) :
  valid_text s = true ->
  scanstring (flat_map escape_char s ++ 34%N :: rest) = Some (s, rest).
Proof.
  induction s as [|c s IH]; intros Hs.
  - reflexivity.
  - cbn [valid_text forallb] in Hs. apply andb_true_iff in Hs as [Hc Hs].
    cbn [flat_map]. rewrite <- app_assoc, scanstring_escape by assumption.
    unfold valid_text in IH. rewrite IH by assumption. reflexivity.
Qed.

(* ------------------------------------------------------------------ *)
(** ** Decoding undoes encoding: numbers *)

Lemma is_digit_char (d : N) : (d < 10)%N -> is_digit (digit_char d) = true.
Proof.
  intros H. unfold is_digit, digit_char.
  apply andb_true_iff; split; apply N.leb_le; lia.
Qed.

Lemma digit_char_value (d : N) : (digit_char d - 48)%N = d.
Proof. unfold digit_char. lia. Qed.

Lemma scan_digits_stop (rest : pystr) :
  no_digit rest = true -> scan_digits rest = ([], rest).
Proof.
  destruct rest as [|c r]; simpl; [reflexivity|].
  intros H. apply negb_true_iff in H. now rewrite H.
Qed.

Lemma scan_digits_chars (l : list N) (rest : pystr) :
  digit_list l -> no_digit rest = true ->
  scan_digits (chars l ++ rest) = (l, rest).
Proof.
  intros Hl Hr. induction Hl as [|d l Hd Hl IH].
  - apply scan_digits_stop. assumption.
  - cbn [chars map app scan_digits]. rewrite is_digit_char by assumption.
    fold (chars l). rewrite IH, digit_char_value. reflexivity.
Qed.

Lemma delimited_no_digit (rest : pystr) : delimited rest = true -> no_digit rest = true.
Proof.
  destruct rest as [|c r]; simpl; [reflexivity|].
  intros H. unfold is_digit.
  destruct (N.eqb_spec c 44); [subst; reflexivity|].
  destruct (N.eqb_spec c 93); [subst; reflexivity|].
  destruct (N.eqb_spec c 125); [subst; reflexivity|]. discriminate.
Qed.

Lemma scan_fraction_none (rest : pystr) :
  delimited rest = true -> scan_fraction rest = (None, rest).
Proof.
  destruct rest as [|c r]; simpl; [reflexivity|].
  intros H. destruct r; [reflexivity|].
  destruct (N.eqb_spec c 46); [subst; discriminate|]. reflexivity.
Qed.

Lemma scan_exponent_none (rest : pystr) :
  delimited rest = true -> scan_exponent rest = (None, rest).
Proof.
  destruct rest as [|c r]; simpl; [reflexivity|].
  intros H.
  destruct (N.eqb_spec c 101); [subst; discriminate|].
  destruct (N.eqb_spec c 69); [subst; discriminate|]. reflexivity.
Qed.

Lemma scan_integer_part_chars (l : list N) (rest : pystr) :
  integer_digits l -> no_digit rest = true ->
  scan_integer_part (chars l ++ rest) = Some (l, rest).
Proof.
  intros [Hl Hh] Hr. destruct l as [|d r]; [contradiction|].
  unfold scan_integer_part. cbn [chars map app].
  inversion Hl as [|? ? Hd Hr']; subst.
  rewrite is_digit_char by assumption.
  destruct (N.eqb_spec (digit_char d) 48) as [E|E].
  - assert (d = 0%N) by (unfold digit_char in E; lia). subst d.
    destruct Hh as [Hh | ->]; [congruence | reflexivity].
  - change (digit_char d :: map digit_char r ++ rest)
      with (chars (d :: r) ++ rest).
    rewrite scan_digits_chars by assumption. reflexivity.
Qed.

Lemma digits_of_N_integer (n : N) : integer_digits (digits_of_N n).
Proof.
  split; [apply digits_of_N_digits|].
  destruct (digits_of_N_head n) as (d & r & E & Hd & Hr). rewrite E.
  destruct (N.eq_dec n 0); [right | left]; auto.
Qed.

Lemma scan_unsigned_int (neg : bool) (n : N) (rest : pystr) :
  delimited rest = true ->
  scan_unsigned neg (chars (digits_of_N n) ++ rest)
  = Some (JInt (if neg then (- Z.of_N n)%Z else Z.of_N n), rest).
Proof.
  intros Hr. unfold scan_unsigned.
  rewrite scan_integer_part_chars
    by (auto using digits_of_N_integer, delimited_no_digit).
  rewrite scan_fraction_none, scan_exponent_none by assumption.
  unfold number_value. rewrite digits_of_N_value. reflexivity.
Qed.

Lemma chars_head_not_minus (l : list N) (rest : pystr) :
  digit_list l -> l <> [] ->
  exists c t, chars l ++ rest = c :: t /\ (c =? 45)%N = false
              /\ is_ws c = false /\ (c =? 93)%N = false.
Proof.
  intros Hl. destruct l as [|d r]; [congruence|]. intros _.
  inversion Hl; subst.
  exists (digit_char d), (chars r ++ rest). split; [reflexivity|].
  unfold digit_char, is_ws.
  repeat split; repeat (apply orb_false_iff; split); apply N.eqb_neq; lia.
Qed.

Lemma scan_number_int (z : Z) (rest : pystr) :
  delimited rest = true ->
  scan_number (str_of_int z ++ rest) = Some (JInt z, rest).
Proof.
  intros Hr. unfold str_of_int.
  destruct (Z.ltb_spec z 0).
  - cbn [app scan_number]. change (45 =? 45)%N with true. cbv iota.
    rewrite scan_unsigned_int by assumption. do 2 f_equal. f_equal. lia.
  - cbn [app].
    destruct (@chars_head_not_minus (digits_of_N (Z.abs_N z)) rest)
      as (c & t & E & Hc & _).
    { apply digits_of_N_digits. }
    { destruct (digits_of_N_head (Z.abs_N z)) as (d & r & E & _). congruence. }
    unfold scan_number. rewrite E, Hc, <- E.
    rewrite scan_unsigned_int by assumption. do 2 f_equal. f_equal. lia.
Qed.

(** *** Floats *)

Lemma forallb_digit_list (l : list N) :
  forallb (fun d => (d <? 10)%N) l = true -> digit_list l.
Proof.
  intros H. apply Forall_forall. intros x Hx.
  apply N.ltb_lt. revert x Hx. apply forallb_forall. assumption.
Qed.

Lemma canonical_float_cases (f : pyfloat) :
  canonical_float f = true ->
  (f_digits f = [0%N] /\ f_decpt f = 1%Z) \/ significant (f_digits f).
Proof.
  unfold canonical_float. intros H. apply andb_true_iff in H as [Hd H].
  apply forallb_digit_list in Hd.
  destruct (f_digits f) as [|d r] eqn:E; [discriminate|].
  destruct (N.eqb_spec d 0).
  - left. destruct r; [|discriminate]. apply Z.eqb_eq in H. subst. auto.
  - right. split; [assumption|]. exists d, r. repeat split; auto.
    apply negb_true_iff, N.eqb_neq in H. assumption.
Qed.

Lemma digit_list_zeros (k : nat) : digit_list (zeros k).
Proof. apply Forall_forall. intros x Hx. apply repeat_spec in Hx. subst. lia. Qed.

Lemma zeros_snoc (k : nat) : zeros k ++ [0%N] = zeros (S k).
Proof. unfold zeros. induction k; simpl in *; congruence. Qed.

Lemma rev_zeros (k : nat) : rev (zeros k) = zeros k.
Proof.
  induction k as [|k IH]; [reflexivity|].
  change (zeros (S k)) with (0%N :: zeros k) at 1.
  cbn [rev]. rewrite IH. apply zeros_snoc.
Qed.

Lemma strip_leading_zeros_app (k : nat) (l : list N) :
  strip_leading_zeros (zeros k ++ l) = strip_leading_zeros l.
Proof. induction k; simpl; auto. Qed.

Lemma strip_leading_nonzero (d : N) (r : list N) :
  d <> 0%N -> strip_leading_zeros (d :: r) = d :: r.
Proof. intros H. simpl. apply N.eqb_neq in H. now rewrite H. Qed.

Lemma strip_trailing_zeros_app (l : list N) (k : nat) :
  strip_trailing_zeros (l ++ zeros k) = strip_trailing_zeros l.
Proof.
  unfold strip_trailing_zeros.
  now rewrite rev_app_distr, rev_zeros, strip_leading_zeros_app.
Qed.

Lemma strip_trailing_nonzero (l : list N) :
  l <> [] -> last l 0%N <> 0%N -> strip_trailing_zeros l = l.
Proof.
  intros Hl Hlast. unfold strip_trailing_zeros.
  rewrite (app_removelast_last 0%N Hl) at 1.
  rewrite rev_app_distr. cbn [rev app].
  rewrite strip_leading_nonzero by assumption.
  cbn [rev]. rewrite rev_involutive.
  symmetry. apply app_removelast_last. assumption.
Qed.

(** Reading back digits that were padded with zeros on both sides. *)
Lemma float_of_literal_padded (neg : bool) (ip fp ds : list N) (e p : Z)
      (a b : nat) :
  significant ds -> ip ++ fp = zeros a ++ ds ++ zeros b ->
  (Z.of_nat (length ip) + e - Z.of_nat a = p)%Z ->
  float_of_literal neg ip fp e = mkFloat neg ds p.
Proof.
  intros (Hd & d & r & E & Hnz & Hlast) Happ Hp.
  unfold float_of_literal. rewrite Happ.
  rewrite strip_leading_zeros_app.
  assert (strip_leading_zeros (ds ++ zeros b) = ds ++ zeros b) as ->.
  { rewrite E. cbn [app]. apply strip_leading_nonzero. assumption. }
  rewrite strip_trailing_zeros_app.
  rewrite strip_trailing_nonzero by (auto; rewrite E; discriminate).
  rewrite E at 1. rewrite <- E. f_equal. rewrite !length_app.
  unfold zeros. rewrite !repeat_length. lia.
Qed.

Lemma scan_fraction_not_dot (c : N) (r : pystr) :
  c <> 46%N -> scan_fraction (c :: r) = (None, c :: r).
Proof.
  intros H. unfold scan_fraction. apply N.eqb_neq in H.
  destruct r; [reflexivity|]. now rewrite H.
Qed.

Lemma scan_fraction_some (fp : list N) (rest : pystr) :
  fp <> [] -> digit_list fp -> no_digit rest = true ->
  scan_fraction (46%N :: chars fp ++ rest) = (Some fp, rest).
Proof.
  intros Hne Hd Hr. destruct fp as [|d l]; [congruence|].
  unfold scan_fraction. cbn [chars map app].
  change (46 =? 46)%N with true.
  inversion Hd; subst. rewrite is_digit_char by assumption. cbn [andb].
  change (digit_char d :: map digit_char l ++ rest) with (chars (d :: l) ++ rest).
  rewrite scan_digits_chars by assumption. reflexivity.
Qed.

Lemma N_of_digits_leading_zero (l : list N) :
  N_of_digits (0%N :: l) = N_of_digits l.
Proof. reflexivity. Qed.

Lemma scan_exponent_text (e : Z) (rest : pystr) :
  no_digit rest = true ->
  scan_exponent (exponent_text e ++ rest) = (Some e, rest).
Proof.
  intros Hr. unfold exponent_text, scan_exponent.
  set (ed := (if (Z.abs_N e <? 10)%N then [0%N] else []) ++ digits_of_N (Z.abs_N e)).
  assert (digit_list ed) as Hd.
  { apply Forall_app; split; [|apply digits_of_N_digits].
    destruct (Z.abs_N e <? 10)%N; repeat constructor. }
  assert (N_of_digits ed = Z.abs_N e) as Hv.
  { subst ed. destruct (Z.abs_N e <? 10)%N; cbn [app];
      rewrite ?N_of_digits_leading_zero; apply digits_of_N_value. }
  assert (exists d l, ed = d :: l) as (d & l & E).
  { subst ed. destruct (Z.abs_N e <? 10)%N; cbn [app]; eauto.
    destruct (digits_of_N_head (Z.abs_N e)) as (d & l & E & _). eauto. }
  cbn [app]. change (101 =? 101)%N with true. cbn [orb]. cbv iota.
  assert (is_digit (digit_char d) = true) as Hdig.
  { apply is_digit_char. rewrite E in Hd. inversion Hd; assumption. }
  destruct (Z.ltb_spec e 0); cbn [app].
  - change (45 =? 45)%N with true. cbv iota.
    rewrite E at 1. cbn [chars map app]. rewrite Hdig.
    rewrite scan_digits_chars, Hv by assumption. f_equal. f_equal. lia.
  - change (43 =? 45)%N with false. change (43 =? 43)%N with true. cbv iota.
    rewrite E at 1. cbn [chars map app]. rewrite Hdig.
    rewrite scan_digits_chars, Hv by assumption. f_equal. f_equal. lia.
Qed.

Lemma chars_app (a b : list N) : chars (a ++ b) = chars a ++ chars b.
Proof. apply map_app. Qed.

Lemma significant_integer (ds : list N) (k : nat) :
  significant ds -> integer_digits (ds ++ zeros k).
Proof.
  intros (Hd & d & r & E & Hnz & _). split.
  - apply Forall_app; split; [assumption | apply digit_list_zeros].
  - rewrite E. cbn [app]. left. assumption.
Qed.

Lemma scan_unsigned_positional (neg : bool) (ds : list N) (p : Z) (rest : pystr) :
  canonical_float (mkFloat neg ds p) = true ->
  delimited rest = true ->
  scan_unsigned neg (positional ds p ++ rest)
  = Some (JFloat (mkFloat neg ds p), rest).
Proof.
  intros Hc Hr. pose proof (@delimited_no_digit _ Hr) as Hnd.
  apply canonical_float_cases in Hc. cbn [f_digits f_decpt] in Hc.
  unfold positional, scan_unsigned.
  destruct Hc as [[-> ->] | Hs].
  - (* zero *)
    cbn -[scan_fraction scan_exponent number_value].
    change (46%N :: 48%N :: rest) with (46%N :: chars [0%N] ++ rest).
    rewrite (@scan_fraction_some [0%N] rest) by (repeat constructor; auto; discriminate).
    rewrite scan_exponent_none by assumption. reflexivity.
  - pose proof Hs as (Hd & d & r & E & Hnz & Hlast).
    destruct (Z.leb_spec p 0).
    + (* 0.000ddd *)
      cbn [py list_ascii_of_string map app].
      change (N_of_ascii "0") with 48%N. change (N_of_ascii ".") with 46%N.
      unfold scan_integer_part.
      change (is_digit 48) with true. change (48 =? 48)%N with true. cbv iota.
      rewrite scan_fraction_some; auto.
      * rewrite scan_exponent_none by assumption. unfold number_value.
        rewrite float_of_literal_padded
          with (ds := ds) (p := p) (a := S (Z.to_nat (- p))) (b := O); auto.
        -- cbn [app zeros repeat]. now rewrite app_nil_r.
        -- cbn [length]. lia.
      * rewrite E. destruct (zeros (Z.to_nat (- p))); discriminate.
      * apply Forall_app; split; [apply digit_list_zeros | assumption].
    + destruct (Z.leb_spec (Z.of_nat (length ds)) p).
      * (* ddd000.0 *)
        rewrite <- app_assoc.
        rewrite scan_integer_part_chars; auto using significant_integer.
        cbn [py list_ascii_of_string map app].
        change (N_of_ascii ".") with 46%N. change (N_of_ascii "0") with 48%N.
        change (46%N :: 48%N :: rest) with (46%N :: chars [0%N] ++ rest).
        rewrite (@scan_fraction_some [0%N] rest) by (repeat constructor; auto; discriminate).
        rewrite scan_exponent_none by assumption. unfold number_value.
        rewrite float_of_literal_padded
          with (ds := ds) (p := p) (a := O)
               (b := S (Z.to_nat (p - Z.of_nat (length ds)))); auto.
        -- cbn [app zeros repeat]. rewrite <- app_assoc. f_equal. apply zeros_snoc.
        -- rewrite length_app. unfold zeros. rewrite repeat_length. lia.
      * (* dd.ddd *)
        rewrite <- !app_assoc.
        assert (Z.to_nat p < length ds)%nat as Hlt by lia.
        assert (0 < Z.to_nat p)%nat as Hpos by lia.
        rewrite scan_integer_part_chars; auto.
        -- cbn [app]. rewrite scan_fraction_some; auto.
           ++ rewrite scan_exponent_none by assumption. unfold number_value.
              rewrite float_of_literal_padded
                with (ds := ds) (p := p) (a := O) (b := O); auto.
              ** cbn [app zeros repeat]. rewrite app_nil_r. apply firstn_skipn.
              ** rewrite length_firstn. lia.
           ++ intros Hnil. apply (f_equal (@length N)) in Hnil.
              rewrite length_skipn in Hnil. cbn in Hnil. lia.
           ++ rewrite <- (firstn_skipn (Z.to_nat p) ds) in Hd.
              apply Forall_app in Hd. tauto.
        -- split.
           ++ rewrite <- (firstn_skipn (Z.to_nat p) ds) in Hd.
              apply Forall_app in Hd. tauto.
           ++ rewrite E. destruct (Z.to_nat p); [lia|]. cbn [firstn]. auto.
Qed.

Lemma scan_fraction_exponent (e : Z) (rest : pystr) :
  scan_fraction (exponent_text e ++ rest) = (None, exponent_text e ++ rest).
Proof.
  unfold exponent_text. cbn [app]. apply scan_fraction_not_dot. discriminate.
Qed.

Lemma scan_unsigned_scientific (neg : bool) (ds : list N) (p : Z) (rest : pystr) :
  significant ds -> delimited rest = true ->
  scan_unsigned neg (scientific ds p ++ rest)
  = Some (JFloat (mkFloat neg ds p), rest).
Proof.
  intros Hs Hr. pose proof (@delimited_no_digit _ Hr) as Hnd.
  pose proof Hs as (Hd & d & r & E & Hnz & Hlast). subst ds.
  unfold scientific, scan_unsigned. cbn [firstn skipn].
  rewrite <- !app_assoc.
  inversion Hd as [|? ? Hd0 Hdr]; subst.
  assert (no_digit (exponent_text (p - 1) ++ rest) = true) as Hne by reflexivity.
  rewrite scan_integer_part_chars.
  - destruct r as [|d' r'].
    + cbn [app]. rewrite scan_fraction_exponent.
      rewrite scan_exponent_text by assumption. unfold number_value.
      rewrite float_of_literal_padded
        with (ds := [d]) (p := p) (a := O) (b := O); auto.
      cbn [length]. lia.
    + cbn [app]. rewrite scan_fraction_some; auto; [|discriminate].
      rewrite scan_exponent_text by assumption. unfold number_value.
      rewrite float_of_literal_padded
        with (ds := d :: d' :: r') (p := p) (a := O) (b := O); auto.
      * cbn [app zeros repeat]. now rewrite app_nil_r.
      * cbn [length]. lia.
  - split; [repeat constructor; assumption | auto].
  - destruct r; reflexivity.
Qed.

Lemma chars_starts_value (l : list N) (rest : pystr) :
  digit_list l -> l <> [] -> starts_value (chars l ++ rest).
Proof.
  intros Hd Hl. destruct (@chars_head_not_minus l rest Hd Hl) as (c & t & E & _ & H1 & H2).
  exists c, t. auto.
Qed.

Lemma unsigned_float_head (ds : list N) (p : Z) (rest : pystr) :
  canonical_float (mkFloat false ds p) = true ->
  exists c t,
    (if ((-4 <? p) && (p <=? 16))%Z then positional ds p else scientific ds p)
    ++ rest = c :: t
    /\ (c =? 45)%N = false /\ is_ws c = false /\ (c =? 93)%N = false.
Proof.
  intros Hc. apply canonical_float_cases in Hc. cbn [f_digits f_decpt] in Hc.
  assert (digit_list ds /\ exists d r, ds = d :: r) as (Hd & d & r & E).
  { destruct Hc as [[-> _] | (Hd & d & r & E & _)]; [|eauto].
    split; [repeat constructor | eauto]. }
  destruct ((-4 <? p) && (p <=? 16))%Z.
  - unfold positional.
    destruct (p <=? 0)%Z eqn:E0; [|destruct (Z.of_nat (length ds) <=? p)%Z eqn:En].
    + exists 48%N. eexists. repeat split.
    + rewrite <- app_assoc. apply chars_head_not_minus.
      * apply Forall_app; split; [assumption | apply digit_list_zeros].
      * rewrite E. discriminate.
    + rewrite <- app_assoc. apply chars_head_not_minus.
      * rewrite <- (firstn_skipn (Z.to_nat p) ds) in Hd.
        apply Forall_app in Hd. tauto.
      * rewrite E. apply Z.leb_gt in E0.
        destruct (Z.to_nat p) eqn:Ep; [lia | discriminate].
  - unfold scientific. rewrite <- app_assoc. apply chars_head_not_minus.
    + subst ds. cbn [firstn]. inversion Hd; subst.
      repeat constructor; assumption.
    + rewrite E. discriminate.
Qed.

Lemma scan_number_float (f : pyfloat) (rest : pystr) :
  canonical_float f = true -> delimited rest = true ->
  scan_number (float_repr f ++ rest) = Some (JFloat f, rest).
Proof.
  intros Hc Hr. destruct f as [neg ds p].
  assert (scan_unsigned neg
            ((if ((-4 <? p) && (p <=? 16))%Z then positional ds p
              else scientific ds p) ++ rest)
          = Some (JFloat (mkFloat neg ds p), rest)) as Hbody.
  { destruct ((-4 <? p) && (p <=? 16))%Z eqn:Ep.
    - apply scan_unsigned_positional; assumption.
    - apply scan_unsigned_scientific; [|assumption].
      destruct (@canonical_float_cases _ Hc) as [[_ H1] | Hs]; [|exact Hs].
      cbn [f_decpt] in H1. subst p. discriminate. }
  unfold float_repr. cbn [f_neg f_digits f_decpt].
  destruct neg.
  - cbn [app scan_number]. change (45 =? 45)%N with true. cbv iota. exact Hbody.
  - cbn [app]. destruct (@unsigned_float_head ds p rest Hc) as (c & t & E & Hm & _).
    unfold scan_number. rewrite E, Hm, <- E. exact Hbody.
Qed.

Lemma float_repr_starts_value (f : pyfloat) (rest : pystr) :
  canonical_float f = true -> starts_value (float_repr f ++ rest).
Proof.
  intros Hc. destruct f as [neg ds p]. unfold float_repr.
  cbn [f_neg f_digits f_decpt]. destruct neg.
  - exists 45%N. eexists. repeat split.
  - cbn [app]. destruct (@unsigned_float_head ds p rest) as (c & t & E & _ & H1 & H2).
    + exact Hc.
    + exists c, t. auto.
Qed.

Lemma str_of_int_starts_value (z : Z) (rest : pystr) :
  starts_value (str_of_int z ++ rest).
Proof.
  unfold str_of_int. destruct (z <? 0)%Z.
  - exists 45%N. eexists. repeat split.
  - cbn [app]. apply chars_starts_value; [apply digits_of_N_digits|].
    destruct (digits_of_N_head (Z.abs_N z)) as (d & r & E & _). congruence.
Qed.

(* ------------------------------------------------------------------ *)
(** ** Decoding undoes encoding: documents *)

Lemma json_ind' (P : json -> Prop) :
  P JNull -> (forall b, P (JBool b)) -> (forall z, P (JInt z)) ->
  (forall f, P (JFloat f)) -> (forall s, P (JStr s)) ->
  (forall l, Forall P l -> P (JList l)) ->
  (forall l, Forall (fun kv => P (snd kv)) l -> P (JDict l)) ->
  forall v, P v.
Proof.
  intros Hnull Hbool Hint Hfloat Hstr Hlist Hdict.
  fix IH 1. intros [| b | z | f | s | l | l].
  - exact Hnull.
  - apply Hbool.
  - apply Hint.
  - apply Hfloat.
  - apply Hstr.
  - apply Hlist. induction l as [|x l IHl]; constructor; [apply IH | exact IHl].
  - apply Hdict. induction l as [|[k x] l IHl]; constructor; [apply IH | exact IHl].
Qed.

Lemma chars_head (l : list N) (rest : pystr) :
  digit_list l -> l <> [] ->
  exists c t, chars l ++ rest = c :: t /\ is_digit c = true.
Proof.
  intros Hl Hne. destruct l as [|d r]; [congruence|]. inversion Hl; subst.
  exists (digit_char d), (chars r ++ rest). split; [reflexivity|].
  apply is_digit_char. assumption.
Qed.

Lemma str_of_int_head (z : Z) (rest : pystr) :
  exists c t, str_of_int z ++ rest = c :: t /\ number_head c.
Proof.
  unfold str_of_int. destruct (z <? 0)%Z.
  - exists 45%N. eexists. split; [reflexivity | left; reflexivity].
  - cbn [app].
    destruct (@chars_head (digits_of_N (Z.abs_N z)) rest) as (c & t & E & Hc).
    + apply digits_of_N_digits.
    + destruct (digits_of_N_head (Z.abs_N z)) as (d & r & E & _). congruence.
    + exists c, t. split; [assumption | right; assumption].
Qed.

Lemma float_repr_head (f : pyfloat) (rest : pystr) :
  canonical_float f = true ->
  exists c t, float_repr f ++ rest = c :: t /\ number_head c.
Proof.
  intros Hc. destruct f as [neg ds p]. unfold float_repr.
  cbn [f_neg f_digits f_decpt]. destruct neg.
  - exists 45%N. eexists. split; [reflexivity | left; reflexivity].
  - cbn [app].
    apply canonical_float_cases in Hc. cbn [f_digits f_decpt] in Hc.
    assert (digit_list ds /\ exists d r, ds = d :: r) as (Hd & d & r & E).
    { destruct Hc as [[-> _] | (Hd & d & r & E & _)]; [|eauto].
      split; [repeat constructor | eauto]. }
    assert (forall l t, digit_list l -> l <> [] ->
              exists c t', chars l ++ t = c :: t' /\ number_head c) as Hch.
    { intros l t Hl Hne. destruct (@chars_head l t Hl Hne) as (c & t' & E' & Hc').
      exists c, t'. split; [assumption | right; assumption]. }
    destruct ((-4 <? p) && (p <=? 16))%Z.
    + unfold positional.
      destruct (p <=? 0)%Z eqn:E0; [|destruct (Z.of_nat (length ds) <=? p)%Z].
      * exists 48%N. eexists. split; [reflexivity | right; reflexivity].
      * rewrite <- app_assoc. apply Hch.
        -- apply Forall_app; split; [assumption | apply digit_list_zeros].
        -- rewrite E. discriminate.
      * rewrite <- app_assoc. apply Hch.
        -- rewrite <- (firstn_skipn (Z.to_nat p) ds) in Hd.
           apply Forall_app in Hd. tauto.
        -- rewrite E. apply Z.leb_gt in E0.
           destruct (Z.to_nat p) eqn:Ep; [lia | discriminate].
    + unfold scientific. rewrite <- app_assoc. apply Hch.
      * subst ds. cbn [firstn]. inversion Hd; subst.
        repeat constructor; assumption.
      * rewrite E. discriminate.
Qed.

Lemma number_head_facts (c : N) :
  number_head c ->
  (c =? 34)%N = false /\ (c =? 123)%N = false /\ (c =? 91)%N = false /\
  (110 =? c)%N = false /\ (116 =? c)%N = false /\ (102 =? c)%N = false /\
  is_ws c = false /\ (c =? 93)%N = false /\ (c =? 125)%N = false.
Proof.
  intros [-> | H]; [repeat split|].
  unfold is_digit in H. apply andb_true_iff in H as [H1 H2].
  apply N.leb_le in H1, H2. unfold is_ws.
  repeat split; repeat (apply orb_false_iff; split); apply N.eqb_neq; lia.
Qed.

Lemma scan_once_number (fuel : nat) (c : N) (t : pystr) :
  number_head c -> scan_once (S fuel) (c :: t) = scan_number (c :: t).
Proof.
  intros H. apply number_head_facts in H as (H1 & H2 & H3 & H4 & H5 & H6 & _).
  cbn [scan_once]. rewrite H1, H2, H3.
  cbn [py list_ascii_of_string map strip_prefix].
  change (N_of_ascii "n") with 110%N. change (N_of_ascii "t") with 116%N.
  change (N_of_ascii "f") with 102%N.
  now rewrite H4, H5, H6.
Qed.

Lemma joined_cons (A : Type) (f : A -> pystr) (x : A) (l : list A) :
  joined f (x :: l) = f x ++ tail_text f l.
Proof. destruct l; reflexivity. Qed.

Lemma tail_text_cons (A : Type) (f : A -> pystr) (x : A) (l : list A) :
  tail_text f (x :: l) = 44%N :: 32%N :: f x ++ tail_text f l.
Proof. unfold tail_text at 1. rewrite joined_cons. reflexivity. Qed.

Lemma tail_text_length (A : Type) (f : A -> pystr) (l : list A) :
  (length l <= length (tail_text f l))%nat.
Proof.
  induction l as [|x l IH]; [apply Nat.le_refl|].
  rewrite tail_text_cons. cbn [length]. rewrite length_app. lia.
Qed.

Lemma delimited_tail (A : Type) (f : A -> pystr) (l : list A) (close : N)
      (rest : pystr) :
  close = 93%N \/ close = 125%N ->
  delimited (tail_text f l ++ close :: rest) = true.
Proof.
  intros Hc. destruct l; [|rewrite tail_text_cons; reflexivity].
  destruct Hc; subst; reflexivity.
Qed.

Lemma skip_ws_space (text : pystr) : skip_ws (32%N :: text) = skip_ws text.
Proof. reflexivity. Qed.

Lemma skip_ws_value (text : pystr) :
  starts_value text -> skip_ws text = text.
Proof. intros (c & t & -> & Hc & _). cbn [skip_ws]. now rewrite Hc. Qed.

Section Items.

Variable scan : pystr -> option (json * pystr).

Lemma scan_array_rest_items (l : list json) (rest : pystr) (n : nat) :
  Forall (reads scan) l -> (length l < n)%nat ->
  scan_array_rest scan n (tail_text dumps l ++ 93%N :: rest) = Some (l, rest).
Proof.
  intros Hl. revert n. induction Hl as [|x l [Hx1 Hx2] Hl IH]; intros n Hn.
  - destruct n; [lia|]. reflexivity.
  - destruct n; [lia|]. rewrite tail_text_cons.
    cbn [app scan_array_rest skip_ws].
    change (is_ws 44) with false. change (is_ws 32) with true. cbv iota.
    change (44 =? 93)%N with false. change (44 =? 44)%N with true. cbv iota.
    rewrite skip_ws_space, <- app_assoc, skip_ws_value by apply Hx1.
    rewrite Hx2 by (apply delimited_tail; auto).
    rewrite IH by (cbn [length] in Hn; lia). reflexivity.
Qed.

Lemma scan_array_items (l : list json) (rest : pystr) :
  Forall (reads scan) l ->
  scan_array scan (joined dumps l ++ 93%N :: rest) = Some (JList l, rest).
Proof.
  intros Hl. destruct Hl as [|x l [Hx1 Hx2] Hl]; [reflexivity|].
  rewrite joined_cons, <- app_assoc. unfold scan_array.
  rewrite skip_ws_value by apply Hx1.
  destruct (Hx1 (tail_text dumps l ++ 93%N :: rest)) as (c & t & E & _ & Hc).
  rewrite E, Hc, <- E.
  rewrite Hx2 by (apply delimited_tail; auto).
  rewrite scan_array_rest_items; auto.
  rewrite length_app. pose proof (tail_text_length dumps l). cbn [length]. lia.
Qed.

Lemma scan_member_text (kv : pystr * json) (rest : pystr) :
  reads_member scan kv -> delimited rest = true ->
  scan_member scan (member_text kv ++ rest) = Some (kv, rest).
Proof.
  intros [Hk [Hv1 Hv2]] Hr. destruct kv as [k v]. cbn [fst snd] in *.
  unfold member_text, encode_basestring_ascii. cbn [fst snd].
  cbn [app scan_member]. change (34 =? 34)%N with true. cbv iota.
  rewrite <- !app_assoc. cbn [app].
  rewrite scanstring_encoded by assumption.
  cbn [py list_ascii_of_string map app skip_ws].
  change (N_of_ascii ":") with 58%N. change (N_of_ascii " ") with 32%N.
  change (is_ws 58) with false. change (is_ws 32) with true. cbv iota.
  change (58 =? 58)%N with true. cbv iota.
  rewrite skip_ws_space, skip_ws_value by apply Hv1.
  rewrite Hv2 by assumption. reflexivity.
Qed.

Lemma member_text_head (kv : pystr * json) (rest : pystr) :
  exists t, member_text kv ++ rest = 34%N :: t.
Proof. unfold member_text, encode_basestring_ascii. cbn [app]. eauto. Qed.

Lemma scan_object_rest_items (l : list (pystr * json)) (rest : pystr) (n : nat) :
  Forall (reads_member scan) l -> (length l < n)%nat ->
  scan_object_rest scan n (tail_text member_text l ++ 125%N :: rest)
  = Some (l, rest).
Proof.
  intros Hl. revert n. induction Hl as [|x l Hx Hl IH]; intros n Hn.
  - destruct n; [lia|]. reflexivity.
  - destruct n; [lia|]. rewrite tail_text_cons.
    cbn [app scan_object_rest skip_ws].
    change (is_ws 44) with false. change (is_ws 32) with true. cbv iota.
    change (44 =? 125)%N with false. change (44 =? 44)%N with true. cbv iota.
    rewrite skip_ws_space, <- app_assoc.
    destruct (member_text_head x (tail_text member_text l ++ 125%N :: rest))
      as (t & E).
    rewrite E. cbn [skip_ws]. change (is_ws 34) with false. cbv iota.
    rewrite <- E.
    rewrite scan_member_text by (auto; apply delimited_tail; auto).
    rewrite IH by (cbn [length] in Hn; lia). reflexivity.
Qed.

Lemma scan_object_items (l : list (pystr * json)) (rest : pystr) :
  Forall (reads_member scan) l ->
  scan_object scan (joined member_text l ++ 125%N :: rest)
  = Some (JDict (dict_of_pairs l), rest).
Proof.
  intros Hl. destruct Hl as [|x l Hx Hl]; [reflexivity|].
  rewrite joined_cons, <- app_assoc. unfold scan_object.
  destruct (member_text_head x (tail_text member_text l ++ 125%N :: rest))
    as (t & E).
  rewrite E. cbn [skip_ws]. change (is_ws 34) with false. cbv iota.
  change (34 =? 125)%N with false. cbv iota. rewrite <- E.
  rewrite scan_member_text by (auto; apply delimited_tail; auto).
  rewrite scan_object_rest_items; auto.
  rewrite length_app. pose proof (tail_text_length member_text l).
  cbn [length]. lia.
Qed.

End Items.

Lemma existsb_str_eqb_in (k : pystr) (l : list pystr) :
  existsb (str_eqb k) l = false -> ~ In k l.
Proof.
  intros H Hin. assert (existsb (str_eqb k) l = true) as Ht; [|congruence].
  apply existsb_exists. exists k. split; [assumption | apply str_eqb_refl].
Qed.

Lemma distinct_keys_nodup (l : list pystr) : distinct_keys l = true -> NoDup l.
Proof.
  induction l as [|k l IH]; intros H; [constructor|].
  cbn [distinct_keys] in H. apply andb_true_iff in H as [H1 H2].
  apply negb_true_iff in H1. constructor; auto using existsb_str_eqb_in.
Qed.

Lemma dict_set_fresh (k : pystr) (v : json) (d : list (pystr * json)) :
  ~ In k (map fst d) -> dict_set k v d = d ++ [(k, v)].
Proof.
  induction d as [|[k' v'] d IH]; intros H; [reflexivity|].
  cbn [dict_set]. cbn [map fst In] in H.
  destruct (str_eqb k' k) eqn:E.
  - apply str_eqb_eq in E. tauto.
  - cbn [app]. f_equal. apply IH. tauto.
Qed.

Lemma dict_of_pairs_fold (l acc : list (pystr * json)) :
  NoDup (map fst (acc ++ l)) ->
  fold_left (fun d kv => dict_set (fst kv) (snd kv) d) l acc = acc ++ l.
Proof.
  revert acc. induction l as [|[k v] l IH]; intros acc H.
  - now rewrite app_nil_r.
  - cbn [fold_left fst snd]. rewrite dict_set_fresh.
    + rewrite IH; rewrite <- app_assoc; [reflexivity | exact H].
    + rewrite map_app in H. cbn [map fst] in H.
      apply NoDup_remove_2 in H. intros Hin. apply H.
      apply in_or_app. left. assumption.
Qed.

Lemma dict_of_pairs_distinct (l : list (pystr * json)) :
  distinct_keys (map fst l) = true -> dict_of_pairs l = l.
Proof.
  intros H. unfold dict_of_pairs. rewrite dict_of_pairs_fold; [reflexivity|].
  apply distinct_keys_nodup. assumption.
Qed.

Lemma joined_length_in (A : Type) (f : A -> pystr) (x : A) (l : list A) :
  In x l -> (length (f x) <= length (joined f l))%nat.
Proof.
  induction l as [|y l IH]; [contradiction|].
  intros [-> | Hin]; rewrite joined_cons, length_app; [lia|].
  specialize (IH Hin). destruct l as [|z l]; [contradiction|].
  unfold tail_text. rewrite length_app. lia.
Qed.

Lemma dumps_list (l : list json) : dumps (JList l) = 91%N :: joined dumps l ++ [93%N].
Proof. reflexivity. Qed.

Lemma dumps_dict (l : list (pystr * json)) :
  dumps (JDict l) = 123%N :: joined member_text l ++ [125%N].
Proof. reflexivity. Qed.

Lemma scan_once_array (f : nat) (t : pystr) :
  scan_once (S f) (91%N :: t) = scan_array (scan_once f) t.
Proof. reflexivity. Qed.

Lemma scan_once_object (f : nat) (t : pystr) :
  scan_once (S f) (123%N :: t) = scan_object (scan_once f) t.
Proof. reflexivity. Qed.

Lemma number_starts_value (text : pystr) :
  (exists c t, text = c :: t /\ number_head c) -> starts_value text.
Proof.
  intros (c & t & E & H). exists c, t. split; [assumption|].
  apply number_head_facts in H. tauto.
Qed.

(** One value at the head of the text is read back, whatever delimiter
    follows it, as soon as the fuel covers its length. *)
Lemma scan_once_dumps (v : json) :
  wf_json v = true ->
  (forall rest, starts_value (dumps v ++ rest)) /\
  (forall fuel rest,
      (length (dumps v) <= fuel)%nat -> delimited rest = true ->
      scan_once fuel (dumps v ++ rest) = Some (v, rest)).
Proof.
  induction v as [| b | z | f | s | l IH | l IH] using json_ind'; intros Hwf.
  - split; [intros; exists 110%N; eexists; repeat split|].
    intros [|fuel] rest Hf Hr; [cbn in Hf; lia | reflexivity].
  - split; [intros; destruct b; eexists; eexists; repeat split|].
    intros [|fuel] rest Hf Hr; [destruct b; cbn in Hf; lia|].
    destruct b; reflexivity.
  - split; [intros; apply number_starts_value, str_of_int_head|].
    intros [|fuel] rest Hf Hr.
    + destruct (str_of_int_head z []) as (c & t & E & _).
      cbn [dumps] in Hf. rewrite app_nil_r in E. rewrite E in Hf. cbn in Hf. lia.
    + cbn [dumps]. destruct (str_of_int_head z rest) as (c & t & E & Hc).
      rewrite E, scan_once_number, <- E by assumption.
      apply scan_number_int. assumption.
  - cbn [wf_json] in Hwf.
    split; [intros; apply number_starts_value, float_repr_head; assumption|].
    intros [|fuel] rest Hf Hr.
    + destruct (@float_repr_head f [] Hwf) as (c & t & E & _).
      cbn [dumps] in Hf. rewrite app_nil_r in E. rewrite E in Hf. cbn in Hf. lia.
    + cbn [dumps]. destruct (@float_repr_head f rest Hwf) as (c & t & E & Hc).
      rewrite E, scan_once_number, <- E by assumption.
      apply scan_number_float; assumption.
  - cbn [wf_json] in Hwf.
    split; [intros; exists 34%N; eexists; repeat split|].
    intros [|fuel] rest Hf Hr; [cbn in Hf; lia|].
    cbn [dumps]. unfold encode_basestring_ascii. cbn [app scan_once].
    change (34 =? 34)%N with true. cbv iota.
    rewrite <- app_assoc. cbn [app].
    rewrite scanstring_encoded by assumption. reflexivity.
  - cbn [wf_json] in Hwf.
    split; [intros; exists 91%N; eexists; repeat split|].
    intros [|fuel] rest Hf Hr; [cbn in Hf; lia|].
    rewrite dumps_list in *. cbn [app]. rewrite <- app_assoc. cbn [app].
    rewrite scan_once_array. apply scan_array_items.
    apply Forall_forall. intros x Hx.
    rewrite Forall_forall in IH. rewrite forallb_forall in Hwf.
    destruct (IH x Hx (Hwf x Hx)) as [H1 H2]. split; [exact H1|].
    intros rest' Hr'. apply H2; [|assumption].
    pose proof (joined_length_in dumps x l Hx).
    cbn [length] in Hf. rewrite length_app in Hf. lia.
  - cbn [wf_json] in Hwf. apply andb_true_iff in Hwf as [Hwf Hkeys].
    split; [intros; exists 123%N; eexists; repeat split|].
    intros [|fuel] rest Hf Hr; [cbn in Hf; lia|].
    rewrite dumps_dict in *. cbn [app]. rewrite <- app_assoc. cbn [app].
    rewrite scan_once_object.
    rewrite scan_object_items, dict_of_pairs_distinct; auto.
    apply Forall_forall. intros kv Hkv.
    rewrite Forall_forall in IH. rewrite forallb_forall in Hwf.
    specialize (Hwf kv Hkv). apply andb_true_iff in Hwf as [Hk Hv].
    destruct (IH kv Hkv Hv) as [H1 H2]. split; [assumption|].
    split; [exact H1|].
    intros rest' Hr'. apply H2; [|assumption].
    pose proof (joined_length_in member_text kv l Hkv) as Hlen.
    unfold member_text at 1 in Hlen. rewrite !length_app in Hlen.
    cbn [length] in Hf. rewrite length_app in Hf. lia.
Qed.

(** [json.loads(json.dumps(v)) == v] *)
Lemma loads_dumps (v : json) : wf_json v = true -> loads (dumps v) = Some v.
Proof.
  intros Hwf. destruct (scan_once_dumps v Hwf) as [H1 H2].
  unfold loads. rewrite skip_ws_value.
  - rewrite <- (app_nil_r (dumps v)) at 2.
    rewrite H2 by (auto; reflexivity). reflexivity.
  - rewrite <- (app_nil_r (dumps v)). apply H1.
Qed.

Ltac simp :=
  cbn [db mailer tables auto_increment open_connections statement_log db_faults
       pending cursor_rows lastrowid fst snd smtp_faults outbox stdout
       users orders quiet andb orb negb] in *.

Ltac run :=
  unfold signup, login, create_order, get_user_orders, update_user_address,
    bind, ret, raise, try_finally, try_except_mysql, try_except,
    get_db_connection, cursor_execute, conn_commit, conn_close, next_fault,
    with_db, with_mailer, set_faults, set_tables, set_auto_increment,
    set_open_connections, log_statement in *;
  simp.

Ltac innermost x :=
  lazymatch x with
  | context [match _ with _ => _ end] => fail
  | _ => idtac
  end.

Ltac destruct_match :=
  match goal with
  | |- context [match ?x with _ => _ end] => innermost x; destruct x eqn:?
  | H : context [match ?x with _ => _ end] |- _ => innermost x; destruct x eqn:?
  end.

Ltac crush := repeat (simp; destruct_match); simp.

Lemma signup_releases (cfg : Config) (user : UserSignup.t) (w : World) :
  open_connections (db (snd (signup cfg user w))) = open_connections (db w).
Proof.
  destruct w as [[t ai oc log fs] m]. run. crush; reflexivity.
Qed.

(* ------------------------------------------------------------------ *)
(** ** The notification sender *)

Lemma format_items_run (items : list OrderItem.t) (w : World) :
  format_items items w
  = (if quantities_fit items then Return tt else Raise OverflowError, w).
Proof.
  induction items as [|i r IH]; [reflexivity|].
  cbn [format_items quantities_fit forallb].
  destruct (int_fits_float (OrderItem.quantity i)); [exact IH | reflexivity].
Qed.

(** The sender leaves the store alone, and what it returns depends on the
    configuration and on the quantities only. *)
Lemma send_order_notification_run (cfg : Config) (order_id : pystr)
      (total : pyfloat) (items : list OrderItem.t) (address : Address.t)
      (w : World) :
  exists m',
    send_order_notification cfg order_id total items address w
    = (if no_credential cfg || quantities_fit items
       then Return tt else Raise OverflowError,
       mkWorld (db w) m').
Proof.
  unfold send_order_notification, no_credential.
  destruct (negb (str_truthy (getenv cfg (py "SENDER_PASSWORD") []))).
  - eexists. reflexivity.
  - cbn [orb]. unfold send_message, bind. rewrite format_items_run.
    destruct (quantities_fit items); [|destruct w; eexists; reflexivity].
    destruct w as [d [sf ob so]].
    unfold try_except, smtp_call, print, with_mailer.
    crush; eexists; reflexivity.
Qed.

Lemma send_order_notification_skipped (cfg : Config) (order_id : pystr)
      (total : pyfloat) (items : list OrderItem.t) (address : Address.t)
      (w : World) :
  no_credential cfg = true ->
  send_order_notification cfg order_id total items address w
  = (Return tt,
     mkWorld (db w)
             (mkMailer (smtp_faults (mailer w)) (outbox (mailer w))
                       (stdout (mailer w) ++ [LogSkipped order_id]))).
Proof.
  unfold send_order_notification, no_credential. intros ->. reflexivity.
Qed.

(* ------------------------------------------------------------------ *)
(** ** Placing an order *)

#[local] Opaque dumps new_order_id.

Ltac notify :=
  match goal with
  | |- context [send_order_notification ?c ?i ?t ?it ?a ?w] =>
      let m := fresh "m" in
      destruct (send_order_notification_run c i t it a w) as [m ->]
  | H : context [send_order_notification ?c ?i ?t ?it ?a ?w] |- _ =>
      let m := fresh "m" in
      let E := fresh "E" in
      destruct (send_order_notification_run c i t it a w) as [m E];
      rewrite E in H; clear E
  end.

Ltac crush_order := repeat (simp; first [notify | destruct_match]); simp.

Ltac open_order :=
  run; unfold run_statement, takes_id, is_insert_user in *; cbn [andb] in *.

(** The answer of [create_order] and the store it leaves depend on the
    store it finds, not on the state of the mail relay. *)
Lemma create_order_store (cfg : Config) (order : OrderCreate.t) (d : Database) :
  exists r d', forall m, exists m',
    create_order cfg order (mkWorld d m) = (r, mkWorld d' m').
Proof.
  destruct d as [t ai oc log fs].
  destruct (insert_order (collation cfg) (server_clock cfg) (new_order_id cfg)
              (OrderCreate.user_id order) (OrderCreate.total order)
              (py "Delivered")
              (dumps (JList (map OrderItem.dict (OrderCreate.items order))))
              (dumps (Address.dict (OrderCreate.address order))) t) eqn:Ei;
  destruct (OrderCreate.user_id order) as [id|] eqn:Eu;
  try destruct (int_truthy id) eqn:Et;
  destruct (no_credential cfg || quantities_fit (OrderCreate.items order)) eqn:En;
  destruct fs as [|[e0|] [|[e1|] [|[e2|] [|[e3|] fs]]]];
  do 2 eexists; intros mail; open_order;
  rewrite ?Eu; rewrite ?Ei; rewrite ?Et; simp;
  repeat (simp; notify); rewrite ?En; simp; eexists; reflexivity.
Qed.

Lemma insert_order_inr (cfg : Config) (order : OrderCreate.t) (t t' : Tables) :
  insert_order (collation cfg) (server_clock cfg) (new_order_id cfg)
    (OrderCreate.user_id order) (OrderCreate.total order) (py "Delivered")
    (dumps (JList (map OrderItem.dict (OrderCreate.items order))))
    (dumps (Address.dict (OrderCreate.address order))) t = inr t' ->
  exists cents,
    decimal_10_2 (OrderCreate.total order) = Some cents /\
    t' = mkTables (users t) (orders t ++ [order_row cfg order cents]) /\
    references_user (OrderCreate.user_id order) t = true.
Proof.
  unfold insert_order. intros H.
  destruct (negb _); [discriminate|].
  destruct (decimal_10_2 (OrderCreate.total order)) as [cents|]; [|discriminate].
  destruct (existsb _ (orders t)); [discriminate|].
  destruct (references_user (OrderCreate.user_id order) t); [|discriminate].
  injection H as <-. exists cents. auto.
Qed.

(** What a placement that answers has stored. *)
Lemma create_order_returns (cfg : Config) (order : OrderCreate.t)
      (w w' : World) (resp : json) :
  create_order cfg order w = (Return resp, w') ->
  resp = order_placed cfg /\
  exists cents,
    decimal_10_2 (OrderCreate.total order) = Some cents /\
    orders (tables (db w'))
    = orders (tables (db w)) ++ [order_row cfg order cents] /\
    users (tables (db w'))
    = (if truthy_id (OrderCreate.user_id order)
       then map (set_address
                   (dumps (Address.dict (OrderCreate.address order)))
                   (match OrderCreate.user_id order with
                    | Some id => id | None => 0%Z end))
                (users (tables (db w)))
       else users (tables (db w))) /\
    references_user (OrderCreate.user_id order) (tables (db w)) = true.
Proof.
  intros H. destruct w as [[t ai oc log fs] m]. open_order.
  pose proof (@insert_order_inr cfg order t) as Hins.
  unfold truthy_id.
  destruct (OrderCreate.user_id order) as [id|] eqn:Eu;
    crush_order; try discriminate;
    injection H as <- <-; (split; [reflexivity|]);
    destruct (Hins _ eq_refl) as (cents & Hc & -> & Hr);
    exists cents; unfold update_address; simp; auto.
Qed.

(** A placement that fails on the store has stored nothing; the only other
    failure is the conversion of a quantity while the message is built. *)
Lemma create_order_raises (cfg : Config) (order : OrderCreate.t)
      (w w' : World) (e : exn) :
  create_order cfg order w = (Raise e, w') ->
  e = OverflowError \/
  ((exists err, e = MySQLError err \/ e = HTTPException 500 (msg err)) /\
   tables (db w') = tables (db w)).
Proof.
  intros H. destruct w as [[t ai oc log fs] m]. open_order.
  destruct (OrderCreate.user_id order) as [id|] eqn:Eu;
    crush_order; try discriminate;
    injection H as <- <-; simp; eauto.
Qed.

(** The statements one placement sends. *)
Lemma create_order_statements (cfg : Config) (order : OrderCreate.t) (w : World) :
  exists issued,
    statement_log (db (snd (create_order cfg order w)))
    = statement_log (db w) ++ issued /\
    existsb is_update_address issued
    = truthy_id (OrderCreate.user_id order)
      && quiet 2 (db_faults (db w))
      && store_accepts cfg order (tables (db w)).
Proof.
  destruct w as [[t ai oc log fs] m]. unfold store_accepts, truthy_id.
  open_order.
  destruct (OrderCreate.user_id order) as [id|] eqn:Eu;
    crush_order; rewrite <- ?app_assoc;
    (first [ exists []; split; [now rewrite app_nil_r|]
           | eexists; split; [reflexivity|] ]);
    cbn [existsb is_update_address app orb];
    rewrite ?andb_false_r; reflexivity.
Qed.

(** With no failure of the driver, a row the store takes and a message that
    can be built, the placement answers with the new id. *)
Lemma create_order_succeeds (cfg : Config) (order : OrderCreate.t) (w : World) :
  quiet (if truthy_id (OrderCreate.user_id order) then 4 else 3)
        (db_faults (db w)) = true ->
  store_accepts cfg order (tables (db w)) = true ->
  no_credential cfg || quantities_fit (OrderCreate.items order) = true ->
  fst (create_order cfg order w) = Return (order_placed cfg).
Proof.
  destruct w as [[t ai oc log fs] m]. unfold store_accepts, truthy_id.
  intros Hq Ha Hn. open_order.
  destruct (OrderCreate.user_id order) as [id|] eqn:Eu;
    crush_order; try discriminate; try reflexivity; congruence.
Qed.

(** An order without a truthy user id leaves the users as they are. *)
Lemma create_order_users (cfg : Config) (order : OrderCreate.t) (w : World) :
  truthy_id (OrderCreate.user_id order) = false ->
  users (tables (db (snd (create_order cfg order w)))) = users (tables (db w)).
Proof.
  destruct w as [[t ai oc log fs] m]. unfold truthy_id.
  pose proof (@insert_order_inr cfg order t) as Hins.
  intros Hu. open_order.
  destruct (OrderCreate.user_id order) as [id|] eqn:Eu;
    crush_order; try discriminate; try reflexivity;
    destruct (Hins _ eq_refl) as (cents & Hc & -> & Hr); reflexivity.
Qed.

(** A failure of the driver at the second or third call. *)
Lemma create_order_aborts (cfg : Config) (order : OrderCreate.t) (w : World)
      (e : mysql_error) (fs : list (option mysql_error)) :
  db_faults (db w) = None :: Some e :: fs \/
  (db_faults (db w) = None :: None :: Some e :: fs /\
   store_accepts cfg order (tables (db w)) = true) ->
  fst (create_order cfg order w) = Raise (HTTPException 500 (msg e)) /\
  tables (db (snd (create_order cfg order w))) = tables (db w).
Proof.
  destruct w as [[t ai oc log fs0] m]. unfold store_accepts. simp.
  intros [-> | [-> Ha]]; open_order;
    destruct (OrderCreate.user_id order) as [id|] eqn:Eu;
    crush_order; try discriminate; split; reflexivity.
Qed.

Lemma create_order_rejected (cfg : Config) (order : OrderCreate.t) (w : World)
      (e : mysql_error) :
  quiet 2 (db_faults (db w)) = true ->
  insert_order (collation cfg) (server_clock cfg) (new_order_id cfg)
    (OrderCreate.user_id order) (OrderCreate.total order) (py "Delivered")
    (dumps (JList (map OrderItem.dict (OrderCreate.items order))))
    (dumps (Address.dict (OrderCreate.address order))) (tables (db w)) = inl e ->
  fst (create_order cfg order w) = Raise (HTTPException 500 (msg e)) /\
  tables (db (snd (create_order cfg order w))) = tables (db w).
Proof.
  destruct w as [[t ai oc log fs0] m]. simp.
  intros Hq Hi. open_order.
  destruct (OrderCreate.user_id order) as [id|] eqn:Eu;
    crush_order; try discriminate; injection Hi as ->; split; reflexivity.
Qed.

Lemma create_order_releases (cfg : Config) (order : OrderCreate.t) (w : World) :
  open_connections (db (snd (create_order cfg order w)))
  = open_connections (db w).
Proof.
  destruct w as [[t ai oc log fs] m]. open_order.
  destruct (OrderCreate.user_id order) as [id|] eqn:Eu;
    crush_order; reflexivity.
Qed.

(* ------------------------------------------------------------------ *)
(** ** Signing up and logging in *)

Lemma insert_user_inr (cfg : Config) (id : Z) (user : UserSignup.t)
      (t t' : Tables) :
  insert_user (collation cfg) (server_clock cfg) id (UserSignup.name user)
              (UserSignup.email user) (UserSignup.password user) t = inr t' ->
  users_with_email cfg (UserSignup.email user) t = [] /\
  t' = mkTables (users t ++ [user_row cfg id user]) (orders t).
Proof.
  unfold insert_user, users_with_email. intros H.
  destruct (negb _); [discriminate|].
  destruct (existsb _ (users t)) eqn:E; [discriminate|].
  injection H as <-. split; [|reflexivity].
  induction (users t) as [|u l IH]; [reflexivity|].
  cbn [existsb filter] in *. apply orb_false_iff in E as [E1 E2].
  rewrite E1. auto.
Qed.

Lemma insert_user_duplicate (cfg : Config) (id : Z) (user : UserSignup.t)
      (t : Tables) :
  users_with_email cfg (UserSignup.email user) t <> [] ->
  fits 255 (UserSignup.name user) && fits 255 (UserSignup.email user)
  && fits 255 (UserSignup.password user) = true ->
  exists text,
    insert_user (collation cfg) (server_clock cfg) id (UserSignup.name user)
                (UserSignup.email user) (UserSignup.password user) t
    = inl (mkError ER_DUP_ENTRY text).
Proof.
  unfold insert_user, users_with_email. intros H ->. cbn [negb].
  destruct (existsb _ (users t)) eqn:E; [eauto|].
  exfalso. apply H. clear H.
  induction (users t) as [|u l IH]; [reflexivity|].
  cbn [existsb filter] in *. apply orb_false_iff in E as [E1 E2].
  rewrite E1. auto.
Qed.

Lemma insert_user_fits (cfg : Config) (id : Z) (user : UserSignup.t)
      (t t' : Tables) :
  insert_user (collation cfg) (server_clock cfg) id (UserSignup.name user)
              (UserSignup.email user) (UserSignup.password user) t = inr t' ->
  fits 255 (UserSignup.name user) && fits 255 (UserSignup.email user)
  && fits 255 (UserSignup.password user) = true.
Proof.
  unfold insert_user. intros H.
  destruct (fits 255 (UserSignup.name user) && fits 255 (UserSignup.email user)
            && fits 255 (UserSignup.password user)); [reflexivity | discriminate].
Qed.

Ltac open_signup :=
  run; unfold run_statement, takes_id, is_insert_user in *; cbn [andb] in *.

(** What a sign-up that answers has stored. *)
Lemma signup_returns (cfg : Config) (user : UserSignup.t) (w w' : World)
      (resp : json) :
  signup cfg user w = (Return resp, w') ->
  users_with_email cfg (UserSignup.email user) (tables (db w)) = [] /\
  tables (db w')
  = mkTables (users (tables (db w))
              ++ [user_row cfg (auto_increment (db w)) user])
             (orders (tables (db w))) /\
  fits 255 (UserSignup.name user) && fits 255 (UserSignup.email user)
  && fits 255 (UserSignup.password user) = true.
Proof.
  intros H. destruct w as [[t ai oc log fs] m].
  pose proof (@insert_user_inr cfg ai user t) as Hins.
  pose proof (@insert_user_fits cfg ai user t) as Hfit.
  open_signup.
  crush; try discriminate; injection H as <- <-;
    pose proof (Hfit _ eq_refl);
    destruct (Hins _ eq_refl) as [H1 ->]; simp; auto.
Qed.

Lemma insert_user_inl_duplicate (cfg : Config) (id : Z) (user : UserSignup.t)
      (t : Tables) (e : mysql_error) :
  insert_user (collation cfg) (server_clock cfg) id (UserSignup.name user)
              (UserSignup.email user) (UserSignup.password user) t = inl e ->
  (errno e =? ER_DUP_ENTRY)%Z = true ->
  users_with_email cfg (UserSignup.email user) t <> [].
Proof.
  unfold insert_user, users_with_email. intros H He.
  destruct (negb _); [injection H as <-; discriminate|].
  destruct (existsb _ (users t)) eqn:E; [|discriminate].
  apply existsb_exists in E as (u & Hu & Hs). intros Hnil.
  assert (In u (filter (fun u => same_text (collation cfg) (u_email u)
                                   (UserSignup.email user)) (users t))) as Hin
    by (apply filter_In; auto).
  rewrite Hnil in Hin. contradiction.
Qed.

(** A sign-up that fails has stored nothing, and it answers 400 only when a
    duplicate key was reported. *)
Lemma signup_raises (cfg : Config) (user : UserSignup.t) (w w' : World)
      (e : exn) :
  signup cfg user w = (Raise e, w') ->
  tables (db w') = tables (db w) /\
  ((e = HTTPException 400 (py "Email already registered") /\
    duplicate_reported cfg (UserSignup.email user) w)
   \/ status_of (@Raise json e) = 500%Z).
Proof.
  intros H. destruct w as [[t ai oc log fs] m].
  pose proof (@insert_user_inl_duplicate cfg ai user t) as Hdup.
  unfold duplicate_reported. open_signup.
  crush; try discriminate; injection H as <- <-; simp;
    (split; [reflexivity|]); auto;
    left; (split; [reflexivity|]);
    first [ left; eapply Hdup; [reflexivity | assumption]
          | right; eexists; split;
            [cbn [In]; eauto | apply Z.eqb_eq; assumption] ].
Qed.

Lemma signup_connect_fails (cfg : Config) (user : UserSignup.t) (w : World)
      (e : mysql_error) (fs : list (option mysql_error)) :
  db_faults (db w) = Some e :: fs ->
  fst (signup cfg user w) = Raise (MySQLError e).
Proof.
  destruct w as [[t ai oc log fs0] m]. simp. intros ->. reflexivity.
Qed.

(** Signing up with an email that is stored. *)
Lemma signup_duplicate (cfg : Config) (user : UserSignup.t) (w : World) :
  users_with_email cfg (UserSignup.email user) (tables (db w)) <> [] ->
  fits 255 (UserSignup.name user) && fits 255 (UserSignup.email user)
  && fits 255 (UserSignup.password user) = true ->
  quiet 2 (db_faults (db w)) = true ->
  fst (signup cfg user w)
  = Raise (HTTPException 400 (py "Email already registered")).
Proof.
  intros Hd Hf Hq. destruct w as [[t ai oc log fs] m]. simp.
  destruct (@insert_user_duplicate cfg ai user t Hd Hf) as [text Hi].
  open_signup.
  crush; try discriminate; try reflexivity;
    injection Hi as ->; cbn in *; discriminate.
Qed.

Ltac open_login :=
  run; unfold run_statement, takes_id, is_insert_user, fetchone_user,
         fetchall_orders, json_loads, ret, raise in *;
  cbn [andb] in *.

(** A login that answers found a stored user with this email and exactly
    this password. *)
Lemma login_returns (cfg : Config) (user : UserLogin.t) (w w' : World)
      (resp : json) :
  login cfg user w = (Return resp, w') ->
  exists r,
    In r (users (tables (db w))) /\
    same_text (collation cfg) (u_email r) (UserLogin.email user) = true /\
    u_password r = UserLogin.password user.
Proof.
  intros H. destruct w as [[t ai oc log fs] m]. open_login.
  crush; try discriminate;
    match goal with
    | E : filter _ _ = ?r :: _ |- _ =>
        exists r;
        assert (In r (r :: nil)) as Hin by (left; reflexivity);
        pose proof (in_eq r) as Hhead;
        match type of E with
        | filter ?p ?l = r :: ?rest =>
            specialize (Hhead rest); rewrite <- E in Hhead;
            apply filter_In in Hhead as [H1 H2]
        end
    end;
    repeat split; auto; apply str_eqb_eq; assumption.
Qed.

(** Without a failure of the driver, a login whose password differs from
    the stored one is refused. *)
Lemma login_rejects (cfg : Config) (user : UserLogin.t) (w : World) :
  quiet 2 (db_faults (db w)) = true ->
  (forall r, In r (users (tables (db w))) ->
             same_text (collation cfg) (u_email r) (UserLogin.email user) = true ->
             u_password r <> UserLogin.password user) ->
  fst (login cfg user w) = Raise (HTTPException 401 (py "Invalid credentials")).
Proof.
  intros Hq Hne. destruct w as [[t ai oc log fs] m]. open_login.
  crush; try discriminate; try reflexivity; exfalso;
    match goal with
    | E : filter ?p ?l = ?r :: ?rest |- _ =>
        pose proof (in_eq r rest) as Hhead; rewrite <- E in Hhead;
        apply filter_In in Hhead as [H1 H2];
        apply (Hne r H1 H2); apply str_eqb_eq; assumption
    end.
Qed.

(** When the statement of [login] fails, the connection stays open. *)
Lemma login_leaks (cfg : Config) (user : UserLogin.t) (w : World)
      (e : mysql_error) (fs : list (option mysql_error)) :
  db_faults (db w) = None :: Some e :: fs ->
  fst (login cfg user w) = Raise (MySQLError e) /\
  open_connections (db (snd (login cfg user w))) = S (open_connections (db w)).
Proof.
  destruct w as [[t ai oc log fs0] m]. simp. intros ->. split; reflexivity.
Qed.

Lemma get_user_orders_leaks (cfg : Config) (user_id : Z) (w : World)
      (e : mysql_error) (fs : list (option mysql_error)) :
  db_faults (db w) = None :: Some e :: fs ->
  fst (get_user_orders cfg user_id w) = Raise (MySQLError e) /\
  open_connections (db (snd (get_user_orders cfg user_id w)))
  = S (open_connections (db w)).
Proof.
  destruct w as [[t ai oc log fs0] m]. simp. intros ->. split; reflexivity.
Qed.

(* ------------------------------------------------------------------ *)
(** ** Updating the address *)

Lemma set_address_missing (address : pystr) (id : Z) (l : list UserRow) :
  existsb (fun u => (u_id u =? id)%Z) l = false ->
  map (set_address address id) l = l.
Proof.
  induction l as [|u l IH]; [reflexivity|].
  cbn [existsb map]. intros H. apply orb_false_iff in H as [H1 H2].
  unfold set_address at 1. rewrite H1, IH by assumption. reflexivity.
Qed.

Lemma update_address_missing (address : pystr) (id : Z) (t : Tables) :
  has_user id t = false -> update_address address id t = t.
Proof.
  unfold has_user, update_address. intros H.
  rewrite set_address_missing by assumption. destruct t; reflexivity.
Qed.

Lemma update_user_address_missing (cfg : Config) (data : AddressUpdate.t)
      (w : World) :
  has_user (AddressUpdate.user_id data) (tables (db w)) = false ->
  tables (db (snd (update_user_address cfg data w))) = tables (db w).
Proof.
  destruct w as [[t ai oc log fs] m]. simp. intros H. open_login.
  crush; try reflexivity; apply update_address_missing; assumption.
Qed.

Lemma update_user_address_succeeds (cfg : Config) (data : AddressUpdate.t)
      (w : World) :
  quiet 3 (db_faults (db w)) = true ->
  fst (update_user_address cfg data w)
  = Return (JDict [(py "message", JStr (py "Addresses updated successfully"))]).
Proof.
  destruct w as [[t ai oc log fs] m]. simp. intros H. open_login.
  crush; try discriminate; reflexivity.
Qed.

Lemma update_user_address_releases (cfg : Config) (data : AddressUpdate.t)
      (w : World) :
  open_connections (db (snd (update_user_address cfg data w)))
  = open_connections (db w).
Proof.
  destruct w as [[t ai oc log fs] m]. open_login. crush; reflexivity.
Qed.

(* ------------------------------------------------------------------ *)
(** ** Listing the orders of a user *)

Lemma order_entry_run (row : OrderRow) (w : World) :
  order_entry row w
  = (match loads (o_items row), loads (o_address row) with
     | Some items, Some address => Return (listed row items address)
     | _, _ => Raise JSONDecodeError
     end, w).
Proof.
  unfold order_entry, json_loads, bind, ret, raise.
  destruct (loads (o_items row)); [|reflexivity].
  destruct (loads (o_address row)); reflexivity.
Qed.

Lemma order_entries_world (l : list OrderRow) (w : World) :
  snd (order_entries l w) = w.
Proof.
  induction l as [|row l IH]; [reflexivity|].
  cbn [order_entries]. unfold bind. rewrite order_entry_run.
  destruct (loads (o_items row)); [|reflexivity].
  destruct (loads (o_address row)); [|reflexivity].
  destruct (order_entries l w) as [[es|e] w1] eqn:E; cbn [snd] in *; auto.
Qed.

(** Every row of a listing that is returned appears in it, decoded. *)
Lemma order_entries_returns (l : list OrderRow) (w w' : World) (es : list json)
      (row : OrderRow) :
  order_entries l w = (Return es, w') -> In row l ->
  exists items address,
    loads (o_items row) = Some items /\
    loads (o_address row) = Some address /\
    In (listed row items address) es.
Proof.
  revert es w'. induction l as [|x l IH]; intros es w' H Hin; [contradiction|].
  cbn [order_entries] in H. unfold bind in H. rewrite order_entry_run in H.
  destruct (loads (o_items x)) as [i|] eqn:Ei; [|discriminate].
  destruct (loads (o_address x)) as [a|] eqn:Ea; [|discriminate].
  destruct (order_entries l w) as [[es'|e] w1] eqn:E; [|discriminate].
  unfold ret in H. injection H as <- <-.
  destruct Hin as [<- | Hin].
  - exists i, a. repeat split; auto. left. reflexivity.
  - destruct (IH _ _ eq_refl Hin) as (i' & a' & H1 & H2 & H3).
    exists i', a'. repeat split; auto. right. assumption.
Qed.

Lemma order_entries_decodable (l : list OrderRow) (w : World) :
  forallb decodable l = true ->
  exists es, order_entries l w = (Return es, w).
Proof.
  induction l as [|x l IH]; intros H; [exists []; reflexivity|].
  cbn [forallb] in H. apply andb_true_iff in H as [Hx Hl].
  destruct (IH Hl) as [es E].
  cbn [order_entries]. unfold bind. rewrite order_entry_run.
  unfold decodable in Hx.
  destruct (loads (o_items x)); [|discriminate].
  destruct (loads (o_address x)); [|discriminate].
  rewrite E. eexists. reflexivity.
Qed.

Lemma insert_desc_in (r x : OrderRow) (l : list OrderRow) :
  In x (insert_desc r l) <-> x = r \/ In x l.
Proof.
  induction l as [|y l IH]; cbn [insert_desc].
  - cbn. intuition.
  - destruct (sort_key (o_created_at y) <=? sort_key (o_created_at r))%N;
      cbn [In]; [intuition|]. rewrite IH. intuition.
Qed.

Lemma order_by_created_at_desc_in (x : OrderRow) (l : list OrderRow) :
  In x (order_by_created_at_desc l) <-> In x l.
Proof.
  unfold order_by_created_at_desc. induction l as [|y l IH]; [reflexivity|].
  cbn [fold_right]. rewrite insert_desc_in, IH. cbn. intuition.
Qed.

Lemma selected_in (user_id : Z) (row : OrderRow) (l : list OrderRow) :
  In row l -> o_user_id row = Some user_id ->
  In row (order_by_created_at_desc (filter (owned_by user_id) l)).
Proof.
  intros Hin Hu. apply order_by_created_at_desc_in, filter_In.
  split; [assumption|]. unfold owned_by. rewrite Hu. apply Z.eqb_refl.
Qed.

(** A listing that is returned holds every stored order of the user. *)
Lemma get_user_orders_returns (cfg : Config) (user_id : Z) (w w' : World)
      (listing : json) (row : OrderRow) :
  get_user_orders cfg user_id w = (Return listing, w') ->
  In row (orders (tables (db w))) -> o_user_id row = Some user_id ->
  exists l items address,
    listing = JList l /\
    loads (o_items row) = Some items /\
    loads (o_address row) = Some address /\
    In (listed row items address) l.
Proof.
  intros H Hin Hu. destruct w as [[t ai oc log fs] m]. simp.
  pose proof (@selected_in user_id row (orders t) Hin Hu) as Hsel.
  open_login.
  crush; try discriminate; injection H as <- <-; subst;
    match goal with
    | E : order_entries _ _ = (Return ?es, _) |- _ =>
        let i := fresh "i" in
        let a := fresh "a" in
        let K := fresh "K" in
        destruct (@order_entries_returns _ _ _ _ row E Hsel) as (i & a & K);
        exists es, i, a; split; [reflexivity | exact K]
    end.
Qed.

(** Without a failure of the driver, and when the stored orders of the user
    decode, the listing is returned. *)
Lemma get_user_orders_answers (cfg : Config) (user_id : Z) (w : World) :
  quiet 2 (db_faults (db w)) = true ->
  forallb decodable (filter (owned_by user_id) (orders (tables (db w)))) = true ->
  exists l w', get_user_orders cfg user_id w = (Return (JList l), w').
Proof.
  intros Hq Hd. destruct w as [[t ai oc log fs] m]. simp.
  assert (forall w0, exists es,
            order_entries (order_by_created_at_desc
                             (filter (owned_by user_id) (orders t))) w0
            = (Return es, w0)) as Hes.
  { intros w0. apply order_entries_decodable. apply forallb_forall.
    intros x Hx. apply (proj1 (order_by_created_at_desc_in _ _)) in Hx.
    exact (proj1 (forallb_forall _ _) Hd x Hx). }
  open_login.
  destruct fs as [|[e|] [|[e'|] fs]]; simp; try discriminate;
    match goal with
    | |- context [order_entries ?l ?w0] =>
        destruct (Hes w0) as [es ->]; simp; eauto
    end.
Qed.

(* ------------------------------------------------------------------ *)
(** ** The order id *)

Lemma N_of_digits_concat (a b : list N) :
  N_of_digits (a ++ b)
  = (N_of_digits a * 10 ^ N.of_nat (length b) + N_of_digits b)%N.
Proof.
  induction b as [|x b IH] using rev_ind.
  - rewrite app_nil_r. unfold N_of_digits at 3. cbn. lia.
  - rewrite app_assoc, !N_of_digits_app, IH, length_app. cbn [length].
    rewrite Nat.add_1_r, Nat2N.inj_succ, N.pow_succ_r'. nia.
Qed.

Lemma digits_value_app (a b : pystr) :
  digits_value (a ++ b)
  = (digits_value a * 10 ^ N.of_nat (length b) + digits_value b)%N.
Proof.
  unfold digits_value. rewrite map_app, N_of_digits_concat, length_map.
  reflexivity.
Qed.

Lemma pad2_value (n : N) : (n < 100)%N -> digits_value (pad2 n) = n.
Proof.
  intros H. unfold digits_value, pad2, N_of_digits.
  cbn [map fold_left]. rewrite !digit_char_value. dlia.
Qed.

Lemma pad4_value (n : N) : (n < 10000)%N -> digits_value (pad4 n) = n.
Proof.
  intros H. unfold digits_value, pad4, N_of_digits.
  cbn [map fold_left]. rewrite !digit_char_value. dlia.
Qed.

Lemma is_digit_mod (n : N) : is_digit (digit_char (n mod 10)) = true.
Proof. apply is_digit_char. apply N.mod_lt. discriminate. Qed.

Lemma strftime_compact_length (d : datetime) : length (strftime_compact d) = 14%nat.
Proof. reflexivity. Qed.

Lemma strftime_compact_digits (d : datetime) :
  forallb is_digit (strftime_compact d) = true.
Proof.
  unfold strftime_compact, pad4, pad2. cbn [app forallb].
  rewrite !is_digit_mod. reflexivity.
Qed.

Lemma strftime_compact_value (d : datetime) :
  valid_datetime d = true ->
  digits_value (strftime_compact d) = compact_number d.
Proof.
  unfold valid_datetime. intros H.
  repeat (apply andb_true_iff in H; destruct H as [H ?]).
  repeat match goal with
         | K : (_ <=? _)%N = true |- _ => apply N.leb_le in K
         end.
  unfold strftime_compact, compact_number.
  rewrite !digits_value_app.
  rewrite pad4_value by lia. rewrite !pad2_value by lia.
  cbn [length pad2 app]. change (N.of_nat 2) with 2%N.
  change (N.of_nat 4) with 4%N. change (N.of_nat 6) with 6%N.
  change (N.of_nat 8) with 8%N. change (N.of_nat 10) with 10%N.
  change (10 ^ 2)%N with 100%N. change (10 ^ 4)%N with 10000%N.
  change (10 ^ 6)%N with 1000000%N. change (10 ^ 8)%N with 100000000%N.
  change (10 ^ 10)%N with 10000000000%N. lia.
Qed.

Lemma new_order_id_format (cfg : Config) :
  valid_datetime (wall_clock cfg) = true ->
  exists digits,
    new_order_id cfg = py "ORD" ++ digits /\
    length digits = 14%nat /\
    forallb is_digit digits = true /\
    digits_value digits = compact_number (wall_clock cfg).
Proof.
  intros H. exists (strftime_compact (wall_clock cfg)).
  split; [reflexivity|].
  auto using strftime_compact_length, strftime_compact_digits,
    strftime_compact_value.
Qed.

(* ------------------------------------------------------------------ *)
(** ** Amounts with two decimals *)

Lemma digits_fuel_indep (f1 f2 : nat) (n : N) :
  (n < 2 ^ N.of_nat f1)%N -> (n < 2 ^ N.of_nat f2)%N ->
  digits_fuel f1 n [] = digits_fuel f2 n [].
Proof.
  revert f2 n. induction f1 as [|f1 IH]; intros f2 n H1 H2.
  - cbn in H1. assert (n = 0%N) by lia. subst. destruct f2; reflexivity.
  - destruct f2 as [|f2].
    + cbn in H2. assert (n = 0%N) by lia. subst. reflexivity.
    + cbn [digits_fuel]. destruct (N.ltb_spec n 10); [reflexivity|].
      rewrite digits_fuel_app, (digits_fuel_app f2). f_equal.
      rewrite Nat2N.inj_succ, N.pow_succ_r' in H1, H2.
      apply IH; apply N.Div0.div_lt_upper_bound.
      * remember (2 ^ N.of_nat f1)%N as X. clear HeqX. lia.
      * remember (2 ^ N.of_nat f2)%N as X. clear HeqX. lia.
Qed.

Lemma digits_of_N_small (n : N) : (n < 10)%N -> digits_of_N n = [n].
Proof.
  intros H. unfold digits_of_N.
  destruct (N.to_nat (N.size n)); cbn [digits_fuel]; [reflexivity|].
  apply N.ltb_lt in H. now rewrite H.
Qed.

Lemma digits_of_N_step (n : N) :
  (10 <= n)%N -> digits_of_N n = digits_of_N (n / 10) ++ [(n mod 10)%N].
Proof.
  intros H. unfold digits_of_N.
  pose proof (N.size_gt n) as Hs. rewrite <- (N2Nat.id (N.size n)) in Hs.
  destruct (N.to_nat (N.size n)) as [|f] eqn:E.
  - cbn in Hs. lia.
  - cbn [digits_fuel]. apply N.ltb_ge in H. rewrite H.
    rewrite digits_fuel_app. f_equal.
    apply digits_fuel_indep.
    + rewrite Nat2N.inj_succ, N.pow_succ_r' in Hs.
      apply N.Div0.div_lt_upper_bound.
      remember (2 ^ N.of_nat f)%N as X. clear HeqX. lia.
    + rewrite N2Nat.id. apply N.size_gt.
Qed.

Lemma N_of_digits_positive (d : N) (r : list N) :
  d <> 0%N -> (0 < N_of_digits (d :: r))%N.
Proof.
  intros H. change (d :: r) with ([d] ++ r). rewrite N_of_digits_concat.
  unfold N_of_digits at 1. cbn [fold_left].
  assert (0 < 10 ^ N.of_nat (length r))%N by (apply N.neq_0_lt_0, N.pow_nonzero; discriminate).
  nia.
Qed.

(** The digits of a number are the only digit string without a leading
    zero that writes it. *)
Lemma digits_of_N_unique (l : list N) :
  digit_list l -> (exists d r, l = d :: r /\ d <> 0%N) ->
  digits_of_N (N_of_digits l) = l.
Proof.
  induction l as [|x l IH] using rev_ind; intros Hd (d & r & E & Hnz).
  - discriminate.
  - apply Forall_app in Hd as [Hl Hx]. inversion Hx as [|? ? Hx10 _]; subst.
    rewrite N_of_digits_app.
    destruct l as [|d' l'].
    + cbn [app] in E. injection E as <- <-.
      unfold N_of_digits. cbn [fold_left].
      replace (10 * 0 + x)%N with x by lia. apply digits_of_N_small. assumption.
    + cbn [app] in E. injection E as <- _.
      pose proof (@N_of_digits_positive d' l' Hnz) as Hpos.
      rewrite digits_of_N_step by lia.
      replace ((10 * N_of_digits (d' :: l') + x) / 10)%N
        with (N_of_digits (d' :: l')) by dlia.
      replace ((10 * N_of_digits (d' :: l') + x) mod 10)%N with x by dlia.
      rewrite IH; eauto.
Qed.

Lemma N_of_digits_zeros (l : list N) (k : nat) :
  N_of_digits (l ++ zeros k) = (N_of_digits l * 10 ^ N.of_nat k)%N.
Proof.
  rewrite N_of_digits_concat. unfold zeros at 1. rewrite repeat_length.
  assert (N_of_digits (zeros k) = 0%N) as ->; [|lia].
  induction k as [|k IH]; [reflexivity|].
  change (zeros (S k)) with (0%N :: zeros k).
  rewrite N_of_digits_leading_zero. exact IH.
Qed.

(** An amount with at most two decimals that fits the column is read back
    as it was written. *)
Lemma float_of_hundredths_exact (f : pyfloat) (cents : Z) :
  two_decimals f = true -> decimal_10_2 f = Some cents ->
  float_of_hundredths cents = f.
Proof.
  unfold two_decimals, decimal_10_2. intros H Hc.
  apply andb_true_iff in H as [H Hz]. apply andb_true_iff in H as [Hcan H2].
  apply Z.leb_le in H2. destruct f as [neg ds p].
  cbn [f_neg f_digits f_decpt] in *.
  destruct (Z.leb_spec 0 (p + 2 - Z.of_nat (length ds))); [|lia].
  destruct (_ <=? 9999999999)%Z; [|discriminate]. injection Hc as <-.
  set (k := (p + 2 - Z.of_nat (length ds))%Z) in *.
  apply canonical_float_cases in Hcan. cbn [f_digits f_decpt] in Hcan.
  destruct Hcan as [[-> ->] | Hs].
  - destruct neg; [discriminate | reflexivity].
  - pose proof Hs as (Hd & d & r & E & Hnz & Hlast).
    assert (0 < N_of_digits ds)%N as Hpos
      by (rewrite E; apply N_of_digits_positive; assumption).
    assert (Z.of_N (N_of_digits ds) * 10 ^ k
            = Z.of_N (N_of_digits (ds ++ zeros (Z.to_nat k))))%Z as Ev.
    { rewrite N_of_digits_zeros, N2Z.inj_mul, N2Z.inj_pow, nat_N_Z, Z2Nat.id
        by lia.
      reflexivity. }
    assert (digits_of_N (N_of_digits (ds ++ zeros (Z.to_nat k)))
            = ds ++ zeros (Z.to_nat k)) as Ed.
    { apply digits_of_N_unique.
      - apply Forall_app; split; [assumption | apply digit_list_zeros].
      - rewrite E. cbn [app]. eauto. }
    assert (0 < Z.of_N (N_of_digits (ds ++ zeros (Z.to_nat k))))%Z as Hpos'.
    { rewrite <- Ev. apply Z.mul_pos_pos; [lia|]. apply Z.pow_pos_nonneg; lia. }
    unfold float_of_hundredths. rewrite Ev.
    assert (Z.abs_N (if neg then - Z.of_N (N_of_digits (ds ++ zeros (Z.to_nat k)))
                     else Z.of_N (N_of_digits (ds ++ zeros (Z.to_nat k))))
            = N_of_digits (ds ++ zeros (Z.to_nat k))) as ->
      by (destruct neg; lia).
    rewrite Ed, strip_trailing_zeros_app.
    rewrite strip_trailing_nonzero by (auto; rewrite E; discriminate).
    rewrite E at 1. rewrite <- E. f_equal.
    + destruct neg; [apply Z.ltb_lt | apply Z.ltb_ge]; lia.
    + rewrite length_app. unfold zeros. rewrite repeat_length. lia.
Qed.

(* ------------------------------------------------------------------ *)
(** ** The properties of the handlers *)

#[local] Transparent dumps new_order_id.

Lemma wf_order_items (l : list OrderItem.t) :
  forallb OrderItem.valid l = true ->
  wf_json (JList (map OrderItem.dict l)) = true.
Proof.
  cbn [wf_json]. induction l as [|i l IH]; intros H; [reflexivity|].
  cbn [forallb map] in *. apply andb_true_iff in H as [Hv Hl].
  rewrite IH by assumption. unfold OrderItem.valid in Hv.
  apply andb_true_iff in Hv as [Hv H3]. apply andb_true_iff in Hv as [H1 H2].
  unfold OrderItem.dict. cbn [wf_json forallb fst snd map].
  rewrite H1, H2, H3. reflexivity.
Qed.

Lemma wf_address (a : Address.t) :
  Address.valid a = true -> wf_json (Address.dict a) = true.
Proof.
  unfold Address.valid. intros H.
  repeat (apply andb_true_iff in H; destruct H as [H ?]).
  unfold Address.dict. cbn [wf_json forallb fst snd map].
  repeat match goal with K : valid_text _ = true |- _ => rewrite K; clear K end.
  reflexivity.
Qed.

(** C4.  When a placement answers, the answer carries the id [ORD] followed
    by exactly fourteen decimal digits, and these digits write the reading
    of the clock as the number YYYYMMDDHHMMSS. *)
Theorem order_id_is_ORD_and_timestamp (cfg : Config) (order : OrderCreate.t)
        (w w' : World) (resp : json) :
  valid_datetime (wall_clock cfg) = true ->
  create_order cfg order w = (Return resp, w') ->
  exists digits,
    resp = JDict [(py "id", JStr (py "ORD" ++ digits));
                  (py "message", JStr (py "Order placed successfully"))] /\
    length digits = 14%nat /\
    forallb is_digit digits = true /\
    digits_value digits = compact_number (wall_clock cfg).
Proof.
  intros Hv H. apply create_order_returns in H as [-> _].
  destruct (new_order_id_format cfg Hv) as (digits & E & H1 & H2 & H3).
  exists digits. unfold order_placed. rewrite E. auto.
Qed.

Lemma order_id_is_ORD_and_timestamp_witness :
  exists digits,
    order_placed Demo.cfg
    = JDict [(py "id", JStr (py "ORD" ++ digits));
             (py "message", JStr (py "Order placed successfully"))] /\
    length digits = 14%nat /\
    forallb is_digit digits = true /\
    digits_value digits = 20240309140507%N.
Proof.
  apply (@order_id_is_ORD_and_timestamp Demo.cfg Demo.alice_order
           (Demo.world [] [])
           (snd (create_order Demo.cfg Demo.alice_order (Demo.world [] [])))
           (order_placed Demo.cfg)).
  - reflexivity.
  - vm_compute. reflexivity.
Defined.

(** C1, as the code has it.  The insert of the order row, the update of the
    user's address and the commit are one transaction: when the driver fails
    at the insert, or at the call after an accepted insert (the address
    update for an order with a truthy user id, the commit otherwise), or
    when the store rejects the row, the caller gets HTTP 500 and the
    committed rows are what they were.  The mail relay has no part in the
    outcome, and a placement that answers has recorded the row and returns
    the generated id. *)
Theorem order_and_address_share_one_transaction (cfg : Config)
        (order : OrderCreate.t) (w : World) :
  (forall e fs,
      db_faults (db w) = None :: Some e :: fs \/
      (db_faults (db w) = None :: None :: Some e :: fs /\
       store_accepts cfg order (tables (db w)) = true) ->
      fst (create_order cfg order w) = Raise (HTTPException 500 (msg e)) /\
      tables (db (snd (create_order cfg order w))) = tables (db w)) /\
  (forall e w',
      create_order cfg order w = (Raise e, w') ->
      e = OverflowError \/
      (status_of (@Raise json e) = 500%Z /\ tables (db w') = tables (db w))) /\
  (forall m',
      fst (create_order cfg order (mkWorld (db w) m'))
      = fst (create_order cfg order w) /\
      db (snd (create_order cfg order (mkWorld (db w) m')))
      = db (snd (create_order cfg order w))) /\
  (forall resp w',
      create_order cfg order w = (Return resp, w') ->
      resp = order_placed cfg /\
      exists cents,
        orders (tables (db w'))
        = orders (tables (db w)) ++ [order_row cfg order cents]).
Proof.
  repeat split.
  - apply (create_order_aborts cfg order w H).
  - apply (create_order_aborts cfg order w H).
  - intros e w' H. apply create_order_raises in H as [-> | [(err & [-> | ->]) Ht]];
      auto.
  - destruct w as [d m]. cbn [db].
    destruct (create_order_store cfg order d) as (r & d' & Hs).
    destruct (Hs m) as [m1 ->]. destruct (Hs m') as [m2 ->]. reflexivity.
  - destruct w as [d m]. cbn [db].
    destruct (create_order_store cfg order d) as (r & d' & Hs).
    destruct (Hs m) as [m1 ->]. destruct (Hs m') as [m2 ->]. reflexivity.
  - apply create_order_returns in H. tauto.
  - apply create_order_returns in H as (_ & cents & _ & Ho & _). eauto.
Qed.

Lemma order_and_address_share_one_transaction_witness :
  fst (create_order Demo.cfg Demo.alice_order Demo.second_call_fails)
  = Raise (HTTPException 500 (msg Demo.lost_connection)) /\
  tables (db (snd (create_order Demo.cfg Demo.alice_order
                                Demo.second_call_fails)))
  = mkTables [Demo.alice] [].
Proof.
  apply (proj1 (order_and_address_share_one_transaction Demo.cfg
                  Demo.alice_order Demo.second_call_fails)
               Demo.lost_connection []).
  left. reflexivity.
Defined.

(** C1, as the claim states it, fails: the order has an owning user, the
    insert is accepted and the address update fails; the caller gets
    HTTP 500 instead of the id, and no order row is recorded. *)
Lemma address_update_failure_discards_order :
  truthy_id (OrderCreate.user_id Demo.alice_order) = true /\
  store_accepts Demo.cfg Demo.alice_order (tables (db Demo.third_call_fails))
  = true /\
  fst (create_order Demo.cfg Demo.alice_order Demo.third_call_fails)
  = Raise (HTTPException 500 (msg Demo.lost_connection)) /\
  fst (create_order Demo.cfg Demo.alice_order Demo.third_call_fails)
  <> Return (order_placed Demo.cfg) /\
  orders (tables (db (snd (create_order Demo.cfg Demo.alice_order
                                        Demo.third_call_fails)))) = [] /\
  statement_log (db (snd (create_order Demo.cfg Demo.alice_order
                                       Demo.third_call_fails)))
  = [InsertOrder (new_order_id Demo.cfg) (Some 1%Z) Demo.three_hundred
                 (py "Delivered")
                 (dumps (JList [OrderItem.dict Demo.dosa]))
                 (dumps (Address.dict Demo.address));
     UpdateUserAddress (dumps (Address.dict Demo.address)) 1].
Proof.
  repeat split; try (vm_compute; reflexivity).
  vm_compute. discriminate.
Qed.

(** Removing the credential does not change what a placement that answers
    returns and stores. *)
Lemma create_order_without_credential (cfg cfg' : Config)
      (order : OrderCreate.t) (w w1 : World) (resp : json) :
  collation cfg' = collation cfg ->
  wall_clock cfg' = wall_clock cfg ->
  server_clock cfg' = server_clock cfg ->
  no_credential cfg' = true ->
  create_order cfg order w = (Return resp, w1) ->
  fst (create_order cfg' order w) = Return resp /\
  db (snd (create_order cfg' order w)) = db w1.
Proof.
  intros Hc Hw Hs Hn H.
  destruct cfg as [c env wc sc], cfg' as [c' env' wc' sc'].
  cbn [collation wall_clock server_clock] in *. subst c' wc' sc'.
  destruct w as [[t ai oc log fs] m]. unfold create_order, new_order_id in *.
  cbn [wall_clock] in *. open_order.
  cbn [collation server_clock wall_clock] in *.
  destruct (OrderCreate.user_id order) as [id|] eqn:Eu;
    crush_order; try discriminate;
    rewrite ?Hn in *; cbn [orb] in *; try discriminate;
    injection H as <- <-; split; reflexivity.
Qed.

(** C2.  The answer of a placement and the store it leaves are the same
    whatever the mail relay does; the sender never lets a failure of the
    relay out and never touches the store; without a credential it returns
    at once and sends nothing; and a placement that answers with the
    credential configured answers the same, and stores the same, without
    it. *)
Theorem notification_never_changes_outcome (cfg : Config)
        (order : OrderCreate.t) (w : World) :
  (forall m',
      fst (create_order cfg order (mkWorld (db w) m'))
      = fst (create_order cfg order w) /\
      db (snd (create_order cfg order (mkWorld (db w) m')))
      = db (snd (create_order cfg order w))) /\
  (forall order_id total items address w0,
      fst (send_order_notification cfg order_id total items address w0)
      <> Raise SMTPException /\
      db (snd (send_order_notification cfg order_id total items address w0))
      = db w0) /\
  (no_credential cfg = true ->
   forall order_id total items address w0,
     fst (send_order_notification cfg order_id total items address w0)
     = Return tt /\
     outbox (mailer (snd (send_order_notification cfg order_id total items
                                                  address w0)))
     = outbox (mailer w0)) /\
  (forall cfg' resp w1,
      collation cfg' = collation cfg ->
      wall_clock cfg' = wall_clock cfg ->
      server_clock cfg' = server_clock cfg ->
      no_credential cfg' = true ->
      create_order cfg order w = (Return resp, w1) ->
      fst (create_order cfg' order w) = Return resp /\
      db (snd (create_order cfg' order w)) = db w1).
Proof.
  repeat split.
  - destruct w as [d m]. cbn [db].
    destruct (create_order_store cfg order d) as (r & d' & Hs).
    destruct (Hs m) as [m1 ->]. destruct (Hs m') as [m2 ->]. reflexivity.
  - destruct w as [d m]. cbn [db].
    destruct (create_order_store cfg order d) as (r & d' & Hs).
    destruct (Hs m) as [m1 ->]. destruct (Hs m') as [m2 ->]. reflexivity.
  - destruct (send_order_notification_run cfg order_id total items address w0)
      as [m' ->]. cbn [fst].
    destruct (no_credential cfg || quantities_fit items); discriminate.
  - destruct (send_order_notification_run cfg order_id total items address w0)
      as [m' ->]. reflexivity.
  - rewrite send_order_notification_skipped by assumption. reflexivity.
  - rewrite send_order_notification_skipped by assumption. reflexivity.
  - eapply create_order_without_credential; eauto.
  - eapply create_order_without_credential; eauto.
Qed.

Lemma notification_never_changes_outcome_witness :
  fst (create_order Demo.cfg (Demo.order None Demo.three_hundred)
                    (Demo.world [] []))
  = Return (order_placed Demo.cfg) /\
  db (snd (create_order Demo.cfg (Demo.order None Demo.three_hundred)
                        (Demo.world [] [])))
  = db (snd (create_order Demo.cfg_mail (Demo.order None Demo.three_hundred)
                          (Demo.world [] [false; false; true]))).
Proof.
  apply (proj2 (proj2 (proj2
           (notification_never_changes_outcome Demo.cfg_mail
              (Demo.order None Demo.three_hundred)
              (Demo.world [] [false; false; true]))))
           Demo.cfg (order_placed Demo.cfg)
           (snd (create_order Demo.cfg_mail (Demo.order None Demo.three_hundred)
                              (Demo.world [] [false; false; true])))).
  - reflexivity.
  - reflexivity.
  - reflexivity.
  - reflexivity.
  - vm_compute. reflexivity.
Defined.

(** The three handlers that write release their connection on every path. *)
Lemma writers_release_the_connection (cfg : Config) (w : World) :
  (forall user,
      open_connections (db (snd (signup cfg user w))) = open_connections (db w)) /\
  (forall order,
      open_connections (db (snd (create_order cfg order w)))
      = open_connections (db w)) /\
  (forall data,
      open_connections (db (snd (update_user_address cfg data w)))
      = open_connections (db w)).
Proof.
  auto using signup_releases, create_order_releases,
    update_user_address_releases.
Qed.

(** C3 fails on [login] (and on [get_user_orders], which has the same
    shape): the connection is acquired, the statement raises, and the
    request ends with the connection still open. *)
Theorem login_keeps_connection_open_on_error :
  open_connections (db Demo.second_call_fails) = 0%nat /\
  fst (login Demo.cfg (UserLogin.mk (py "a@x.io") (py "pw"))
             Demo.second_call_fails)
  = Raise (MySQLError Demo.lost_connection) /\
  open_connections
    (db (snd (login Demo.cfg (UserLogin.mk (py "a@x.io") (py "pw"))
                    Demo.second_call_fails)))
  = 1%nat.
Proof. repeat split. Qed.

(** C5, as the code has it.  An order placed for a user is in the listing
    of that user's orders whenever the listing is returned, and the listing
    is returned when the driver does not fail and the rows stored before
    decode.  The entry carries the items and the address that were
    submitted, the status [Delivered], and as total the submitted total
    rounded to hundredths, which is the submitted total itself when it has
    at most two decimals. *)
Theorem placed_order_is_listed (cfg : Config) (order : OrderCreate.t)
        (user_id : Z) (w w1 : World) (resp : json) :
  OrderCreate.valid order = true ->
  OrderCreate.user_id order = Some user_id ->
  create_order cfg order w = (Return resp, w1) ->
  exists cents,
    decimal_10_2 (OrderCreate.total order) = Some cents /\
    let entry :=
      JDict [(py "id", JStr (new_order_id cfg));
             (py "total", JFloat (float_of_hundredths cents));
             (py "status", JStr (py "Delivered"));
             (py "items", JList (map OrderItem.dict (OrderCreate.items order)));
             (py "address", Address.dict (OrderCreate.address order));
             (py "date", JStr (isoformat (server_clock cfg)))] in
    (forall listing w2,
        get_user_orders cfg user_id w1 = (Return listing, w2) ->
        exists l, listing = JList l /\ In entry l) /\
    (quiet 2 (db_faults (db w1)) = true ->
     forallb decodable (filter (owned_by user_id) (orders (tables (db w))))
     = true ->
     exists l w2,
       get_user_orders cfg user_id w1 = (Return (JList l), w2) /\ In entry l) /\
    (two_decimals (OrderCreate.total order) = true ->
     float_of_hundredths cents = OrderCreate.total order).
Proof.
  intros Hv Hu H.
  apply create_order_returns in H as (_ & cents & Hc & Ho & _).
  exists cents. split; [assumption|]. cbv zeta.
  unfold OrderCreate.valid in Hv. apply andb_true_iff in Hv as [Hi Ha].
  pose proof (loads_dumps _ (wf_order_items _ Hi)) as Li.
  pose proof (loads_dumps _ (wf_address _ Ha)) as La.
  assert (In (order_row cfg order cents) (orders (tables (db w1)))) as Hin
    by (rewrite Ho; apply in_or_app; right; left; reflexivity).
  assert (forall listing w2,
             get_user_orders cfg user_id w1 = (Return listing, w2) ->
             exists l, listing = JList l /\
                       In (listed (order_row cfg order cents)
                                  (JList (map OrderItem.dict (OrderCreate.items order)))
                                  (Address.dict (OrderCreate.address order))) l)
    as Hlisted.
  { intros listing w2 Hg.
    destruct (@get_user_orders_returns cfg user_id w1 w2 listing
                (order_row cfg order cents) Hg Hin Hu)
      as (l & i & a & -> & Hli & Hla & Hl).
    cbn [order_row o_items o_address] in Hli, Hla.
    rewrite Li in Hli. rewrite La in Hla.
    injection Hli as <-. injection Hla as <-. eauto. }
  repeat split.
  - exact Hlisted.
  - intros Hq Hd.
    destruct (@get_user_orders_answers cfg user_id w1 Hq) as (l & w2 & Hg).
    + rewrite Ho, filter_app, forallb_app, Hd. cbn [filter].
      unfold owned_by at 1. cbn [order_row o_user_id]. rewrite Hu, Z.eqb_refl.
      cbn [forallb]. unfold decodable. cbn [order_row o_items o_address].
      rewrite Li, La. reflexivity.
    + exists l, w2. split; [assumption|].
      destruct (Hlisted _ _ Hg) as (l' & E & Hl). injection E as <-. exact Hl.
  - intros H2. apply float_of_hundredths_exact; assumption.
Qed.

Lemma placed_order_is_listed_witness :
  exists l w2,
    get_user_orders Demo.cfg 1
      (snd (create_order Demo.cfg Demo.alice_order (Demo.world [] [])))
    = (Return (JList l), w2) /\
    In (JDict [(py "id", JStr (py "ORD20240309140507"));
               (py "total", JFloat Demo.three_hundred);
               (py "status", JStr (py "Delivered"));
               (py "items", JList [OrderItem.dict Demo.dosa]);
               (py "address", Address.dict Demo.address);
               (py "date", JStr (py "2024-03-09T14:05:08"))]) l.
Proof.
  destruct (@placed_order_is_listed Demo.cfg Demo.alice_order 1
              (Demo.world [] [])
              (snd (create_order Demo.cfg Demo.alice_order (Demo.world [] [])))
              (order_placed Demo.cfg))
    as (cents & Hc & _ & Hl & _).
  - reflexivity.
  - reflexivity.
  - vm_compute. reflexivity.
  - vm_compute in Hc. injection Hc as <-. apply Hl; reflexivity.
Defined.

(** C5, as the claim states it, fails on the total: an order placed with
    the total 0.125 is listed with the total 0.13. *)
Lemma listed_total_is_rounded :
  OrderCreate.total Demo.eighth_order = mkFloat false [1; 2; 5]%N 0 /\
  fst (create_order Demo.cfg Demo.eighth_order (Demo.world [] []))
  = Return (order_placed Demo.cfg) /\
  fst (get_user_orders Demo.cfg 1
         (snd (create_order Demo.cfg Demo.eighth_order (Demo.world [] []))))
  = Return (JList [JDict [(py "id", JStr (py "ORD20240309140507"));
                          (py "total", JFloat (mkFloat false [1; 3]%N 0));
                          (py "status", JStr (py "Delivered"));
                          (py "items", JList [OrderItem.dict Demo.dosa]);
                          (py "address", Address.dict Demo.address);
                          (py "date", JStr (py "2024-03-09T14:05:08"))]]) /\
  mkFloat false [1; 3]%N 0 <> OrderCreate.total Demo.eighth_order.
Proof.
  repeat split; try (vm_compute; reflexivity). discriminate.
Qed.

(** C6.  After a sign-up that answered, exactly one stored user has the
    email; a second sign-up with that email stores nothing and never
    answers, and it is refused with HTTP 400 when the driver does not fail.
    For any sign-up, a failure leaves the store as it was and is HTTP 400
    only when a duplicate key was reported, HTTP 500 otherwise. *)
Theorem second_signup_with_same_email_is_refused (cfg : Config)
        (user user' : UserSignup.t) (w w1 : World) (r1 : json) :
  UserSignup.email user' = UserSignup.email user ->
  fits 255 (UserSignup.name user') && fits 255 (UserSignup.password user')
  = true ->
  signup cfg user w = (Return r1, w1) ->
  length (users_with_email cfg (UserSignup.email user) (tables (db w1))) = 1%nat /\
  tables (db (snd (signup cfg user' w1))) = tables (db w1) /\
  (forall r2, fst (signup cfg user' w1) <> Return r2) /\
  (quiet 2 (db_faults (db w1)) = true ->
   fst (signup cfg user' w1)
   = Raise (HTTPException 400 (py "Email already registered"))) /\
  (forall u0 w0 e w0',
      signup cfg u0 w0 = (Raise e, w0') ->
      tables (db w0') = tables (db w0) /\
      ((e = HTTPException 400 (py "Email already registered") /\
        duplicate_reported cfg (UserSignup.email u0) w0)
       \/ status_of (@Raise json e) = 500%Z)).
Proof.
  intros He Hf H. apply signup_returns in H as (Hnone & Ht & Hfit).
  assert (users_with_email cfg (UserSignup.email user) (tables (db w1))
          = [user_row cfg (auto_increment (db w)) user]) as Hone.
  { unfold users_with_email in *. rewrite Ht. cbn [users].
    rewrite filter_app, Hnone. cbn [filter app user_row u_email].
    unfold same_text. rewrite str_eqb_refl. reflexivity. }
  assert (forall r2 w2, signup cfg user' w1 <> (Return r2, w2)) as Hnever.
  { intros r2 w2 H2. apply signup_returns in H2 as (H2 & _).
    rewrite He, Hone in H2. discriminate. }
  split; [rewrite Hone; reflexivity|].
  split.
  { destruct (signup cfg user' w1) as [[r2|e] w2] eqn:E.
    - exfalso. apply (Hnever r2 w2). reflexivity.
    - apply signup_raises in E. tauto. }
  split.
  { intros r2 H2. destruct (signup cfg user' w1) as [r w2] eqn:E.
    cbn [fst] in H2. subst r. apply (Hnever r2 w2). reflexivity. }
  split.
  { intros Hq. apply signup_duplicate; [|  |assumption].
    - rewrite He, Hone. discriminate.
    - rewrite He. apply andb_true_iff in Hf as [Hf1 Hf2].
      apply andb_true_iff in Hfit as [Hfit _].
      apply andb_true_iff in Hfit as [_ Hfit]. rewrite Hf1, Hf2, Hfit.
      reflexivity. }
  intros u0 w0 e w0' H0. apply signup_raises. assumption.
Qed.

Lemma second_signup_with_same_email_is_refused_witness :
  fst (signup Demo.cfg Demo.newcomer
              (snd (signup Demo.cfg Demo.newcomer (Demo.world [] []))))
  = Raise (HTTPException 400 (py "Email already registered")).
Proof.
  apply (@second_signup_with_same_email_is_refused Demo.cfg Demo.newcomer
           Demo.newcomer (Demo.world [] [])
           (snd (signup Demo.cfg Demo.newcomer (Demo.world [] [])))
           (JDict [(py "id", JInt 2); (py "name", JStr (py "B"));
                   (py "email", JStr (py "b@x.io"));
                   (py "message", JStr (py "User created successfully"))])).
  - reflexivity.
  - reflexivity.
  - vm_compute. reflexivity.
  - reflexivity.
Defined.

(** C7.  A login answers only when a stored user has the email and its
    stored password is the submitted one, code point for code point; when
    the driver does not fail and no stored user with the email has exactly
    this password, the login is refused with HTTP 401. *)
Theorem login_needs_the_exact_password (cfg : Config) (user : UserLogin.t)
        (w : World) :
  (forall resp w',
      login cfg user w = (Return resp, w') ->
      exists r,
        In r (users (tables (db w))) /\
        same_text (collation cfg) (u_email r) (UserLogin.email user) = true /\
        u_password r = UserLogin.password user) /\
  (quiet 2 (db_faults (db w)) = true ->
   (forall r, In r (users (tables (db w))) ->
              same_text (collation cfg) (u_email r) (UserLogin.email user) = true ->
              u_password r <> UserLogin.password user) ->
   fst (login cfg user w) = Raise (HTTPException 401 (py "Invalid credentials"))).
Proof.
  split.
  - intros resp w' H. apply (login_returns cfg user w H).
  - apply login_rejects.
Qed.

(** A password that differs in case only, or by a trailing blank only, is
    refused. *)
Lemma login_needs_the_exact_password_witness :
  fst (login Demo.cfg (UserLogin.mk (py "a@x.io") (py "PW")) (Demo.world [] []))
  = Raise (HTTPException 401 (py "Invalid credentials")) /\
  fst (login Demo.cfg (UserLogin.mk (py "a@x.io") (py "pw ")) (Demo.world [] []))
  = Raise (HTTPException 401 (py "Invalid credentials")).
Proof.
  split.
  - apply (proj2 (login_needs_the_exact_password Demo.cfg
                    (UserLogin.mk (py "a@x.io") (py "PW")) (Demo.world [] []))).
    + reflexivity.
    + intros r [<- | []] _. vm_compute. discriminate.
  - apply (proj2 (login_needs_the_exact_password Demo.cfg
                    (UserLogin.mk (py "a@x.io") (py "pw ")) (Demo.world [] []))).
    + reflexivity.
    + intros r [<- | []] _. vm_compute. discriminate.
Defined.

(** C8.  Updating the address of a user id that no stored user has leaves
    the committed rows as they were, and, when the driver does not fail,
    answers with the confirmation message. *)
Theorem address_update_for_missing_user_is_noop (cfg : Config)
        (data : AddressUpdate.t) (w : World) :
  has_user (AddressUpdate.user_id data) (tables (db w)) = false ->
  tables (db (snd (update_user_address cfg data w))) = tables (db w) /\
  (quiet 3 (db_faults (db w)) = true ->
   fst (update_user_address cfg data w)
   = Return (JDict [(py "message",
                     JStr (py "Addresses updated successfully"))])).
Proof.
  intros H. split.
  - apply update_user_address_missing. assumption.
  - apply update_user_address_succeeds.
Qed.

Lemma address_update_for_missing_user_is_noop_witness :
  tables (db (snd (update_user_address Demo.cfg
                     (AddressUpdate.mk 7 [Address.dict Demo.address])
                     (Demo.world [] []))))
  = mkTables [Demo.alice] [] /\
  fst (update_user_address Demo.cfg
         (AddressUpdate.mk 7 [Address.dict Demo.address]) (Demo.world [] []))
  = Return (JDict [(py "message", JStr (py "Addresses updated successfully"))]).
Proof.
  destruct (@address_update_for_missing_user_is_noop Demo.cfg
              (AddressUpdate.mk 7 [Address.dict Demo.address])
              (Demo.world [] [])) as [H1 H2].
  - reflexivity.
  - split; [exact H1 | apply H2; reflexivity].
Defined.

(** C9.  An order without a user id leaves every row of [users] as it was
    and sends no [UPDATE users] statement; it is placed when the driver
    does not fail, the store takes the row and the message can be built. *)
Theorem guest_order_leaves_users_alone (cfg : Config) (order : OrderCreate.t)
        (w : World) :
  OrderCreate.user_id order = None ->
  users (tables (db (snd (create_order cfg order w)))) = users (tables (db w)) /\
  (exists issued,
      statement_log (db (snd (create_order cfg order w)))
      = statement_log (db w) ++ issued /\
      existsb is_update_address issued = false) /\
  (quiet 3 (db_faults (db w)) = true ->
   store_accepts cfg order (tables (db w)) = true ->
   no_credential cfg || quantities_fit (OrderCreate.items order) = true ->
   fst (create_order cfg order w) = Return (order_placed cfg)).
Proof.
  intros Hu. repeat split.
  - apply create_order_users. rewrite Hu. reflexivity.
  - destruct (create_order_statements cfg order w) as (issued & Hl & Hi).
    exists issued. split; [assumption|]. rewrite Hi, Hu. reflexivity.
  - intros Hq Ha Hn. apply create_order_succeeds; auto.
    rewrite Hu. exact Hq.
Qed.

Lemma guest_order_leaves_users_alone_witness :
  users (tables (db (snd (create_order Demo.cfg
                            (Demo.order None Demo.three_hundred)
                            (Demo.world [] [])))))
  = [Demo.alice] /\
  fst (create_order Demo.cfg (Demo.order None Demo.three_hundred)
                    (Demo.world [] []))
  = Return (order_placed Demo.cfg).
Proof.
  destruct (@guest_order_leaves_users_alone Demo.cfg
              (Demo.order None Demo.three_hundred) (Demo.world [] []))
    as (H1 & _ & H3).
  - reflexivity.
  - split; [exact H1 | apply H3; vm_compute; reflexivity].
Defined.

(** C10.  A placement sends the [UPDATE users] statement exactly when the
    user id is truthy and the insert of the order row went through (no
    failure of the driver at the first two calls, row taken by the store).
    With the user id 0 the statement is not sent and the users are left as
    they were, as for an order without user id. *)
Theorem address_update_runs_iff_user_id_truthy (cfg : Config)
        (order : OrderCreate.t) (w : World) :
  (exists issued,
      statement_log (db (snd (create_order cfg order w)))
      = statement_log (db w) ++ issued /\
      existsb is_update_address issued
      = truthy_id (OrderCreate.user_id order)
        && quiet 2 (db_faults (db w))
        && store_accepts cfg order (tables (db w))) /\
  (OrderCreate.user_id order = Some 0%Z ->
   truthy_id (OrderCreate.user_id order) = false /\
   users (tables (db (snd (create_order cfg order w)))) = users (tables (db w))).
Proof.
  split.
  - apply create_order_statements.
  - intros Hu. split; [rewrite Hu; reflexivity|].
    apply create_order_users. rewrite Hu. reflexivity.
Qed.

(** With a user whose id is 0 in the store, the order for user id 0 is
    placed, and the address of that user is not written. *)
Lemma address_update_runs_iff_user_id_truthy_witness :
  fst (create_order Demo.cfg Demo.zero_order Demo.world_zero)
  = Return (order_placed Demo.cfg) /\
  users (tables (db (snd (create_order Demo.cfg Demo.zero_order
                                       Demo.world_zero))))
  = [Demo.zero].
Proof.
  split; [vm_compute; reflexivity|].
  apply (proj2 (address_update_runs_iff_user_id_truthy Demo.cfg
                  Demo.zero_order Demo.world_zero)).
  reflexivity.
Defined.

(* ================================================================== *)
(** * Beyond the order workflow: the other handlers, the sender and the
    start-up *)

Import Catalogue Startup.

(* ------------------------------------------------------------------ *)
(** ** Logging in after the store was written *)

#[local] Opaque dumps new_order_id.

(** What a login answers when the driver does not fail. *)
Lemma login_run (cfg : Config) (user : UserLogin.t) (w : World) :
  quiet 2 (db_faults (db w)) = true ->
  fst (login cfg user w)
  = match users_with_email cfg (UserLogin.email user) (tables (db w)) with
    | r :: _ =>
        if str_eqb (u_password r) (UserLogin.password user) then
          match u_address r with
          | Some a =>
              if str_truthy a then
                match loads a with
                | Some v => Return (profile r v)
                | None => Raise JSONDecodeError
                end
              else Return (profile r JNull)
          | None => Return (profile r JNull)
          end
        else Raise (HTTPException 401 (py "Invalid credentials"))
    | [] => Raise (HTTPException 401 (py "Invalid credentials"))
    end.
Proof.
  intros Hq. destruct w as [[t ai oc log fs] m]. unfold users_with_email.
  open_login. crush; try discriminate; reflexivity.
Qed.

Lemma signup_answer (cfg : Config) (user : UserSignup.t) (w w' : World)
      (resp : json) :
  signup cfg user w = (Return resp, w') ->
  resp = account (auto_increment (db w)) user.
Proof.
  intros H. destruct w as [[t ai oc log fs] m]. open_signup.
  crush; try discriminate; injection H as <- <-; reflexivity.
Qed.

Lemma set_address_email (a : pystr) (id : Z) (u : UserRow) :
  u_email (set_address a id u) = u_email u.
Proof. unfold set_address. destruct (u_id u =? id)%Z; reflexivity. Qed.

Lemma set_address_fixed (a : pystr) (id : Z) (u : UserRow) :
  fixed_columns (set_address a id u) = fixed_columns u.
Proof. unfold set_address. destruct (u_id u =? id)%Z; reflexivity. Qed.

Lemma filter_email_set_address (cfg : Config) (email a : pystr) (id : Z)
      (l : list UserRow) :
  filter (fun u => same_text (collation cfg) (u_email u) email)
         (map (set_address a id) l)
  = map (set_address a id)
        (filter (fun u => same_text (collation cfg) (u_email u) email) l).
Proof.
  induction l as [|u l IH]; [reflexivity|].
  cbn [map filter]. rewrite set_address_email, IH.
  destruct (same_text (collation cfg) (u_email u) email); reflexivity.
Qed.

Lemma str_truthy_dumps_list (l : list json) : str_truthy (dumps (JList l)) = true.
Proof. rewrite dumps_list. reflexivity. Qed.

Lemma str_truthy_dumps_dict (l : list (pystr * json)) :
  str_truthy (dumps (JDict l)) = true.
Proof. rewrite dumps_dict. reflexivity. Qed.

(** The login of a user whose address column was just written with the
    encoding of [v]. *)
Lemma login_after_set_address (cfg : Config) (email a : pystr) (v : json)
      (r : UserRow) (rest : list UserRow) (w0 w1 : World) :
  users_with_email cfg email (tables (db w0)) = r :: rest ->
  users (tables (db w1)) = map (set_address a (u_id r)) (users (tables (db w0))) ->
  str_truthy a = true -> loads a = Some v ->
  quiet 2 (db_faults (db w1)) = true ->
  fst (login cfg (UserLogin.mk email (u_password r)) w1) = Return (profile r v).
Proof.
  intros Hr Hu Ht Hl Hq. rewrite login_run by assumption.
  unfold users_with_email in *. cbn [UserLogin.email UserLogin.password].
  rewrite Hu, filter_email_set_address, Hr. cbn [map].
  assert (set_address a (u_id r) r
          = mkUser (u_id r) (u_name r) (u_email r) (u_password r) (Some a)
                   (u_created_at r)) as ->
    by (unfold set_address; rewrite Z.eqb_refl; reflexivity).
  cbn [u_password u_address]. rewrite str_eqb_refl, Ht, Hl. reflexivity.
Qed.

Lemma update_user_address_returns (cfg : Config) (data : AddressUpdate.t)
      (w w' : World) (resp : json) :
  update_user_address cfg data w = (Return resp, w') ->
  resp = JDict [(py "message", JStr (py "Addresses updated successfully"))] /\
  tables (db w')
  = update_address (dumps (JList (AddressUpdate.addresses data)))
                   (AddressUpdate.user_id data) (tables (db w)).
Proof.
  intros H. destruct w as [[t ai oc log fs] m]. open_login.
  crush; try discriminate; injection H as <- <-; split; reflexivity.
Qed.

Lemma update_user_address_raises (cfg : Config) (data : AddressUpdate.t)
      (w w' : World) (e : exn) :
  update_user_address cfg data w = (Raise e, w') ->
  tables (db w') = tables (db w) /\ status_of (@Raise json e) = 500%Z.
Proof.
  intros H. destruct w as [[t ai oc log fs] m]. open_login.
  crush; try discriminate; injection H as <- <-; split; reflexivity.
Qed.

(* ------------------------------------------------------------------ *)
(** ** What each handler can do to the committed rows *)

(** A placement leaves the committed rows as they were, or adds the order
    row and, for a truthy user id, writes the address of that user. *)
Lemma create_order_tables (cfg : Config) (order : OrderCreate.t) (w : World) :
  tables (db (snd (create_order cfg order w))) = tables (db w) \/
  exists cents,
    decimal_10_2 (OrderCreate.total order) = Some cents /\
    references_user (OrderCreate.user_id order) (tables (db w)) = true /\
    tables (db (snd (create_order cfg order w)))
    = mkTables
        (if truthy_id (OrderCreate.user_id order)
         then map (set_address
                     (dumps (Address.dict (OrderCreate.address order)))
                     (match OrderCreate.user_id order with
                      | Some id => id | None => 0%Z end))
                  (users (tables (db w)))
         else users (tables (db w)))
        (orders (tables (db w)) ++ [order_row cfg order cents]).
Proof.
  destruct w as [[t ai oc log fs] m].
  pose proof (@insert_order_inr cfg order t) as Hins.
  unfold truthy_id. open_order.
  destruct (OrderCreate.user_id order) as [id|] eqn:Eu;
    crush_order; auto;
    right; destruct (Hins _ eq_refl) as (cents & Hc & -> & Hr);
    exists cents; unfold update_address; simp; auto.
Qed.

Lemma signup_tables (cfg : Config) (user : UserSignup.t) (w : World) :
  tables (db (snd (signup cfg user w))) = tables (db w) \/
  (users_with_email cfg (UserSignup.email user) (tables (db w)) = [] /\
   tables (db (snd (signup cfg user w)))
   = mkTables (users (tables (db w))
               ++ [user_row cfg (auto_increment (db w)) user])
              (orders (tables (db w)))).
Proof.
  destruct (signup cfg user w) as [[resp|e] w'] eqn:E; cbn [snd].
  - right. apply signup_returns in E. tauto.
  - left. apply signup_raises in E. tauto.
Qed.

Lemma update_user_address_tables (cfg : Config) (data : AddressUpdate.t)
      (w : World) :
  tables (db (snd (update_user_address cfg data w))) = tables (db w) \/
  tables (db (snd (update_user_address cfg data w)))
  = update_address (dumps (JList (AddressUpdate.addresses data)))
                   (AddressUpdate.user_id data) (tables (db w)).
Proof.
  destruct (update_user_address cfg data w) as [[resp|e] w'] eqn:E; cbn [snd].
  - right. apply update_user_address_returns in E. tauto.
  - left. apply update_user_address_raises in E. tauto.
Qed.

Lemma login_tables (cfg : Config) (user : UserLogin.t) (w : World) :
  tables (db (snd (login cfg user w))) = tables (db w).
Proof.
  destruct w as [[t ai oc log fs] m]. open_login. crush; reflexivity.
Qed.

Lemma get_user_orders_tables (cfg : Config) (user_id : Z) (w : World) :
  tables (db (snd (get_user_orders cfg user_id w))) = tables (db w).
Proof.
  destruct w as [[t ai oc log fs] m]. open_login.
  destruct fs as [|[e|] [|[e'|] fs]]; simp; try reflexivity;
    match goal with
    | |- context [order_entries ?l ?w0] =>
        pose proof (order_entries_world l w0) as Hw;
        destruct (order_entries l w0) as [[es|e] w1]; cbn [snd] in Hw;
        subst w1; reflexivity
    end.
Qed.

(* ------------------------------------------------------------------ *)
(** ** What the store keeps *)

Lemma str_eqb_sym (a b : pystr) : str_eqb a b = str_eqb b a.
Proof.
  revert b. induction a as [|x a IH]; intros [|y b]; cbn [str_eqb]; auto.
  rewrite IH, N.eqb_sym. reflexivity.
Qed.

Lemma existsb_app_false (A : Type) (p : A -> bool) (l : list A) (x : A) :
  existsb p (l ++ [x]) = existsb p l || p x.
Proof. rewrite existsb_app. cbn. rewrite orb_false_r. reflexivity. Qed.

Lemma distinct_emails_snoc (cfg : Config) (l : list UserRow) (x : UserRow) :
  distinct_emails cfg l = true ->
  existsb (fun u => same_text (collation cfg) (u_email u) (u_email x)) l = false ->
  distinct_emails cfg (l ++ [x]) = true.
Proof.
  induction l as [|u l IH]; intros Hd Hx; [reflexivity|].
  cbn [distinct_emails existsb app] in *.
  apply andb_true_iff in Hd as [Hu Hl]. apply orb_false_iff in Hx as [Hx1 Hx2].
  rewrite existsb_app_false, IH by assumption.
  apply negb_true_iff in Hu. rewrite Hu. cbn [orb].
  unfold same_text in *. rewrite str_eqb_sym, Hx1. reflexivity.
Qed.

Lemma distinct_emails_set_address (cfg : Config) (a : pystr) (id : Z)
      (l : list UserRow) :
  distinct_emails cfg (map (set_address a id) l) = distinct_emails cfg l.
Proof.
  induction l as [|u l IH]; [reflexivity|].
  cbn [distinct_emails map]. rewrite IH, set_address_email. f_equal. f_equal.
  clear IH. induction l as [|v l IH]; [reflexivity|].
  cbn [existsb map]. rewrite set_address_email, IH. reflexivity.
Qed.

Lemma users_with_email_none (cfg : Config) (email : pystr) (t : Tables) :
  users_with_email cfg email t = [] ->
  existsb (fun u => same_text (collation cfg) (u_email u) email) (users t) = false.
Proof.
  unfold users_with_email. induction (users t) as [|u l IH]; [reflexivity|].
  cbn [filter existsb].
  destruct (same_text (collation cfg) (u_email u) email); [discriminate|].
  exact IH.
Qed.

Lemma has_user_set_address (a : pystr) (id id' : Z) (l : list UserRow) :
  existsb (fun u => (u_id u =? id')%Z) (map (set_address a id) l)
  = existsb (fun u => (u_id u =? id')%Z) l.
Proof.
  induction l as [|u l IH]; [reflexivity|].
  cbn [existsb map]. rewrite IH. f_equal.
  unfold set_address. destruct (u_id u =? id)%Z; reflexivity.
Qed.

Lemma references_user_users (user_id : option Z) (t t' : Tables) :
  (forall id, has_user id t = true -> has_user id t' = true) ->
  references_user user_id t = true -> references_user user_id t' = true.
Proof. destruct user_id as [id|]; cbn; auto. Qed.

Lemma orders_reference_more_users (t t' : Tables) :
  (forall id, has_user id t = true -> has_user id t' = true) ->
  forallb (fun o => references_user (o_user_id o) t) (orders t) = true ->
  forallb (fun o => references_user (o_user_id o) t') (orders t) = true.
Proof.
  intros Hm H. apply forallb_forall. intros o Ho.
  apply (@references_user_users (o_user_id o) t t' Hm).
  exact (proj1 (forallb_forall _ _) H o Ho).
Qed.

Lemma written_distinct_emails (cfg : Config) (t t' : Tables) :
  written cfg t t' ->
  distinct_emails cfg (users t) = true -> distinct_emails cfg (users t') = true.
Proof.
  intros [ | u Hu | a id | o Ho | o a id Ho] Hd; cbn [users update_address];
    rewrite ?distinct_emails_set_address; auto using distinct_emails_snoc.
Qed.

Lemma written_references (cfg : Config) (t t' : Tables) :
  written cfg t t' ->
  orders_reference_users t = true -> orders_reference_users t' = true.
Proof.
  unfold orders_reference_users.
  intros [ | u Hu | a id | o Ho | o a id Ho] Hd; cbn [users orders update_address];
    auto.
  - apply (@orders_reference_more_users t); [|assumption].
    intros id. unfold has_user. cbn [users]. rewrite existsb_app.
    intros ->. reflexivity.
  - apply (@orders_reference_more_users t); [|assumption].
    intros id'. unfold has_user, update_address. cbn [users].
      now rewrite has_user_set_address.
  - rewrite forallb_app. cbn [forallb]. rewrite andb_true_r.
    apply andb_true_iff. split.
    + apply (@orders_reference_more_users t); auto.
    + assumption.
  - rewrite forallb_app. cbn [forallb]. rewrite andb_true_r.
    apply andb_true_iff. split.
    + apply (@orders_reference_more_users t); [|assumption].
      intros id'. unfold has_user, update_address. cbn [users].
      now rewrite has_user_set_address.
    + apply (@references_user_users (o_user_id o) t); [|assumption].
      intros id'. unfold has_user, update_address. cbn [users].
      now rewrite has_user_set_address.
Qed.

Lemma written_keeps (cfg : Config) (t t' : Tables) :
  written cfg t t' ->
  (exists new, map fixed_columns (users t')
               = map fixed_columns (users t) ++ new) /\
  (exists new, orders t' = orders t ++ new).
Proof.
  assert (forall a id l, map fixed_columns (map (set_address a id) l)
                         = map fixed_columns l) as Hfix.
  { intros a id l. rewrite map_map. apply map_ext. intros u.
    apply set_address_fixed. }
  intros [ | u Hu | a id | o Ho | o a id Ho]; cbn [users orders update_address];
    rewrite ?Hfix; split;
    first [ exists []; now rewrite app_nil_r
          | rewrite map_app; eexists; reflexivity
          | eexists; reflexivity ].
Qed.

Lemma signup_written (cfg : Config) (user : UserSignup.t) (w : World) :
  written cfg (tables (db w)) (tables (db (snd (signup cfg user w)))).
Proof.
  destruct (signup_tables cfg user w) as [-> | [Hn ->]]; [constructor|].
  apply UserAdded. cbn [user_row u_email]. apply users_with_email_none.
  assumption.
Qed.

Lemma create_order_written (cfg : Config) (order : OrderCreate.t) (w : World) :
  written cfg (tables (db w)) (tables (db (snd (create_order cfg order w)))).
Proof.
  destruct (create_order_tables cfg order w) as [-> | (cents & Hc & Hr & ->)];
    [constructor|].
  destruct (truthy_id (OrderCreate.user_id order)).
  - apply OrderAddedAddressSet. exact Hr.
  - apply OrderAdded. exact Hr.
Qed.

Lemma update_user_address_written (cfg : Config) (data : AddressUpdate.t)
      (w : World) :
  written cfg (tables (db w)) (tables (db (snd (update_user_address cfg data w)))).
Proof.
  destruct (update_user_address_tables cfg data w) as [-> | ->]; constructor.
Qed.

(* ------------------------------------------------------------------ *)
(** ** The listing, row by row *)

Lemma insert_desc_permutation (r : OrderRow) (l : list OrderRow) :
  Permutation (insert_desc r l) (r :: l).
Proof.
  induction l as [|x l IH]; cbn [insert_desc]; [reflexivity|].
  destruct (sort_key (o_created_at x) <=? sort_key (o_created_at r))%N;
    [reflexivity|].
  rewrite IH. apply perm_swap.
Qed.

Lemma order_by_created_at_desc_permutation (l : list OrderRow) :
  Permutation (order_by_created_at_desc l) l.
Proof.
  unfold order_by_created_at_desc. induction l as [|x l IH]; [reflexivity|].
  cbn [fold_right]. rewrite insert_desc_permutation. now constructor.
Qed.

Lemma insert_desc_newest_first (r : OrderRow) (l : list OrderRow) :
  newest_first l = true -> newest_first (insert_desc r l) = true.
Proof.
  induction l as [|x l IH]; intros H; [reflexivity|].
  cbn [newest_first] in H. apply andb_true_iff in H as [Hx Hl].
  cbn [insert_desc].
  destruct (N.leb_spec (sort_key (o_created_at x)) (sort_key (o_created_at r)))
    as [Hle | Hlt].
  - cbn [newest_first forallb]. rewrite Hx, Hl.
    apply N.leb_le in Hle. rewrite Hle. cbn [andb]. rewrite andb_true_r.
    apply forallb_forall. intros y Hy.
    pose proof (proj1 (forallb_forall _ _) Hx y Hy) as H1.
    apply N.leb_le in H1, Hle. apply N.leb_le. lia.
  - cbn [newest_first]. rewrite IH by assumption. rewrite andb_true_r.
    apply forallb_forall. intros y Hy.
    apply insert_desc_in in Hy as [-> | Hy].
    + apply N.leb_le. lia.
    + exact (proj1 (forallb_forall _ _) Hx y Hy).
Qed.

Lemma order_by_created_at_desc_newest_first (l : list OrderRow) :
  newest_first (order_by_created_at_desc l) = true.
Proof.
  unfold order_by_created_at_desc. induction l as [|x l IH]; [reflexivity|].
  cbn [fold_right]. apply insert_desc_newest_first. exact IH.
Qed.

Lemma order_entries_each (l : list OrderRow) (w w' : World) (es : list json) :
  order_entries l w = (Return es, w') -> Forall2 shown_as l es.
Proof.
  revert es w'. induction l as [|x l IH]; intros es w' H.
  - cbn in H. injection H as <- _. constructor.
  - cbn [order_entries] in H. unfold bind in H. rewrite order_entry_run in H.
    destruct (loads (o_items x)) as [i|] eqn:Ei; [|discriminate].
    destruct (loads (o_address x)) as [a|] eqn:Ea; [|discriminate].
    destruct (order_entries l w) as [[es'|e] w1] eqn:E; [|discriminate].
    unfold ret in H. injection H as <- <-.
    constructor; [|eapply IH; reflexivity].
    exists i, a. reflexivity.
Qed.

(** A listing that is returned has one entry for each row the statement
    selects, in the order of the rows. *)
Lemma get_user_orders_listing (cfg : Config) (user_id : Z) (w w' : World)
      (listing : json) :
  get_user_orders cfg user_id w = (Return listing, w') ->
  exists es,
    listing = JList es /\
    Forall2 shown_as
            (order_by_created_at_desc
               (filter (owned_by user_id) (orders (tables (db w))))) es.
Proof.
  intros H. destruct w as [[t ai oc log fs] m]. simp. open_login.
  crush; try discriminate; injection H as <- <-; subst;
    match goal with
    | E : order_entries _ _ = (Return ?es, _) |- _ =>
        exists es; split; [reflexivity | exact (order_entries_each _ _ E)]
    end.
Qed.

Lemma get_user_orders_none (cfg : Config) (user_id : Z) (w : World) :
  quiet 2 (db_faults (db w)) = true ->
  filter (owned_by user_id) (orders (tables (db w))) = [] ->
  fst (get_user_orders cfg user_id w) = Return (JList []).
Proof.
  intros Hq Hn. destruct w as [[t ai oc log fs] m]. simp. open_login.
  destruct fs as [|[e|] [|[e'|] fs]]; simp; try discriminate;
    rewrite Hn; reflexivity.
Qed.

(* ------------------------------------------------------------------ *)
(** ** Orders and sign-ups the store refuses *)

Lemma insert_order_refused (cfg : Config) (order : OrderCreate.t) (t : Tables) :
  existsb (fun o => same_text (collation cfg) (o_id o) (new_order_id cfg))
          (orders t) = true \/
  references_user (OrderCreate.user_id order) t = false \/
  decimal_10_2 (OrderCreate.total order) = None ->
  exists e,
    insert_order (collation cfg) (server_clock cfg) (new_order_id cfg)
      (OrderCreate.user_id order) (OrderCreate.total order) (py "Delivered")
      (dumps (JList (map OrderItem.dict (OrderCreate.items order))))
      (dumps (Address.dict (OrderCreate.address order))) t = inl e.
Proof.
  unfold insert_order. intros H.
  destruct (negb _); [eauto|].
  destruct (decimal_10_2 (OrderCreate.total order)) as [cents|] eqn:E1; [|eauto].
  destruct (existsb _ (orders t)) eqn:E2; [eauto|].
  destruct (references_user (OrderCreate.user_id order) t) eqn:E3;
    cbn [negb]; [|eauto].
  destruct H as [H | [H | H]]; congruence.
Qed.

Lemma create_order_refused (cfg : Config) (order : OrderCreate.t) (w : World) :
  quiet 2 (db_faults (db w)) = true ->
  existsb (fun o => same_text (collation cfg) (o_id o) (new_order_id cfg))
          (orders (tables (db w))) = true \/
  references_user (OrderCreate.user_id order) (tables (db w)) = false \/
  decimal_10_2 (OrderCreate.total order) = None ->
  (exists detail,
      fst (create_order cfg order w) = Raise (HTTPException 500 detail)) /\
  tables (db (snd (create_order cfg order w))) = tables (db w).
Proof.
  intros Hq H. destruct (insert_order_refused cfg order _ H) as [e He].
  destruct (create_order_rejected cfg order w Hq He) as [H1 H2].
  split; [eauto | assumption].
Qed.

Lemma N_of_digits_lower (d : N) (r : list N) :
  d <> 0%N -> (10 ^ N.of_nat (length r) <= N_of_digits (d :: r))%N.
Proof.
  intros H. change (d :: r) with ([d] ++ r). rewrite N_of_digits_concat.
  unfold N_of_digits at 1. cbn [fold_left]. nia.
Qed.

(** An amount of a hundred million or more does not fit [DECIMAL(10, 2)]. *)
Lemma decimal_10_2_out_of_range (f : pyfloat) :
  hundred_million_or_more f = true -> decimal_10_2 f = None.
Proof.
  unfold hundred_million_or_more, decimal_10_2.
  intros H. apply andb_true_iff in H as [_ H].
  destruct f as [neg [|d r] p]; cbn [f_neg f_digits f_decpt] in *;
    [discriminate|].
  apply andb_true_iff in H as [Hd Hp].
  apply negb_true_iff, N.eqb_neq in Hd. apply Z.leb_le in Hp.
  pose proof (N_of_digits_lower r Hd) as Hm.
  apply N2Z.inj_le in Hm. rewrite N2Z.inj_pow, nat_N_Z in Hm.
  change (Z.of_N 10) with 10%Z in Hm.
  set (m := Z.of_N (N_of_digits (d :: r))) in *.
  cbn [length]. rewrite Nat2Z.inj_succ.
  set (n := Z.of_nat (length r)) in *.
  assert (0 <= n)%Z as Hn by (unfold n; lia).
  assert (10 ^ 10 <= 10 ^ (p + 1))%Z as Hbig
    by (apply Z.pow_le_mono_r; lia).
  match goal with
  | |- (if (?h <=? 9999999999)%Z then _ else _) = None =>
      assert (10 ^ 10 <= h)%Z as Hh;
      [|change (10 ^ 10)%Z with 10000000000%Z in Hh;
        destruct (Z.leb_spec h 9999999999); [lia | reflexivity]]
  end.
  destruct (Z.leb_spec 0 (p + 2 - Z.succ n)) as [Hk | Hk].
  - assert (10 ^ (p + 1) = 10 ^ n * 10 ^ (p + 2 - Z.succ n))%Z as E
      by (rewrite <- Z.pow_add_r by lia; f_equal; lia).
    assert (0 < 10 ^ (p + 2 - Z.succ n))%Z by (apply Z.pow_pos_nonneg; lia).
    nia.
  - assert (0 < 10 ^ (- (p + 2 - Z.succ n)))%Z as Hpos
      by (apply Z.pow_pos_nonneg; lia).
    apply Z.div_le_lower_bound; [lia|].
    assert (10 ^ n = 10 ^ (p + 1) * 10 ^ (- (p + 2 - Z.succ n)))%Z as E
      by (rewrite <- Z.pow_add_r by lia; f_equal; lia).
    nia.
Qed.

(** When [connect] fails, the error of the driver leaves the handler as it
    is, and the handler has done nothing. *)
Lemma connect_fails (A : Type) (k : Conn -> M A) (w : World)
      (e : mysql_error) (fs : list (option mysql_error)) :
  db_faults (db w) = Some e :: fs ->
  bind get_db_connection k w = (Raise (MySQLError e), refused w fs).
Proof.
  destruct w as [[t ai oc log fs0] m]. simp. intros ->. reflexivity.
Qed.

(* ------------------------------------------------------------------ *)
(** ** The message of the sender *)


(* ------------------------------------------------------------------ *)
(** ** Order ids and the clock *)

Lemma compact_number_inj (d1 d2 : datetime) :
  valid_datetime d1 = true -> valid_datetime d2 = true ->
  compact_number d1 = compact_number d2 -> d1 = d2.
Proof.
  unfold valid_datetime. intros H1 H2.
  repeat (apply andb_true_iff in H1; destruct H1 as [H1 ?]).
  repeat (apply andb_true_iff in H2; destruct H2 as [H2 ?]).
  repeat match goal with
         | K : (_ <=? _)%N = true |- _ => apply N.leb_le in K
         end.
  destruct d1 as [y1 m1 a1 h1 i1 s1], d2 as [y2 m2 a2 h2 i2 s2].
  unfold compact_number. cbn [year month day hour minute second] in *.
  intros E.
  assert (s1 = s2) by lia. assert (i1 = i2) by lia. assert (h1 = h2) by lia.
  assert (a1 = a2) by lia. assert (m1 = m2) by lia. assert (y1 = y2) by lia.
  congruence.
Qed.

#[local] Transparent new_order_id.

Lemma new_order_id_inj (cfg1 cfg2 : Config) :
  valid_datetime (wall_clock cfg1) = true ->
  valid_datetime (wall_clock cfg2) = true ->
  new_order_id cfg1 = new_order_id cfg2 -> wall_clock cfg1 = wall_clock cfg2.
Proof.
  unfold new_order_id. intros H1 H2 E. apply app_inv_head in E.
  apply compact_number_inj; try assumption.
  rewrite <- !strftime_compact_value by assumption. now rewrite E.
Qed.

#[local] Opaque new_order_id.

(* ------------------------------------------------------------------ *)
(** ** The statements of the handlers that read *)

Lemma login_statements (cfg : Config) (user : UserLogin.t) (w : World) :
  exists issued,
    statement_log (db (snd (login cfg user w))) = statement_log (db w) ++ issued /\
    forallb is_select issued = true.
Proof.
  destruct w as [[t ai oc log fs] m]. open_login.
  crush;
    first [ exists []; split; [now rewrite app_nil_r | reflexivity]
          | eexists; split; [reflexivity | reflexivity] ].
Qed.

Lemma get_user_orders_statements (cfg : Config) (user_id : Z) (w : World) :
  exists issued,
    statement_log (db (snd (get_user_orders cfg user_id w)))
    = statement_log (db w) ++ issued /\
    forallb is_select issued = true.
Proof.
  destruct w as [[t ai oc log fs] m]. open_login.
  destruct fs as [|[e|] [|[e'|] fs]]; simp;
    first [ match goal with
            | |- context [order_entries ?l ?w0] =>
                pose proof (order_entries_world l w0) as Hw;
                destruct (order_entries l w0) as [[es|e] w1]; cbn [snd] in Hw;
                subst w1; simp; eexists; split; reflexivity
            end
          | exists []; split; [now rewrite app_nil_r | reflexivity]
          | eexists; split; reflexivity ].
Qed.

(* ------------------------------------------------------------------ *)
(** ** The encoder writes ASCII *)

#[local] Transparent dumps.

Lemma ascii_text_app (a b : pystr) :
  ascii_text (a ++ b) = ascii_text a && ascii_text b.
Proof. apply forallb_app. Qed.

Lemma ascii_chars (l : list N) : digit_list l -> ascii_text (chars l) = true.
Proof.
  intros H. apply forallb_forall. intros c Hc.
  apply in_map_iff in Hc as (d & <- & Hd).
  pose proof (proj1 (Forall_forall _ _) H d Hd) as H10. cbv beta in H10.
  unfold digit_char. apply N.ltb_lt. lia.
Qed.

Lemma ascii_str_of_int (z : Z) : ascii_text (str_of_int z) = true.
Proof.
  unfold str_of_int. rewrite ascii_text_app, ascii_chars
    by apply digits_of_N_digits.
  destruct (z <? 0)%Z; reflexivity.
Qed.

Lemma digit_list_firstn (k : nat) (l : list N) :
  digit_list l -> digit_list (firstn k l).
Proof.
  intros H. unfold digit_list in *. rewrite <- (firstn_skipn k l) in H.
  apply Forall_app in H. tauto.
Qed.

Lemma digit_list_skipn (k : nat) (l : list N) :
  digit_list l -> digit_list (skipn k l).
Proof.
  intros H. unfold digit_list in *. rewrite <- (firstn_skipn k l) in H.
  apply Forall_app in H. tauto.
Qed.

Lemma ascii_float_repr (f : pyfloat) :
  digit_list (f_digits f) -> ascii_text (float_repr f) = true.
Proof.
  intros H. unfold float_repr. rewrite ascii_text_app.
  apply andb_true_iff. split; [destruct (f_neg f); reflexivity|].
  destruct ((-4 <? f_decpt f) && (f_decpt f <=? 16))%Z.
  - unfold positional.
    destruct (f_decpt f <=? 0)%Z;
      [|destruct (Z.of_nat (length (f_digits f)) <=? f_decpt f)%Z].
    + rewrite ascii_text_app, ascii_chars; [reflexivity|].
      apply Forall_app. split; [apply digit_list_zeros | assumption].
    + rewrite ascii_text_app, ascii_chars; [reflexivity|].
      apply Forall_app. split; [assumption | apply digit_list_zeros].
    + rewrite !ascii_text_app.
      rewrite !ascii_chars
        by auto using digit_list_firstn, digit_list_skipn.
      reflexivity.
  - unfold scientific, exponent_text. rewrite !ascii_text_app.
    rewrite ascii_chars by (apply digit_list_firstn; assumption).
    pose proof (@digit_list_skipn 1 (f_digits f) H) as Hs.
    destruct (skipn 1 (f_digits f)) as [|d r];
      [|change (46%N :: chars (d :: r)) with ([46%N] ++ chars (d :: r));
        rewrite ascii_text_app, (ascii_chars Hs)];
      cbn [andb ascii_text forallb].
    all: fold (ascii_text (chars
           ((if (Z.abs_N (f_decpt f - 1) <? 10)%N then [0%N] else []) ++
            digits_of_N (Z.abs_N (f_decpt f - 1)))));
      rewrite ascii_chars;
      [ destruct (f_decpt f - 1 <? 0)%Z; reflexivity
      | apply Forall_app; split; [|apply digits_of_N_digits];
        destruct (Z.abs_N (f_decpt f - 1) <? 10)%N; repeat constructor ].
Qed.

Lemma hex_char_ascii (d : N) : (d < 16)%N -> (hex_char d <? 128)%N = true.
Proof.
  intros H. unfold hex_char. apply N.ltb_lt. destruct (d <? 10)%N; lia.
Qed.

Lemma ascii_u_escape (c : N) : ascii_text (u_escape c) = true.
Proof.
  unfold u_escape, hex4, ascii_text. cbn [forallb].
  rewrite !hex_char_ascii by (apply N.mod_lt; discriminate). reflexivity.
Qed.

Lemma ascii_escape_char (c : N) : ascii_text (escape_char c) = true.
Proof.
  unfold escape_char.
  repeat match goal with
         | |- context [if (c =? ?k)%N then _ else _] =>
             destruct (c =? k)%N; [reflexivity|]
         end.
  destruct ((32 <=? c) && (c <=? 126))%N eqn:E.
  - apply andb_true_iff in E as [_ E]. apply N.leb_le in E.
    cbn [ascii_text forallb]. rewrite andb_true_r. apply N.ltb_lt. lia.
  - destruct (c <? 65536)%N; rewrite ?ascii_text_app, !ascii_u_escape;
      reflexivity.
Qed.

Lemma ascii_encode_basestring_ascii (s : pystr) :
  ascii_text (encode_basestring_ascii s) = true.
Proof.
  unfold encode_basestring_ascii.
  change (34%N :: flat_map escape_char s ++ [34%N])
    with ([34%N] ++ flat_map escape_char s ++ [34%N]).
  rewrite !ascii_text_app. cbn [ascii_text forallb andb].
  rewrite andb_true_r.
  induction s as [|c s IH]; [reflexivity|].
  cbn [flat_map]. fold (ascii_text (escape_char c ++ flat_map escape_char s)).
  rewrite ascii_text_app, ascii_escape_char. exact IH.
Qed.

Lemma ascii_joined (A : Type) (f : A -> pystr) (l : list A) :
  Forall (fun x => ascii_text (f x) = true) l -> ascii_text (joined f l) = true.
Proof.
  induction 1 as [|x l Hx Hl IH]; [reflexivity|].
  cbn [joined]. rewrite ascii_text_app, Hx.
  destruct l; [reflexivity|]. rewrite ascii_text_app. exact IH.
Qed.

(** Whatever the texts hold, the encoding of a value is ASCII. *)
Lemma ascii_dumps (v : json) : wf_json v = true -> ascii_text (dumps v) = true.
Proof.
  induction v as [| b | z | f | s | l IH | l IH] using json_ind';
    intros Hwf; cbn [dumps].
  - reflexivity.
  - destruct b; reflexivity.
  - apply ascii_str_of_int.
  - apply ascii_float_repr. cbn [wf_json] in Hwf.
    unfold canonical_float in Hwf. apply andb_true_iff in Hwf as [Hd _].
    apply forallb_digit_list. assumption.
  - apply ascii_encode_basestring_ascii.
  - change (91%N :: joined dumps l ++ [93%N])
      with ([91%N] ++ joined dumps l ++ [93%N]).
    rewrite !ascii_text_app, ascii_joined; [reflexivity|].
    cbn [wf_json] in Hwf. apply Forall_forall. intros x Hx.
    apply (proj1 (Forall_forall _ _) IH x Hx).
    exact (proj1 (forallb_forall _ _) Hwf x Hx).
  - match goal with
    | |- ascii_text (123%N :: ?j ++ [125%N]) = true =>
        change (123%N :: j ++ [125%N]) with ([123%N] ++ j ++ [125%N])
    end.
    rewrite !ascii_text_app, ascii_joined; [reflexivity|].
    cbn [wf_json] in Hwf. apply andb_true_iff in Hwf as [Hwf _].
    apply Forall_forall. intros kv Hkv.
    rewrite !ascii_text_app, ascii_encode_basestring_ascii.
    cbn [andb]. change (ascii_text (py ": ")) with true. cbn [andb].
    apply (proj1 (Forall_forall _ _) IH kv Hkv).
    pose proof (proj1 (forallb_forall _ _) Hwf kv Hkv) as H.
    apply andb_true_iff in H. tauto.
Qed.

#[local] Opaque dumps.

(* ------------------------------------------------------------------ *)
(** ** Start-up *)

Ltac boot :=
  unfold init_db, init_calls, init_script, except_mysql, seq, connect, execute,
    commit, close, Startup.print, skip, answered, next_fault in *;
  cbn [boot_faults boot_connections boot_calls boot_stdout fst snd
       first_fault] in *.

Ltac boot_cases fs :=
  destruct fs as [|[?|] [|[?|] [|[?|] [|[?|] [|[?|] [|[?|] [|[?|] fs]]]]]]].

(* ------------------------------------------------------------------ *)
(** ** Further properties of the handlers *)

#[local] Transparent dumps new_order_id.

Lemma new_order_id_clock (cfg cfg' : Config) :
  wall_clock cfg' = wall_clock cfg -> new_order_id cfg' = new_order_id cfg.
Proof. unfold new_order_id. intros ->. reflexivity. Qed.

Lemma handle_written (cfg : Config) (req : request) (w : World) :
  written cfg (tables (db w)) (tables (db (snd (handle cfg req w)))).
Proof.
  destruct req as [user | user | | order | user_id | data]; cbn [handle].
  - apply signup_written.
  - rewrite login_tables. constructor.
  - constructor.
  - apply create_order_written.
  - rewrite get_user_orders_tables. constructor.
  - apply update_user_address_written.
Qed.

Lemma set_address_each (a : pystr) (id : Z) (l : list UserRow) :
  Forall2 (fun u u' => fixed_columns u' = fixed_columns u /\
                       (u_id u <> id -> u_address u' = u_address u))
          l (map (set_address a id) l).
Proof.
  induction l as [|u l IH]; constructor; [|exact IH].
  split; [apply set_address_fixed|].
  intros Hne. unfold set_address. apply Z.eqb_neq in Hne. now rewrite Hne.
Qed.

Lemma unchanged_each (id : Z) (l : list UserRow) :
  Forall2 (fun u u' => fixed_columns u' = fixed_columns u /\
                       (u_id u <> id -> u_address u' = u_address u)) l l.
Proof. induction l; constructor; auto. Qed.

Lemma set_address_written (a : pystr) (id : Z) (l : list UserRow) (u : UserRow) :
  In u (map (set_address a id) l) -> u_id u = id -> u_address u = Some a.
Proof.
  intros Hin Hid. apply in_map_iff in Hin as (v & <- & _).
  unfold set_address in *. destruct (u_id v =? id)%Z eqn:E; [reflexivity|].
  apply Z.eqb_neq in E. contradiction.
Qed.

Lemma no_order_of (user_id : Z) (l : list OrderRow) :
  (forall o, In o l -> o_user_id o <> Some user_id) ->
  filter (owned_by user_id) l = [].
Proof.
  induction l as [|o l IH]; intros H; [reflexivity|].
  cbn [filter]. rewrite IH by (intros o' Ho'; apply H; right; assumption).
  unfold owned_by. destruct (o_user_id o) as [id|] eqn:E; [|reflexivity].
  destruct (Z.eqb_spec id user_id); [|reflexivity].
  exfalso. apply (H o); [left; reflexivity | congruence].
Qed.

(** X1.  A sign-up that answers has added exactly one row to [users]: the
    row holds the name, the email and the password as they were submitted,
    no address, and the id that the answer carries.  The orders are left as
    they were. *)
Theorem signup_stores_the_submitted_row (cfg : Config) (user : UserSignup.t)
        (w w' : World) (resp : json) :
  signup cfg user w = (Return resp, w') ->
  exists id,
    resp = account id user /\
    tables (db w')
    = mkTables (users (tables (db w))
                ++ [mkUser id (UserSignup.name user) (UserSignup.email user)
                           (UserSignup.password user) None (server_clock cfg)])
               (orders (tables (db w))).
Proof.
  intros H. exists (auto_increment (db w)). split.
  - exact (@signup_answer cfg user w w' resp H).
  - apply signup_returns in H. tauto.
Qed.

Lemma signup_stores_the_submitted_row_witness :
  exists id,
    JDict [(py "id", JInt 2); (py "name", JStr (py "B"));
           (py "email", JStr (py "b@x.io"));
           (py "message", JStr (py "User created successfully"))]
    = account id Demo.newcomer /\
    tables (db (snd (signup Demo.cfg Demo.newcomer (Demo.world [] []))))
    = mkTables ([Demo.alice]
                ++ [mkUser id (py "B") (py "b@x.io") (py "secret") None
                           (server_clock Demo.cfg)])
               [].
Proof.
  apply (@signup_stores_the_submitted_row Demo.cfg Demo.newcomer
           (Demo.world [] [])
           (snd (signup Demo.cfg Demo.newcomer (Demo.world [] [])))).
  vm_compute. reflexivity.
Defined.

(** X2.  After a sign-up that answered, a login with the same email and
    the same password answers, when the driver does not fail, with the id
    the sign-up returned, the name and the email that were submitted, no
    address, and the flag [isLoggedIn]. *)
Theorem login_after_signup (cfg : Config) (user : UserSignup.t)
        (w w1 : World) (resp : json) :
  signup cfg user w = (Return resp, w1) ->
  quiet 2 (db_faults (db w1)) = true ->
  exists id,
    resp = account id user /\
    fst (login cfg (UserLogin.mk (UserSignup.email user)
                                 (UserSignup.password user)) w1)
    = Return (JDict [(py "id", JInt id);
                     (py "name", JStr (UserSignup.name user));
                     (py "email", JStr (UserSignup.email user));
                     (py "address", JNull);
                     (py "isLoggedIn", JBool true)]).
Proof.
  intros H Hq. exists (auto_increment (db w)). split.
  - exact (@signup_answer cfg user w w1 resp H).
  - apply signup_returns in H as (Hnone & Ht & _).
    rewrite login_run by assumption.
    cbn [UserLogin.email UserLogin.password].
    unfold users_with_email in *. rewrite Ht. cbn [users].
    rewrite filter_app, Hnone. cbn [filter app user_row u_email].
    unfold same_text. rewrite str_eqb_refl.
    cbn [u_password u_address]. rewrite str_eqb_refl. reflexivity.
Qed.

Lemma login_after_signup_witness :
  exists id,
    JDict [(py "id", JInt 2); (py "name", JStr (py "B"));
           (py "email", JStr (py "b@x.io"));
           (py "message", JStr (py "User created successfully"))]
    = account id Demo.newcomer /\
    fst (login Demo.cfg (UserLogin.mk (py "b@x.io") (py "secret"))
               (snd (signup Demo.cfg Demo.newcomer (Demo.world [] []))))
    = Return (JDict [(py "id", JInt id);
                     (py "name", JStr (py "B"));
                     (py "email", JStr (py "b@x.io"));
                     (py "address", JNull);
                     (py "isLoggedIn", JBool true)]).
Proof.
  apply (@login_after_signup Demo.cfg Demo.newcomer (Demo.world [] [])
           (snd (signup Demo.cfg Demo.newcomer (Demo.world [] [])))).
  - vm_compute. reflexivity.
  - reflexivity.
Defined.

(** X3.  The addresses saved with the address update come back at the next
    login of that user: when the update answered, the login of the user
    whose row has the updated id answers with the list of addresses that was
    submitted (the decoder undoes the encoder), the empty list included. *)
Theorem saved_addresses_come_back_at_login (cfg : Config)
        (data : AddressUpdate.t) (email : pystr) (r : UserRow)
        (rest : list UserRow) (w w1 : World) (resp : json) :
  forallb wf_json (AddressUpdate.addresses data) = true ->
  users_with_email cfg email (tables (db w)) = r :: rest ->
  u_id r = AddressUpdate.user_id data ->
  update_user_address cfg data w = (Return resp, w1) ->
  quiet 2 (db_faults (db w1)) = true ->
  fst (login cfg (UserLogin.mk email (u_password r)) w1)
  = Return (profile r (JList (AddressUpdate.addresses data))).
Proof.
  intros Hwf Hr Hid H Hq.
  apply update_user_address_returns in H as [_ Ht].
  apply (@login_after_set_address cfg email
           (dumps (JList (AddressUpdate.addresses data)))
           (JList (AddressUpdate.addresses data)) r rest w w1).
  - exact Hr.
  - rewrite Ht, Hid. reflexivity.
  - apply str_truthy_dumps_list.
  - apply loads_dumps. exact Hwf.
  - exact Hq.
Qed.

Lemma saved_addresses_come_back_at_login_witness :
  fst (login Demo.cfg (UserLogin.mk (py "a@x.io") (py "pw"))
         (snd (update_user_address Demo.cfg (AddressUpdate.mk 1 [])
                                   (Demo.world [] []))))
  = Return (profile Demo.alice (JList [])).
Proof.
  apply (@saved_addresses_come_back_at_login Demo.cfg (AddressUpdate.mk 1 [])
           (py "a@x.io") Demo.alice [] (Demo.world [] [])
           (snd (update_user_address Demo.cfg (AddressUpdate.mk 1 [])
                                     (Demo.world [] [])))
           (JDict [(py "message", JStr (py "Addresses updated successfully"))])).
  - reflexivity.
  - reflexivity.
  - reflexivity.
  - vm_compute. reflexivity.
  - reflexivity.
Defined.

(** X4.  An order placed for a user replaces what was saved as the address
    of that user: when the placement answered for a user id other than 0,
    the next login of that user answers with the address of the order, one
    object, where the address update saves a list. *)
Theorem order_address_replaces_saved_addresses (cfg : Config)
        (order : OrderCreate.t) (email : pystr) (r : UserRow)
        (rest : list UserRow) (w w1 : World) (resp : json) :
  Address.valid (OrderCreate.address order) = true ->
  OrderCreate.user_id order = Some (u_id r) ->
  u_id r <> 0%Z ->
  users_with_email cfg email (tables (db w)) = r :: rest ->
  create_order cfg order w = (Return resp, w1) ->
  quiet 2 (db_faults (db w1)) = true ->
  fst (login cfg (UserLogin.mk email (u_password r)) w1)
  = Return (profile r (Address.dict (OrderCreate.address order))).
Proof.
  intros Hv Hu Hnz Hr H Hq.
  apply create_order_returns in H as (_ & cents & _ & _ & Husers & _).
  rewrite Hu in Husers. cbn [truthy_id] in Husers. unfold int_truthy in Husers.
  apply Z.eqb_neq in Hnz. rewrite Hnz in Husers. cbn [negb] in Husers.
  apply (@login_after_set_address cfg email
           (dumps (Address.dict (OrderCreate.address order)))
           (Address.dict (OrderCreate.address order)) r rest w w1).
  - exact Hr.
  - exact Husers.
  - apply str_truthy_dumps_dict.
  - apply loads_dumps, wf_address. exact Hv.
  - exact Hq.
Qed.

Lemma order_address_replaces_saved_addresses_witness :
  fst (login Demo.cfg (UserLogin.mk (py "a@x.io") (py "pw"))
         (snd (create_order Demo.cfg Demo.alice_order (Demo.world [] []))))
  = Return (profile Demo.alice (Address.dict Demo.address)).
Proof.
  apply (@order_address_replaces_saved_addresses Demo.cfg Demo.alice_order
           (py "a@x.io") Demo.alice [] (Demo.world [] [])
           (snd (create_order Demo.cfg Demo.alice_order (Demo.world [] [])))
           (order_placed Demo.cfg)).
  - reflexivity.
  - reflexivity.
  - discriminate.
  - reflexivity.
  - vm_compute. reflexivity.
  - reflexivity.
Defined.

(** X5.  A listing that is returned shows exactly the stored orders of the
    user, each once, the newest first: its entries are, in order, the
    entries of rows that are a rearrangement of the stored rows with this
    user id and that are sorted by decreasing creation time. *)
Theorem listing_is_the_users_orders_newest_first (cfg : Config) (user_id : Z)
        (w w' : World) (listing : json) :
  get_user_orders cfg user_id w = (Return listing, w') ->
  exists rows es,
    listing = JList es /\
    Permutation rows (filter (owned_by user_id) (orders (tables (db w)))) /\
    newest_first rows = true /\
    Forall2 shown_as rows es.
Proof.
  intros H. apply get_user_orders_listing in H as (es & -> & Hes).
  exists (order_by_created_at_desc
            (filter (owned_by user_id) (orders (tables (db w))))), es.
  repeat split.
  - apply order_by_created_at_desc_permutation.
  - apply order_by_created_at_desc_newest_first.
  - exact Hes.
Qed.

Lemma listing_is_the_users_orders_newest_first_witness :
  exists rows es,
    Sample.listing = JList es /\
    Permutation rows
      (filter (owned_by 1) (orders (tables (db Sample.two_orders)))) /\
    newest_first rows = true /\
    Forall2 shown_as rows es.
Proof.
  apply (@listing_is_the_users_orders_newest_first Sample.later 1
           Sample.two_orders
           (snd (get_user_orders Sample.later 1 Sample.two_orders))).
  vm_compute. reflexivity.
Defined.

(** X6.  For a user id that no stored order carries (an unknown user
    included) the listing is the empty list, not an error, when the driver
    does not fail. *)
Theorem listing_without_orders_is_empty (cfg : Config) (user_id : Z)
        (w : World) :
  quiet 2 (db_faults (db w)) = true ->
  (forall o, In o (orders (tables (db w))) -> o_user_id o <> Some user_id) ->
  fst (get_user_orders cfg user_id w) = Return (JList []).
Proof.
  intros Hq Hn. apply get_user_orders_none; [assumption|].
  apply no_order_of. assumption.
Qed.

Lemma listing_without_orders_is_empty_witness :
  fst (get_user_orders Demo.cfg 7 Sample.two_orders) = Return (JList []).
Proof.
  apply (@listing_without_orders_is_empty Demo.cfg 7 Sample.two_orders).
  - reflexivity.
  - vm_compute. intros o [<- | [<- | []]]; discriminate.
Defined.

(** X7.  The order id has the resolution of one second and is the primary
    key of [orders]: after a placement that answered, a second placement
    whose clock reads the same second is answered HTTP 500 and stores
    nothing, whatever it orders, when the driver does not fail before the
    insert. *)
Theorem second_order_in_the_same_second_is_refused (cfg cfg' : Config)
        (o1 o2 : OrderCreate.t) (w w1 : World) (resp : json) :
  collation cfg' = collation cfg ->
  wall_clock cfg' = wall_clock cfg ->
  create_order cfg o1 w = (Return resp, w1) ->
  quiet 2 (db_faults (db w1)) = true ->
  (exists detail,
      fst (create_order cfg' o2 w1) = Raise (HTTPException 500 detail)) /\
  tables (db (snd (create_order cfg' o2 w1))) = tables (db w1).
Proof.
  intros Hc Hw H Hq.
  apply create_order_returns in H as (_ & cents & _ & Ho & _).
  apply create_order_refused; [assumption|]. left.
  rewrite Ho, existsb_app, Hc, (@new_order_id_clock cfg cfg' Hw).
  cbn [existsb order_row o_id]. unfold same_text. rewrite str_eqb_refl.
  apply orb_true_r.
Qed.

Lemma second_order_in_the_same_second_is_refused_witness :
  (exists detail,
      fst (create_order Demo.cfg Demo.eighth_order
             (snd (create_order Demo.cfg Demo.alice_order (Demo.world [] []))))
      = Raise (HTTPException 500 detail)) /\
  tables (db (snd (create_order Demo.cfg Demo.eighth_order
                     (snd (create_order Demo.cfg Demo.alice_order
                                        (Demo.world [] []))))))
  = tables (db (snd (create_order Demo.cfg Demo.alice_order (Demo.world [] [])))).
Proof.
  apply (@second_order_in_the_same_second_is_refused Demo.cfg Demo.cfg
           Demo.alice_order Demo.eighth_order (Demo.world [] [])
           (snd (create_order Demo.cfg Demo.alice_order (Demo.world [] [])))
           (order_placed Demo.cfg)).
  - reflexivity.
  - reflexivity.
  - vm_compute. reflexivity.
  - reflexivity.
Defined.

(** X8.  A total of a hundred million or more does not fit the column
    [DECIMAL(10, 2)]: the placement is answered HTTP 500 and stores nothing,
    when the driver does not fail before the insert. *)
Theorem total_of_a_hundred_million_is_refused (cfg : Config)
        (order : OrderCreate.t) (w : World) :
  hundred_million_or_more (OrderCreate.total order) = true ->
  quiet 2 (db_faults (db w)) = true ->
  (exists detail,
      fst (create_order cfg order w) = Raise (HTTPException 500 detail)) /\
  tables (db (snd (create_order cfg order w))) = tables (db w).
Proof.
  intros Hbig Hq. apply create_order_refused; [assumption|].
  right. right. apply decimal_10_2_out_of_range. assumption.
Qed.

Lemma total_of_a_hundred_million_is_refused_witness :
  (exists detail,
      fst (create_order Demo.cfg (Demo.order None Sample.billion)
                        (Demo.world [] []))
      = Raise (HTTPException 500 detail)) /\
  tables (db (snd (create_order Demo.cfg (Demo.order None Sample.billion)
                                (Demo.world [] []))))
  = tables (db (Demo.world [] [])).
Proof.
  apply (@total_of_a_hundred_million_is_refused Demo.cfg
           (Demo.order None Sample.billion) (Demo.world [] [])).
  - reflexivity.
  - reflexivity.
Defined.

(** X9.  An order that names a user id no stored user has is not stored as
    the order of a guest: the foreign key refuses it, the placement is
    answered HTTP 500 and stores nothing.  This holds for the user id 0 as
    well. *)
Theorem order_for_unknown_user_is_refused (cfg : Config)
        (order : OrderCreate.t) (id : Z) (w : World) :
  OrderCreate.user_id order = Some id ->
  has_user id (tables (db w)) = false ->
  quiet 2 (db_faults (db w)) = true ->
  (exists detail,
      fst (create_order cfg order w) = Raise (HTTPException 500 detail)) /\
  tables (db (snd (create_order cfg order w))) = tables (db w).
Proof.
  intros Hu Hn Hq. apply create_order_refused; [assumption|].
  right. left. rewrite Hu. exact Hn.
Qed.

Lemma order_for_unknown_user_is_refused_witness :
  (exists detail,
      fst (create_order Demo.cfg Demo.zero_order (Demo.world [] []))
      = Raise (HTTPException 500 detail)) /\
  tables (db (snd (create_order Demo.cfg Demo.zero_order (Demo.world [] []))))
  = tables (db (Demo.world [] [])).
Proof.
  apply (@order_for_unknown_user_is_refused Demo.cfg Demo.zero_order 0
           (Demo.world [] [])).
  - reflexivity.
  - reflexivity.
  - reflexivity.
Defined.



(** X11.  Every handler that uses the store connects before its [try]
    block: when [connect] is refused, the error of the driver leaves the
    handler as it is (no HTTP error is built from it; the server answers
    500), no statement is sent, no connection is counted as open and no row
    changes. *)
Theorem refused_connect_leaves_every_handler_unhandled (cfg : Config)
        (w : World) (e : mysql_error) (fs : list (option mysql_error)) :
  db_faults (db w) = Some e :: fs ->
  (forall user, signup cfg user w = (Raise (MySQLError e), refused w fs)) /\
  (forall user, login cfg user w = (Raise (MySQLError e), refused w fs)) /\
  (forall order,
      create_order cfg order w = (Raise (MySQLError e), refused w fs)) /\
  (forall user_id,
      get_user_orders cfg user_id w = (Raise (MySQLError e), refused w fs)) /\
  (forall data,
      update_user_address cfg data w = (Raise (MySQLError e), refused w fs)) /\
  status_of (@Raise json (MySQLError e)) = 500%Z.
Proof.
  intros H. repeat split; intros;
    first [ unfold signup | unfold login | unfold create_order
          | unfold get_user_orders | unfold update_user_address ];
    apply connect_fails; assumption.
Qed.

Lemma refused_connect_leaves_every_handler_unhandled_witness :
  (forall user,
      signup Demo.cfg user (Demo.world [Some Demo.lost_connection] [])
      = (Raise (MySQLError Demo.lost_connection), Demo.world [] [])) /\
  (forall user,
      login Demo.cfg user (Demo.world [Some Demo.lost_connection] [])
      = (Raise (MySQLError Demo.lost_connection), Demo.world [] [])) /\
  (forall order,
      create_order Demo.cfg order (Demo.world [Some Demo.lost_connection] [])
      = (Raise (MySQLError Demo.lost_connection), Demo.world [] [])) /\
  (forall user_id,
      get_user_orders Demo.cfg user_id
        (Demo.world [Some Demo.lost_connection] [])
      = (Raise (MySQLError Demo.lost_connection), Demo.world [] [])) /\
  (forall data,
      update_user_address Demo.cfg data
        (Demo.world [Some Demo.lost_connection] [])
      = (Raise (MySQLError Demo.lost_connection), Demo.world [] [])) /\
  status_of (@Raise json (MySQLError Demo.lost_connection)) = 500%Z.
Proof.
  apply (@refused_connect_leaves_every_handler_unhandled Demo.cfg
           (Demo.world [Some Demo.lost_connection] []) Demo.lost_connection []).
  reflexivity.
Defined.

(** X12.  The handlers that read never write: a login and a listing leave
    the committed rows as they were and send nothing but a [SELECT],
    whatever the driver does; the catalogue is answered without the store,
    the same in every state. *)
Theorem readers_leave_the_store_alone (cfg : Config) (w : World) :
  (forall user,
      tables (db (snd (login cfg user w))) = tables (db w) /\
      exists issued,
        statement_log (db (snd (login cfg user w)))
        = statement_log (db w) ++ issued /\
        forallb is_select issued = true) /\
  (forall user_id,
      tables (db (snd (get_user_orders cfg user_id w))) = tables (db w) /\
      exists issued,
        statement_log (db (snd (get_user_orders cfg user_id w)))
        = statement_log (db w) ++ issued /\
        forallb is_select issued = true) /\
  (exists catalogue,
      forall w0, get_products w0 = (Return (JList catalogue), w0)).
Proof.
  repeat split.
  - apply login_tables.
  - apply login_statements.
  - apply get_user_orders_tables.
  - apply get_user_orders_statements.
  - eexists. intros w0. reflexivity.
Qed.

(** X13.  The emails of the stored users stay distinct: when no two stored
    users have the same email for the store, the same holds after any
    request, whatever the driver does. *)
Theorem emails_stay_distinct (cfg : Config) (req : request) (w : World) :
  distinct_emails cfg (users (tables (db w))) = true ->
  distinct_emails cfg (users (tables (db (snd (handle cfg req w))))) = true.
Proof. apply written_distinct_emails, handle_written. Qed.

Lemma emails_stay_distinct_witness :
  distinct_emails Demo.cfg
    (users (tables (db (snd (handle Demo.cfg (PostSignup Demo.newcomer)
                               (Demo.world [] []))))))
  = true.
Proof.
  apply (@emails_stay_distinct Demo.cfg (PostSignup Demo.newcomer)
           (Demo.world [] [])).
  reflexivity.
Defined.

(** X14.  Every stored order belongs to a stored user or to none: when this
    holds before a request, it holds after it, whatever the driver does. *)
Theorem orders_keep_referencing_users (cfg : Config) (req : request)
        (w : World) :
  orders_reference_users (tables (db w)) = true ->
  orders_reference_users (tables (db (snd (handle cfg req w)))) = true.
Proof. apply written_references with (cfg := cfg), handle_written. Qed.

Lemma orders_keep_referencing_users_witness :
  orders_reference_users
    (tables (db (snd (handle Demo.cfg (PostOrders Demo.alice_order)
                        (Demo.world [] [])))))
  = true.
Proof.
  apply (@orders_keep_referencing_users Demo.cfg (PostOrders Demo.alice_order)
           (Demo.world [] [])).
  reflexivity.
Defined.

(** X15.  No request removes or rewrites what is stored, apart from the
    address of a user: after any request the stored orders are the orders
    stored before, unchanged and in place, followed by the new ones, and the
    same holds for the id, name, email, password and creation time of the
    users. *)
Theorem nothing_stored_is_removed (cfg : Config) (req : request) (w : World) :
  (exists new,
      map fixed_columns (users (tables (db (snd (handle cfg req w)))))
      = map fixed_columns (users (tables (db w))) ++ new) /\
  (exists new,
      orders (tables (db (snd (handle cfg req w))))
      = orders (tables (db w)) ++ new).
Proof. apply written_keeps with (cfg := cfg), handle_written. Qed.

(** X16.  The address update writes one column of the users with the
    submitted id and nothing else: the orders, the other columns and the
    addresses of the other users are as before; when it answers, every user
    with that id has the encoded list as address; when it fails, the
    committed rows are as before and the answer is HTTP 500. *)
Theorem address_update_writes_one_column (cfg : Config)
        (data : AddressUpdate.t) (w : World) :
  orders (tables (db (snd (update_user_address cfg data w))))
  = orders (tables (db w)) /\
  Forall2 (fun u u' =>
             fixed_columns u' = fixed_columns u /\
             (u_id u <> AddressUpdate.user_id data ->
              u_address u' = u_address u))
          (users (tables (db w)))
          (users (tables (db (snd (update_user_address cfg data w))))) /\
  (forall resp w',
      update_user_address cfg data w = (Return resp, w') ->
      forall u, In u (users (tables (db w'))) ->
                u_id u = AddressUpdate.user_id data ->
                u_address u
                = Some (dumps (JList (AddressUpdate.addresses data)))) /\
  (forall e w',
      update_user_address cfg data w = (Raise e, w') ->
      tables (db w') = tables (db w) /\ status_of (@Raise json e) = 500%Z).
Proof.
  repeat split.
  - destruct (update_user_address_tables cfg data w) as [-> | ->]; reflexivity.
  - destruct (update_user_address_tables cfg data w) as [-> | ->].
    + apply unchanged_each.
    + apply set_address_each.
  - intros resp w' H u Hin Hid.
    apply update_user_address_returns in H as [_ Ht]. rewrite Ht in Hin.
    exact (@set_address_written _ _ _ u Hin Hid).
  - apply update_user_address_raises in H. tauto.
  - apply update_user_address_raises in H. tauto.
Qed.



(** X18.  The order is committed before the message is built: with a
    credential set and a quantity too large for a float, the placement
    stores the order row, releases its connection and then fails with the
    [OverflowError] of the multiplication, which no [except] clause of the
    handler catches. *)
Theorem order_is_kept_when_the_message_cannot_be_built (cfg : Config)
        (order : OrderCreate.t) (w : World) :
  no_credential cfg = false ->
  quantities_fit (OrderCreate.items order) = false ->
  quiet (if truthy_id (OrderCreate.user_id order) then 4 else 3)
        (db_faults (db w)) = true ->
  store_accepts cfg order (tables (db w)) = true ->
  fst (create_order cfg order w) = Raise OverflowError /\
  open_connections (db (snd (create_order cfg order w)))
  = open_connections (db w) /\
  exists cents,
    orders (tables (db (snd (create_order cfg order w))))
    = orders (tables (db w)) ++ [order_row cfg order cents].
Proof.
  destruct w as [[t ai oc log fs] m]. unfold store_accepts, truthy_id.
  pose proof (@insert_order_inr cfg order t) as Hins.
  intros Hc Hf Hq Ha. open_order.
  destruct (OrderCreate.user_id order) as [id|] eqn:Eu;
    crush_order; try discriminate; rewrite ?Hc, ?Hf in *; simp;
    try discriminate;
    (split; [reflexivity|]); (split; [reflexivity|]);
    destruct (Hins _ eq_refl) as (cents & _ & -> & _);
    exists cents; reflexivity.
Qed.

Lemma order_is_kept_when_the_message_cannot_be_built_witness :
  fst (create_order Demo.cfg_mail Sample.huge_order (Demo.world [] []))
  = Raise OverflowError /\
  open_connections
    (db (snd (create_order Demo.cfg_mail Sample.huge_order (Demo.world [] []))))
  = open_connections (db (Demo.world [] [])) /\
  exists cents,
    orders (tables (db (snd (create_order Demo.cfg_mail Sample.huge_order
                                          (Demo.world [] [])))))
    = orders (tables (db (Demo.world [] [])))
      ++ [order_row Demo.cfg_mail Sample.huge_order cents].
Proof.
  apply (@order_is_kept_when_the_message_cannot_be_built Demo.cfg_mail
           Sample.huge_order (Demo.world [] [])).
  - reflexivity.
  - vm_compute. reflexivity.
  - reflexivity.
  - vm_compute. reflexivity.
Defined.

(** X19.  Two order ids are the same exactly when the clock read the same
    second: for readings with a four-digit year, the id determines the
    reading. *)
Theorem order_ids_differ_across_seconds (cfg1 cfg2 : Config) :
  valid_datetime (wall_clock cfg1) = true ->
  valid_datetime (wall_clock cfg2) = true ->
  (new_order_id cfg1 = new_order_id cfg2 <-> wall_clock cfg1 = wall_clock cfg2).
Proof.
  intros H1 H2. split.
  - apply new_order_id_inj; assumption.
  - intros E. apply new_order_id_clock. assumption.
Qed.

Lemma order_ids_differ_across_seconds_witness :
  new_order_id Demo.cfg = new_order_id Sample.later
  <-> wall_clock Demo.cfg = wall_clock Sample.later.
Proof.
  apply (@order_ids_differ_across_seconds Demo.cfg Sample.later).
  - reflexivity.
  - reflexivity.
Defined.

(** X20.  What the handlers store as JSON is ASCII text, whatever the
    submitted texts hold: the items and the address of a placed order, and
    the address list written by the address update. *)
Theorem stored_json_is_ascii (cfg : Config) (w : World) :
  (forall order resp w',
      OrderCreate.valid order = true ->
      create_order cfg order w = (Return resp, w') ->
      exists row,
        orders (tables (db w')) = orders (tables (db w)) ++ [row] /\
        ascii_text (o_items row) = true /\
        ascii_text (o_address row) = true) /\
  (forall data resp w',
      forallb wf_json (AddressUpdate.addresses data) = true ->
      update_user_address cfg data w = (Return resp, w') ->
      forall u, In u (users (tables (db w'))) ->
                u_id u = AddressUpdate.user_id data ->
                exists a, u_address u = Some a /\ ascii_text a = true).
Proof.
  split.
  - intros order resp w' Hv H.
    apply create_order_returns in H as (_ & cents & _ & Ho & _).
    exists (order_row cfg order cents). split; [assumption|].
    unfold OrderCreate.valid in Hv. apply andb_true_iff in Hv as [Hi Ha].
    cbn [order_row o_items o_address].
    split; apply ascii_dumps; [apply wf_order_items | apply wf_address];
      assumption.
  - intros data resp w' Hwf H u Hin Hid.
    apply update_user_address_returns in H as [_ Ht]. rewrite Ht in Hin.
    exists (dumps (JList (AddressUpdate.addresses data))). split.
    + exact (@set_address_written _ _ _ u Hin Hid).
    + apply ascii_dumps. exact Hwf.
Qed.

Lemma stored_json_is_ascii_witness :
  exists row,
    orders (tables (db (snd (create_order Demo.cfg Sample.accented_order
                                          (Demo.world [] [])))))
    = orders (tables (db (Demo.world [] []))) ++ [row] /\
    ascii_text (o_items row) = true /\
    ascii_text (o_address row) = true.
Proof.
  apply (proj1 (stored_json_is_ascii Demo.cfg (Demo.world [] []))
               Sample.accented_order (order_placed Demo.cfg)
               (snd (create_order Demo.cfg Sample.accented_order
                                  (Demo.world [] [])))).
  - reflexivity.
  - vm_compute. reflexivity.
Defined.



(** X22.  [init_db] closes its connections on the success path only: when
    the call that is refused is a statement or the commit, the connection
    it was sent on stays open; after a refused [connect] and after a
    complete run no connection is left. *)
Theorem init_db_leaves_the_connection_open_on_failure (cfg : Config)
        (s : Boot) :
  boot_connections (snd (init_db cfg s))
  = match last (boot_calls (snd (init_db cfg s))) Close with
    | Execute _ | Commit => S (boot_connections s)
    | _ => boot_connections s
    end.
Proof.
  destruct s as [fs n calls out]. boot.
  destruct (is_local (host (DB_CONFIG cfg))); boot_cases fs; boot;
    rewrite last_last; reflexivity.
Qed.

Lemma init_db_leaves_the_connection_open_on_failure_witness :
  boot_connections (snd (init_db Sample.cloud Sample.second_table_fails))
  = 1%nat.
Proof.
  apply (init_db_leaves_the_connection_open_on_failure Sample.cloud
           Sample.second_table_fails).
Defined.

(** X23.  The calls of [init_db] are a beginning of one fixed script, and
    the whole of it exactly when no call is refused: on a local host the
    database is created first, on its own connection; then, on a connection
    to the configured database, the tables [users], [orders] and [products]
    are created in this order and the work is committed once.  For any other
    host no [CREATE DATABASE] is sent. *)
Theorem init_db_follows_its_script (cfg : Config) (s : Boot) :
  (exists made rest,
      boot_calls (snd (init_db cfg s)) = boot_calls s ++ made /\
      init_script cfg = made ++ rest /\
      (rest = [] <-> first_fault (init_calls cfg) (boot_faults s) = None)) /\
  (is_local (host (DB_CONFIG cfg)) = false ->
   forall name, ~ In (Execute (CreateDatabase name)) (init_script cfg)).
Proof.
  split.
  - destruct s as [fs n calls out]. boot.
    destruct (is_local (host (DB_CONFIG cfg))); boot_cases fs; boot;
      rewrite <- ?app_assoc; cbn [app];
      eexists; eexists; (split; [reflexivity|]);
      (split; [cbn [app]; reflexivity|]); split; intros; try discriminate;
      reflexivity.
  - unfold init_script. intros -> name. cbn [app In].
    intros [H | [H | [H | [H | [H | [H | []]]]]]]; discriminate.
Qed.

Lemma init_db_follows_its_script_witness :
  exists made rest,
    boot_calls (snd (init_db Sample.cloud Sample.second_table_fails))
    = [] ++ made /\
    [Connect (Some (py "hesha_food_db")); Execute CreateUsers;
     Execute CreateOrders; Execute CreateProducts; Commit; Close]
    = made ++ rest /\
    (rest = []
     <-> first_fault 5 [None; None; Some Demo.lost_connection] = None).
Proof.
  apply (proj1 (init_db_follows_its_script Sample.cloud
                  Sample.second_table_fails)).
Defined.

#[local] Opaque dumps new_order_id.

Lemma insert_order_outcome (cfg : Config) (id : pystr) (user_id : option Z)
      (total : pyfloat) (status i1 a1 i2 a2 : pystr) (t : Tables) :
  match insert_order (collation cfg) (server_clock cfg) id user_id total status
                     i1 a1 t,
        insert_order (collation cfg) (server_clock cfg) id user_id total status
                     i2 a2 t with
  | inl e1, inl e2 => e1 = e2
  | inr _, inr _ => True
  | _, _ => False
  end.
Proof.
  unfold insert_order.
  destruct (negb _); [reflexivity|].
  destruct (decimal_10_2 total); [|reflexivity].
  destruct (existsb _ (orders t)); [reflexivity|].
  destruct (negb _); [reflexivity | exact I].
Qed.

(** X24.  A placement writes no column of a user but the address of the
    users with its user id: after it, whatever its outcome, every stored
    user has the id, name, email, password and creation time it had, and
    the users with another id have the address they had. *)
Theorem order_writes_only_the_address_of_its_user (cfg : Config)
        (order : OrderCreate.t) (w : World) :
  Forall2 (fun u u' =>
             fixed_columns u' = fixed_columns u /\
             (OrderCreate.user_id order <> Some (u_id u) ->
              u_address u' = u_address u))
          (users (tables (db w)))
          (users (tables (db (snd (create_order cfg order w))))).
Proof.
  destruct (create_order_tables cfg order w) as [-> | (cents & _ & _ & ->)];
    cbn [users].
  - induction (users (tables (db w))); constructor; auto.
  - unfold truthy_id. destruct (OrderCreate.user_id order) as [id|].
    + destruct (int_truthy id).
      * induction (users (tables (db w))) as [|u l IH]; constructor; [|exact IH].
        split; [apply set_address_fixed|].
        intros Hne. unfold set_address.
        destruct (Z.eqb_spec (u_id u) id); [congruence | reflexivity].
      * induction (users (tables (db w))); constructor; auto.
    + induction (users (tables (db w))); constructor; auto.
Qed.

(** X25.  An order is listed for its own user only: a placement for one
    user id, or for none, leaves the rows that the listing of any other
    user selects as they were.  An order without user id is selected for
    no user. *)
Theorem order_is_not_listed_for_another_user (cfg : Config)
        (order : OrderCreate.t) (other : Z) (w : World) :
  OrderCreate.user_id order <> Some other ->
  filter (owned_by other)
         (orders (tables (db (snd (create_order cfg order w)))))
  = filter (owned_by other) (orders (tables (db w))).
Proof.
  intros Hne.
  destruct (create_order_tables cfg order w) as [-> | (cents & _ & _ & ->)];
    [reflexivity|].
  cbn [orders]. rewrite filter_app. cbn [filter].
  unfold owned_by at 2. cbn [order_row o_user_id].
  destruct (OrderCreate.user_id order) as [id|]; [|apply app_nil_r].
  destruct (Z.eqb_spec id other); [congruence | apply app_nil_r].
Qed.

Lemma order_is_not_listed_for_another_user_witness :
  filter (owned_by 1)
         (orders (tables (db (snd (create_order Demo.cfg
                                     (Demo.order None Demo.three_hundred)
                                     Sample.two_orders)))))
  = filter (owned_by 1) (orders (tables (db Sample.two_orders))).
Proof.
  apply (@order_is_not_listed_for_another_user Demo.cfg
           (Demo.order None Demo.three_hundred) 1 Sample.two_orders).
  discriminate.
Defined.

(** X26.  Whether an order is accepted does not depend on its items or on
    its address: two orders with the same user id and the same total get
    the same answer in the same state, as long as the message can be built
    for both.  The total is not compared with the prices and quantities of
    the items, and an order without items is placed like any other. *)
Theorem order_acceptance_ignores_items_and_address (cfg : Config)
        (o1 o2 : OrderCreate.t) (w : World) :
  OrderCreate.user_id o1 = OrderCreate.user_id o2 ->
  OrderCreate.total o1 = OrderCreate.total o2 ->
  no_credential cfg
  || (quantities_fit (OrderCreate.items o1)
      && quantities_fit (OrderCreate.items o2)) = true ->
  fst (create_order cfg o1 w) = fst (create_order cfg o2 w).
Proof.
  intros Hu Ht Hn.
  assert (no_credential cfg || quantities_fit (OrderCreate.items o1) = true)
    as En1 by (destruct (no_credential cfg); [reflexivity|];
               apply andb_true_iff in Hn; tauto).
  assert (no_credential cfg || quantities_fit (OrderCreate.items o2) = true)
    as En2 by (destruct (no_credential cfg); [reflexivity|];
               apply andb_true_iff in Hn; tauto).
  destruct w as [[t ai oc log fs] m].
  pose proof (insert_order_outcome cfg (new_order_id cfg)
                (OrderCreate.user_id o2) (OrderCreate.total o2) (py "Delivered")
                (dumps (JList (map OrderItem.dict (OrderCreate.items o1))))
                (dumps (Address.dict (OrderCreate.address o1)))
                (dumps (JList (map OrderItem.dict (OrderCreate.items o2))))
                (dumps (Address.dict (OrderCreate.address o2))) t) as Hrel.
  destruct (insert_order _ _ _ _ _ _
              (dumps (JList (map OrderItem.dict (OrderCreate.items o1)))) _ t)
    as [x1|t1] eqn:E1;
  destruct (insert_order _ _ _ _ _ _
              (dumps (JList (map OrderItem.dict (OrderCreate.items o2)))) _ t)
    as [x2|t2] eqn:E2;
  try contradiction; subst;
  destruct (OrderCreate.user_id o2) as [id|] eqn:Eu;
  try destruct (int_truthy id) eqn:Et;
  destruct fs as [|[e0|] [|[e1|] [|[e2|] [|[e3|] fs]]]];
  open_order; rewrite ?Hu, ?Ht, ?Eu; rewrite ?E1, ?E2; rewrite ?Et; simp;
  repeat (simp; notify); rewrite ?En1, ?En2; reflexivity.
Qed.

(** An order without items for the total 300.0 is answered as the order of
    two dosas for that total. *)
Lemma order_acceptance_ignores_items_and_address_witness :
  fst (create_order Demo.cfg
         (OrderCreate.mk (Some 1%Z) [] Demo.three_hundred Demo.address)
         (Demo.world [] []))
  = fst (create_order Demo.cfg Demo.alice_order (Demo.world [] [])).
Proof.
  apply (@order_acceptance_ignores_items_and_address Demo.cfg
           (OrderCreate.mk (Some 1%Z) [] Demo.three_hundred Demo.address)
           Demo.alice_order (Demo.world [] [])).
  - reflexivity.
  - reflexivity.
  - reflexivity.
Defined.

#[local] Transparent dumps new_order_id.
